(** * cv-analysis-server: the pairwise match-scoring pipelines

    A shallow embedding of [services/gemini_analysis.py],
    [services/database.py] and the endpoints of [main.py], with the
    properties of the scoring pipelines stated against it.

    Conventions of the embedding.
    - A Python [str] is a list of Unicode code points ([N]).
    - A Python [float] is [pyfloat]: a finite value carried as an exact
      rational, the two infinities and NaN.  Binary64 rounding of finite
      values is not modelled (a decimal literal denotes its exact value);
      overflow to infinity is.
    - Exceptions are values of [exn]; effectful functions live in the
      state-and-exception monad [M] over [world] (the Redis store, the
      relational tables and the log).
    - What the outside world decides (the replies of the language model,
      which database operations fail, the wall clock) is read from an
      [env].
    - [json.dumps] is the standard library's serializer; the development
      is parametric in it (Section variable [json_dumps]), as it is in
      [str(e)] for an exception ([exn_str]) and in the table of the decimal
      digits outside ASCII ([todecimal]).
    - Left out: [list_cache_keys] of [main.py], whose answer is decided by
      the pattern matching of Redis and comes in no fixed order, and the
      agent tools at the end of [services/database.py], which hand the
      recommendation reads to a language-model agent. *)

From Stdlib Require Import List ZArith NArith QArith Qabs Qround Qpower String
  Ascii Lia Permutation Sorted Bool.
From stdpp Require Import gmap list pretty.

Local Open Scope N_scope.

(** ** Python strings *)

Module Str.

Definition str := list N.

(** A literal: the code points of an ASCII string. *)
Definition py (s : string) : str :=
  List.map N_of_ascii (list_ascii_of_string s).

Definition ch (a : ascii) : N := N_of_ascii a.

(** A literal written with ['] where the text has a double quote. *)
Definition js (s : string) : str :=
  List.map (fun c => if c =? 39 then 34 else c) (py s).

Definition in_range (lo hi c : N) : bool := (lo <=? c) && (c <=? hi).

(** [str.isspace] on one character (CPython's [_PyUnicode_IsWhitespace]). *)
Definition isspace (c : N) : bool :=
  in_range 9 13 c || in_range 28 32 c || (c =? 133) || (c =? 160)
  || (c =? 5760) || in_range 8192 8202 c || (c =? 8232) || (c =? 8233)
  || (c =? 8239) || (c =? 8287) || (c =? 12288).

Fixpoint lstrip_by (p : N -> bool) (s : str) : str :=
  match s with
  | c :: s' => if p c then lstrip_by p s' else s
  | [] => []
  end.

Definition rstrip_by (p : N -> bool) (s : str) : str :=
  rev (lstrip_by p (rev s)).

Definition strip_by (p : N -> bool) (s : str) : str :=
  rstrip_by p (lstrip_by p s).

(** [s.strip()] *)
Definition strip (s : str) : str := strip_by isspace s.

(** [s.strip(chars)] *)
Definition strip_chars (chars : str) (s : str) : str :=
  strip_by (fun c => existsb (N.eqb c) chars) s.

(** [s.startswith(prefix)] *)
Fixpoint startswith (s prefix : str) : bool :=
  match prefix, s with
  | [], _ => true
  | p :: prefix', c :: s' => (c =? p) && startswith s' prefix'
  | _ :: _, [] => false
  end.

(** [s[n:]] *)
Definition slice_from (n : nat) (s : str) : str := skipn n s.

(** The suffix of [s] that starts at the first occurrence of [c]. *)
Fixpoint from_first (c : N) (s : str) : option str :=
  match s with
  | [] => None
  | x :: s' => if x =? c then Some s else from_first c s'
  end.

(** The prefix of [s] that ends at the last occurrence of [c]. *)
Definition upto_last (c : N) (s : str) : option str :=
  option_map (@rev N) (from_first c (rev s)).

Definition lbrace : N := ch "{".
Definition rbrace : N := ch "}".

(** [re.search(r'\{.*\}', s, re.DOTALL)], returning [match.group()].
    The search is leftmost and [.*] is greedy and, under DOTALL, crosses
    newlines: the match starts at the first opening brace that has a closing
    brace after it, which is the first opening brace of [s] when any does,
    and ends at the last closing brace of [s]. *)
Definition re_search_braces (s : str) : option str :=
  match from_first lbrace s with
  | Some (_ :: rest) => option_map (cons lbrace) (upto_last rbrace rest)
  | _ => None
  end.

End Str.
Export Str.

(** ** Python values *)

Module Py.

(** [float]: finite values are exact rationals. *)
Inductive pyfloat :=
| Finite (q : Q)
| Inf (negative : bool)
| NaN.

(** Values beyond the largest binary64 number plus half an ulp round to an
    infinity. *)
Definition float_overflow : Z := (2 ^ 1024 - 2 ^ 970)%Z.

Definition overflows (q : Q) : bool :=
  Qle_bool (inject_Z float_overflow) (Qabs q).

Definition mk_float (q : Q) : pyfloat :=
  if overflows q then Inf (negb (Qle_bool 0 q)) else Finite (Qred q).

#[local] Set Warnings "-register-all".

(** The values [json.loads] produces.  A [dict] keeps its keys in insertion
    order. *)
Inductive pyobj :=
| PyNone
| PyBool (b : bool)
| PyInt (z : Z)
| PyFloat (f : pyfloat)
| PyStr (s : str)
| PyList (l : list pyobj)
| PyDict (d : list (str * pyobj)).

Fixpoint str_eqb (a b : str) : bool :=
  match a, b with
  | [], [] => true
  | x :: a', y :: b' => (x =? y) && str_eqb a' b'
  | _, _ => false
  end.

(** [d[k] = v] *)
Fixpoint dict_set (k : str) (v : pyobj) (d : list (str * pyobj))
  : list (str * pyobj) :=
  match d with
  | [] => [(k, v)]
  | (k', v') :: d' =>
      if str_eqb k k' then (k, v) :: d' else (k', v') :: dict_set k v d'
  end.

(** [dict(pairs)] *)
Definition dict (pairs : list (str * pyobj)) : list (str * pyobj) :=
  fold_left (fun d kv => dict_set (fst kv) (snd kv) d) pairs [].

Fixpoint dict_lookup (k : str) (d : list (str * pyobj)) : option pyobj :=
  match d with
  | [] => None
  | (k', v) :: d' => if str_eqb k k' then Some v else dict_lookup k d'
  end.

End Py.
Export Py.

(** ** The JSON decoder

    [json_loads s] is [json.loads(s)] for a [str] argument: [Some v] when
    decoding succeeds, [None] when it raises [JSONDecodeError].  The
    functions follow CPython's scanner ([json.scanner], [json.decoder]);
    integer literals are unbounded and the nesting depth is bounded by the
    length of the input only: the fuel of [scan_once] is more than the
    scanner can use ([json_loads_enough_fuel] below). *)

Module Json.

Definition quote : N := 34.
Definition backslash : N := 92.

Definition is_ws (c : N) : bool :=
  (c =? 32) || (c =? 9) || (c =? 10) || (c =? 13).

Definition skip_ws (s : str) : str := lstrip_by is_ws s.

Definition is_digit (c : N) : bool := in_range 48 57 c.

Definition digit_val (c : N) : Z := Z.of_N (c - 48).

Fixpoint span_digits (s : str) : str * str :=
  match s with
  | c :: s' =>
      if is_digit c
      then let (ds, rest) := span_digits s' in (c :: ds, rest)
      else ([], s)
  | [] => ([], [])
  end.

Definition digits_to_Z (ds : str) : Z :=
  fold_left (fun acc d => (acc * 10 + digit_val d)%Z) ds 0%Z.

Definition pow10 (e : Z) : Q := Qpower (10 # 1) e.

(** The value of the decimal [int_digits.frac_digits] times ten to the
    [e]. *)
Definition decimal_value (negative : bool) (int_digits frac_digits : str)
  (e : Z) : Q :=
  let m := digits_to_Z (int_digits ++ frac_digits) in
  let q := (inject_Z m * pow10 (e - Z.of_nat (length frac_digits)))%Q in
  if negative then Qopp q else q.

(** The optional fraction [(\.\d+)?]. *)
Definition match_frac (s : str) : option str * str :=
  match s with
  | dot :: d :: s' =>
      if (dot =? ch ".") && is_digit d
      then let (ds, rest) := span_digits (d :: s') in (Some ds, rest)
      else (None, s)
  | _ => (None, s)
  end.

(** The optional exponent [([eE][-+]?\d+)?]. *)
Definition match_exp (s : str) : option Z * str :=
  match s with
  | e :: s1 =>
      if (e =? ch "e") || (e =? ch "E") then
        let (negative, s2) :=
          match s1 with
          | sg :: s2 =>
              if sg =? ch "-" then (true, s2)
              else if sg =? ch "+" then (false, s2)
              else (false, s1)
          | [] => (false, s1)
          end in
        match span_digits s2 with
        | ([], _) => (None, s)
        | (ds, rest) =>
            (Some (if negative then (- digits_to_Z ds)%Z else digits_to_Z ds),
             rest)
        end
      else (None, s)
  | [] => (None, s)
  end.

(** [NUMBER_RE.match]: an optional minus sign, then a zero or a non-zero
    digit followed by digits, then the optional fraction and the optional
    exponent; the match is converted to [int] when it has neither fraction
    nor exponent, to [float] otherwise. *)
Definition match_number (s : str) : option (pyobj * str) :=
  let (negative, s1) :=
    match s with
    | c :: s' => if c =? ch "-" then (true, s') else (false, s)
    | [] => (false, s)
    end in
  let int_part : option (str * str) :=
    match s1 with
    | c :: s' =>
        if c =? ch "0" then Some ([c], s')
        else if is_digit c then Some (span_digits s1)
        else None
    | [] => None
    end in
  match int_part with
  | None => None
  | Some (ints, s2) =>
      let (frac, s3) := match_frac s2 in
      let (exp, s4) := match_exp s3 in
      match frac, exp with
      | None, None =>
          let z := digits_to_Z ints in
          Some (PyInt (if negative then (- z)%Z else z), s4)
      | _, _ =>
          Some (PyFloat (mk_float (decimal_value negative ints
                                     (default [] frac) (default 0%Z exp))),
                s4)
      end
  end.

Definition hex_val (c : N) : option N :=
  if in_range 48 57 c then Some (c - 48)
  else if in_range 97 102 c then Some (c - 87)
  else if in_range 65 70 c then Some (c - 55)
  else None.

Definition hex4 (a b c d : N) : option N :=
  match hex_val a, hex_val b, hex_val c, hex_val d with
  | Some a, Some b, Some c, Some d => Some (((a * 16 + b) * 16 + c) * 16 + d)
  | _, _, _, _ => None
  end.

Definition is_high_surrogate (u : N) : bool := in_range 55296 56319 u.
Definition is_low_surrogate (u : N) : bool := in_range 56320 57343 u.
Definition join_surrogates (hi lo : N) : N :=
  65536 + (hi - 55296) * 1024 + (lo - 56320).

(** The single-character escapes of [BACKSLASH]. *)
Definition unescape (e : N) : option N :=
  if e =? quote then Some quote
  else if e =? backslash then Some backslash
  else if e =? ch "/" then Some (ch "/")
  else if e =? ch "b" then Some 8
  else if e =? ch "f" then Some 12
  else if e =? ch "n" then Some 10
  else if e =? ch "r" then Some 13
  else if e =? ch "t" then Some 9
  else None.

(** [scanstring] in strict mode, entered after the opening quote; [acc]
    holds the characters read so far, last first. *)
Fixpoint scanstring (s : str) (acc : str) : option (str * str) :=
  match s with
  | [] => None
  | c :: s1 =>
      if c =? quote then Some (rev acc, s1)
      else if c =? backslash then
        match s1 with
        | [] => None
        | e :: s2 =>
            if e =? ch "u" then
              match s2 with
              | h1 :: h2 :: h3 :: h4 :: s3 =>
                  match hex4 h1 h2 h3 h4 with
                  | None => None
                  | Some u =>
                      match s3 with
                      | b :: e' :: l1 :: l2 :: l3 :: l4 :: s4 =>
                          if is_high_surrogate u && (b =? backslash)
                             && (e' =? ch "u")
                          then
                            match hex4 l1 l2 l3 l4 with
                            | None => None
                            | Some u2 =>
                                if is_low_surrogate u2
                                then scanstring s4 (join_surrogates u u2 :: acc)
                                else scanstring s3 (u :: acc)
                            end
                          else scanstring s3 (u :: acc)
                      | _ => scanstring s3 (u :: acc)
                      end
                  end
              | _ => None
              end
            else
              match unescape e with
              | Some x => scanstring s2 (x :: acc)
              | None => None
              end
        end
      else if c <=? 31 then None
      else scanstring s1 (c :: acc)
  end.

(** [scan_once], [JSONObject] and [JSONArray].  [object_items] is entered
    after the opening quote of a key, [array_items] at the start of an
    element. *)
Fixpoint scan_once (fuel : nat) (s : str) : option (pyobj * str) :=
  match fuel with
  | O => None
  | S fuel =>
      match s with
      | [] => None
      | c :: s1 =>
          if c =? quote then
            match scanstring s1 [] with
            | Some (x, rest) => Some (PyStr x, rest)
            | None => None
            end
          else if c =? lbrace then
            match skip_ws s1 with
            | c2 :: s2 =>
                if c2 =? rbrace then Some (PyDict [], s2)
                else if c2 =? quote then object_items fuel s2 []
                else None
            | [] => None
            end
          else if c =? ch "[" then
            match skip_ws s1 with
            | c2 :: s2 =>
                if c2 =? ch "]" then Some (PyList [], s2)
                else array_items fuel (c2 :: s2) []
            | [] => None
            end
          else if startswith s (py "null") then Some (PyNone, skipn 4 s)
          else if startswith s (py "true") then Some (PyBool true, skipn 4 s)
          else if startswith s (py "false") then Some (PyBool false, skipn 5 s)
          else
            match match_number s with
            | Some r => Some r
            | None =>
                if startswith s (py "NaN") then Some (PyFloat NaN, skipn 3 s)
                else if startswith s (py "Infinity")
                then Some (PyFloat (Inf false), skipn 8 s)
                else if startswith s (py "-Infinity")
                then Some (PyFloat (Inf true), skipn 9 s)
                else None
            end
      end
  end
with object_items (fuel : nat) (s : str) (pairs : list (str * pyobj))
  : option (pyobj * str) :=
  match fuel with
  | O => None
  | S fuel =>
      match scanstring s [] with
      | None => None
      | Some (key, s1) =>
          match skip_ws s1 with
          | c :: s2 =>
              if c =? ch ":" then
                match scan_once fuel (skip_ws s2) with
                | None => None
                | Some (value, s3) =>
                    let pairs := pairs ++ [(key, value)] in
                    match skip_ws s3 with
                    | c3 :: s4 =>
                        if c3 =? rbrace then Some (PyDict (dict pairs), s4)
                        else if c3 =? ch "," then
                          match skip_ws s4 with
                          | c5 :: s5 =>
                              if c5 =? quote
                              then object_items fuel s5 pairs
                              else None
                          | [] => None
                          end
                        else None
                    | [] => None
                    end
                end
              else None
          | [] => None
          end
      end
  end
with array_items (fuel : nat) (s : str) (values : list pyobj)
  : option (pyobj * str) :=
  match fuel with
  | O => None
  | S fuel =>
      match scan_once fuel s with
      | None => None
      | Some (value, s1) =>
          let values := values ++ [value] in
          match skip_ws s1 with
          | c :: s2 =>
              if c =? ch "]" then Some (PyList values, s2)
              else if c =? ch "," then array_items fuel (skip_ws s2) values
              else None
          | [] => None
          end
      end
  end.

(** [JSONDecoder.decode]: leading whitespace, one value, trailing whitespace,
    end of input. *)
Definition json_loads (s : str) : option pyobj :=
  match scan_once (2 * length s + 2) (skip_ws s) with
  | Some (v, rest) =>
      match skip_ws rest with
      | [] => Some v
      | _ :: _ => None
      end
  | None => None
  end.

End Json.
Export Json.

(** ** Numbers: comparisons, [float()], [round()] *)

Module Num.

(** [a <= b] on floats: false whenever a NaN is involved. *)
Definition fle (a b : pyfloat) : bool :=
  match a, b with
  | NaN, _ | _, NaN => false
  | Inf true, _ => true
  | _, Inf false => true
  | Finite p, Finite q => Qle_bool p q
  | _, _ => false
  end.

Definition flt (a b : pyfloat) : bool := fle a b && negb (fle b a).
Definition fge (a b : pyfloat) : bool := fle b a.
Definition fgt (a b : pyfloat) : bool := flt b a.
Definition feq (a b : pyfloat) : bool := fle a b && fle b a.

(** [-a] *)
Definition fneg (a : pyfloat) : pyfloat :=
  match a with
  | Finite q => Finite (Qopp q)
  | Inf s => Inf (negb s)
  | NaN => NaN
  end.

Definition is_nan (a : pyfloat) : bool :=
  match a with NaN => true | _ => false end.

(** PostgreSQL's order on [float8]: the usual one, with NaN equal to itself
    and above every other value. *)
Definition pg_le (a b : pyfloat) : bool :=
  match a, b with
  | _, NaN => true
  | NaN, _ => false
  | _, _ => fle a b
  end.

(** The numbers among the values: [bool], [int], [float]. *)
Inductive pynum :=
| NumBool (b : bool)
| NumInt (z : Z)
| NumFloat (f : pyfloat).

Definition as_num (v : pyobj) : option pynum :=
  match v with
  | PyBool b => Some (NumBool b)
  | PyInt z => Some (NumInt z)
  | PyFloat f => Some (NumFloat f)
  | _ => None
  end.

Definition num_obj (n : pynum) : pyobj :=
  match n with
  | NumBool b => PyBool b
  | NumInt z => PyInt z
  | NumFloat f => PyFloat f
  end.

(** The value a number is compared by (comparisons between [int] and
    [float] are exact in Python). *)
Definition num_val (n : pynum) : pyfloat :=
  match n with
  | NumBool b => Finite (if b then 1 else 0)
  | NumInt z => Finite (inject_Z z)
  | NumFloat f => f
  end.

(** [round(x, 3)] on a float: to the nearest multiple of a thousandth;
    infinities and NaN are returned unchanged.  A decimal tie, which Python
    decides on the binary64 value of [x], goes to the even neighbour
    here. *)
Definition round_half_even (q : Q) : Z :=
  let f := Qfloor q in
  let r := (q - inject_Z f)%Q in
  match (r ?= 1 # 2)%Q with
  | Lt => f
  | Gt => (f + 1)%Z
  | Eq => if Z.even f then f else (f + 1)%Z
  end.

Definition round3 (x : pyfloat) : pyfloat :=
  match x with
  | Finite q =>
      Finite (Qred (inject_Z (round_half_even (q * 1000)) / 1000))
  | _ => x
  end.

(** *** [float(str)] *)

(** Whitespace for [float()]: ASCII whitespace and the non-ASCII Unicode
    spaces. *)
Definition float_space (c : N) : bool :=
  in_range 9 13 c || (c =? 32) || ((127 <=? c) && isspace c).

(** Underscores are allowed between digits only; they are removed. *)
Fixpoint drop_underscores (prev : N) (s : str) : option str :=
  match s with
  | [] => if prev =? ch "_" then None else Some []
  | c :: s' =>
      if c =? ch "_" then
        if is_digit prev then drop_underscores c s' else None
      else if (prev =? ch "_") && negb (is_digit c) then None
      else option_map (cons c) (drop_underscores c s')
  end.

Definition lower (c : N) : N := if in_range 65 90 c then c + 32 else c.

(** An unsigned literal: [inf], [infinity] or [nan] in any case, or digits
    with an optional point and an optional exponent, at least one digit
    before the exponent; the whole text must be consumed. *)
Definition parse_unsigned (s : str) : option pyfloat :=
  let l := List.map lower s in
  if str_eqb l (py "inf") || str_eqb l (py "infinity") then Some (Inf false)
  else if str_eqb l (py "nan") then Some NaN
  else
    let (ints, s1) := span_digits s in
    let (fracs, s2) :=
      match s1 with
      | c :: s' => if c =? ch "." then span_digits s' else ([], s1)
      | [] => ([], s1)
      end in
    match ints ++ fracs with
    | [] => None
    | _ :: _ =>
        let (exp, s3) := match_exp s2 in
        match s3 with
        | [] => Some (mk_float (decimal_value false ints fracs
                                  (default 0%Z exp)))
        | _ :: _ => None
        end
    end.

(** [float(s)] for a [str]; [None] is [ValueError].  Non-ASCII decimal
    digits, which [float] also accepts, are not recognised here. *)
Definition float_of_str (s : str) : option pyfloat :=
  match drop_underscores 0 (strip_by float_space s) with
  | None => None
  | Some t =>
      match t with
      | c :: t' =>
          if c =? ch "-" then option_map fneg (parse_unsigned t')
          else if c =? ch "+" then parse_unsigned t'
          else parse_unsigned t
      | [] => None
      end
  end.

End Num.
Export Num.

(** ** Exceptions *)

Inductive exn :=
| ValueError (msg : str)           (* raise ValueError(msg), float('x') *)
| JSONDecodeError                  (* json.loads *)
| TypeError                        (* float(None), 'a' >= 0.6 *)
| OverflowError                    (* float(10 ** 400) *)
| AttributeError                   (* [1, 2].get *)
| OracleError                      (* chain.invoke raised *)
| DatabaseError                    (* psycopg2 or SQLAlchemy raised *)
| HTTPException (status_code : Z) (detail : str).

(** Computations that may raise. *)
#[export] Instance exn_ret : MRet (sum exn) := fun A x => inr x.
#[export] Instance exn_bind : MBind (sum exn) := fun A B k m =>
  match m with
  | inl e => inl e
  | inr a => k a
  end.

(** [float(v)] *)
Definition py_float (v : pyobj) : exn + pyfloat :=
  match v with
  | PyFloat f => inr f
  | PyInt z =>
      if overflows (inject_Z z) then inl OverflowError
      else inr (Finite (inject_Z z))
  | PyBool b => inr (Finite (if b then 1 else 0))
  | PyStr s =>
      match float_of_str s with
      | Some f => inr f
      | None => inl (ValueError (py "could not convert string to float"))
      end
  | PyNone | PyList _ | PyDict _ => inl TypeError
  end.

(** [v.get(key, default)]: only a [dict] has the method. *)
Definition py_get (v : pyobj) (key : str) (dflt : pyobj) : exn + pyobj :=
  match v with
  | PyDict d => inr (default dflt (dict_lookup key d))
  | _ => inl AttributeError
  end.


(** ** Records of the program *)

(** A row of table [job] ([class Job(Base)]); [get_all_jobs] copies all
    columns but [end_date] into its dictionaries. *)
Module Job.
Record t := {
  id : Z;
  name : str;
  detail : str;
  enable : bool;
  end_date : Z;
  experience : str
}.
End Job.

(** A row of table [cv_job_matches]. *)
Module Row.
Record t := {
  cv_id : Z;
  job_id : Z;
  cv_text : str;
  match_score : pyfloat;
  explanation : pyobj
}.
End Row.

(** The dictionary [analyze_single_job] returns. *)
Module JobMatch.
Record t := {
  job_id : Z;
  match_score : pyfloat;
  explanation : pyobj;
  created_at : str
}.
Definition to_dict (m : t) : pyobj :=
  PyDict [(py "job_id", PyInt (job_id m));
          (py "match_score", PyFloat (match_score m));
          (py "explanation", explanation m);
          (py "created_at", PyStr (created_at m))].
End JobMatch.

(** The dictionary [filter_candidates] keeps per CV. *)
Module Candidate.
Record t := {
  cv_id : Z;
  match_score : pynum;
  reason : pyobj
}.
Definition to_dict (m : t) : pyobj :=
  PyDict [(py "cv_id", PyInt (cv_id m));
          (py "match_score", num_obj (match_score m));
          (py "reason", reason m)].
End Candidate.

(** The dictionary [analyze_job] (inside [related_jobs]) returns. *)
Module Related.
Record t := {
  jobId : Z;
  score : pyfloat;
  explanation : pyobj
}.
Definition to_dict (m : t) : pyobj :=
  PyDict [(py "jobId", PyInt (jobId m));
          (py "score", PyFloat (score m));
          (py "explanation", explanation m)].
End Related.

(** ** The world and the environment *)

Inductive levelname := ERROR | WARNING.

(** A log record: level, the fixed part of the message, the identity
    formatted into it and the exception formatted into it. *)
Record log_record := {
  level : levelname;
  message : str;
  subject : Z;
  cause : exn
}.

(** What outlives a call: the Redis store (per key, the value and the
    expiry in seconds it was set with, if any; the passing of time is not
    modelled, so no key expires), the tables and the log. *)
Record world := {
  redis : gmap str (str * option Z);
  job_table : list Job.t;
  db_now : Z;
  cv_job_matches : list Row.t;
  nli_analysis : list (Z * str);
  log : list log_record
}.

Definition set_redis
  (f : gmap str (str * option Z) -> gmap str (str * option Z)) (w : world)
  : world :=
  {| redis := f (redis w); job_table := job_table w; db_now := db_now w;
     cv_job_matches := cv_job_matches w; nli_analysis := nli_analysis w;
     log := log w |}.

Definition set_cv_job_matches (f : list Row.t -> list Row.t) (w : world)
  : world :=
  {| redis := redis w; job_table := job_table w; db_now := db_now w;
     cv_job_matches := f (cv_job_matches w); nli_analysis := nli_analysis w;
     log := log w |}.

Definition set_nli_analysis (f : list (Z * str) -> list (Z * str)) (w : world)
  : world :=
  {| redis := redis w; job_table := job_table w; db_now := db_now w;
     cv_job_matches := cv_job_matches w; nli_analysis := f (nli_analysis w);
     log := log w |}.

Definition set_log (f : list log_record -> list log_record) (w : world)
  : world :=
  {| redis := redis w; job_table := job_table w; db_now := db_now w;
     cv_job_matches := cv_job_matches w; nli_analysis := nli_analysis w;
     log := f (log w) |}.

(** The three prompt templates with their arguments. *)
Inductive prompt :=
| CvVsJob (cv_text job_detail : str)
| CvVsFilter (filters : pyobj) (cv_text : str)
| JobVsJob (target_text compare_text : str).

(** The database operations that may fail. *)
Inductive db_op :=
| GetAllJobs
| GetRelativeJobs (job_id : Z)
| SaveNliAnalysis (cv_id : Z)
| SaveCvJobMatches (cv_id job_id : Z)
| RecommendJobsForCv (cv_id : Z)
| RecommendCvsForJob (job_id : Z)
| GetCvForFilter.

(** What the outside decides.  [invoke i p] is the [content] of the reply
    of the language model to prompt [p] of the [i]-th evaluation of a run,
    [None] when the call raises; [db_fails op] tells whether a database
    operation raises; [isoformat_now i] is [datetime.now().isoformat()] in
    the [i]-th evaluation. *)
Record env := {
  invoke : nat -> prompt -> option str;
  db_fails : db_op -> bool;
  isoformat_now : nat -> str
}.

(** ** The monad of effectful code *)

Definition M (A : Type) : Type := world -> (exn + A) * world.

#[export] Instance M_ret : MRet M := fun A x w => (inr x, w).
#[export] Instance M_bind : MBind M := fun A B k m w =>
  match m w with
  | (inl e, w') => (inl e, w')
  | (inr a, w') => k a w'
  end.

Definition raise {A} (e : exn) : M A := fun w => (inl e, w).

Definition get_world : M world := fun w => (inr w, w).

Definition modify_world (f : world -> world) : M unit :=
  fun w => (inr tt, f w).

(** A pure computation that may raise, run inside [M]. *)
Definition lift {A} (r : exn + A) : M A := fun w => (r, w).

(** [try: body / except Exception as e: handler e] *)
Definition try_except {A} (body : M A) (handler : exn -> M A) : M A :=
  fun w =>
    match body w with
    | (inl e, w') => handler e w'
    | (inr a, w') => (inr a, w')
    end.

Definition logger_error (message : str) (subject : Z) (e : exn) : M unit :=
  modify_world
    (set_log (fun l => l ++ [{| level := ERROR; message := message;
                                subject := subject; cause := e |}])).

Definition logger_warning (message : str) (subject : Z) (e : exn) : M unit :=
  modify_world
    (set_log (fun l => l ++ [{| level := WARNING; message := message;
                                subject := subject; cause := e |}])).

(** [f"{n}"] for an [int]. *)
Definition str_of_int (n : Z) : str := py (pretty n).

Definition or_raise {A} (e : exn) (o : option A) : exn + A :=
  match o with
  | Some a => inr a
  | None => inl e
  end.

(** ** Sorting *)

Module Sort.

Section Insertion.
Context {A : Type} (lt : A -> A -> bool).

(** [x] goes after the elements that are strictly before it, hence before
    the elements that compare equal to it. *)
Fixpoint insert (x : A) (l : list A) : list A :=
  match l with
  | [] => [x]
  | y :: l' => if lt y x then y :: insert x l' else x :: l
  end.

(** A stable sort: elements that compare equal keep the order they have
    in [l]. *)
Fixpoint isort (l : list A) : list A :=
  match l with
  | [] => []
  | x :: l' => insert x (isort l')
  end.
End Insertion.

(** [sorted(l, key=key, reverse=reverse)].  The sort compares keys with [<]
    and is stable; with [reverse=True] the list is reversed, sorted, and
    reversed again, which keeps elements with equal keys in their original
    order. *)
Definition sorted {A} (key : A -> pyfloat) (reverse : bool) (l : list A)
  : list A :=
  let lt a b := flt (key a) (key b) in
  if reverse then rev (isort lt (rev l)) else isort lt l.

(** [ORDER BY col DESC] on a [float8] column.  SQL leaves the order of rows
    with equal values to the engine; here they keep the order of the
    table. *)
Definition order_by_desc {A} (col : A -> pyfloat) (rows : list A) : list A :=
  isort (fun a b => negb (pg_le (col a) (col b))) rows.

End Sort.
Export Sort.

(** ** Redis *)

Definition redis_exists (key : str) : M bool :=
  w ← get_world;
  mret (bool_decide (is_Some (redis w !! key))).

Definition redis_get (key : str) : M (option str) :=
  w ← get_world;
  mret (fst <$> redis w !! key).

(** [set(key, value, ex=ttl)] and [setex(key, ttl, value)]; [ttl = None]
    is [set(key, value)]. *)
Definition redis_set (key value : str) (ttl : option Z) : M unit :=
  modify_world (set_redis (fun m => <[key := (value, ttl)]> m)).

(** ** services/database.py *)

Section Database.
Variable json_dumps : pyobj -> str.
Variable E : env.

(** Any database access: [connect()] or the session may raise. *)
Definition db_access (op : db_op) : M unit :=
  if db_fails E op then raise DatabaseError else mret tt.

Definition get_all_jobs : M (list Job.t) :=
  db_access GetAllJobs;;
  w ← get_world;
  mret (List.filter
          (fun j => (db_now w <? Job.end_date j)%Z && Job.enable j)
          (job_table w)).

Definition get_relative_jobs (job_id : Z) : M (list Job.t * Job.t) :=
  db_access (GetRelativeJobs job_id);;
  w ← get_world;
  match List.find (fun j => (Job.id j =? job_id)%Z) (job_table w) with
  | None => raise (HTTPException 404 (py "Job not found"))
  | Some job =>
      let other_jobs :=
        List.filter
          (fun j => (db_now w <? Job.end_date j)%Z && Job.enable j
                    && negb (Job.id j =? job_id)%Z)
          (job_table w) in
      mret (other_jobs, job)
  end.

Definition save_nli_analysis (cv_id : Z) (results : pyobj) : M unit :=
  db_access (SaveNliAnalysis cv_id);;
  modify_world
    (set_nli_analysis (fun t => t ++ [(cv_id, json_dumps results)])).

Definition save_cv_job_matches (cv_id job_id : Z) (cv_text : str)
  (score : pyfloat) (explanation : pyobj) : M unit :=
  db_access (SaveCvJobMatches cv_id job_id);;
  modify_world
    (set_cv_job_matches
       (fun t => t ++ [{| Row.cv_id := cv_id; Row.job_id := job_id;
                          Row.cv_text := cv_text; Row.match_score := score;
                          Row.explanation := explanation |}])).

(** [WHERE cv_id = %s ORDER BY match_score DESC LIMIT 10] *)
Definition select_matches_of_cv (cv_id : Z) (table : list Row.t)
  : list Row.t :=
  firstn 10
    (order_by_desc Row.match_score
       (List.filter (fun r => (Row.cv_id r =? cv_id)%Z) table)).

(** [WHERE job_id = %s ORDER BY match_score DESC LIMIT 10] *)
Definition select_matches_of_job (job_id : Z) (table : list Row.t)
  : list Row.t :=
  firstn 10
    (order_by_desc Row.match_score
       (List.filter (fun r => (Row.job_id r =? job_id)%Z) table)).

Definition job_row_dict (r : Row.t) : pyobj :=
  PyDict [(py "job_id", PyInt (Row.job_id r));
          (py "score", PyFloat (Row.match_score r));
          (py "explanation", Row.explanation r)].

Definition cv_row_dict (r : Row.t) : pyobj :=
  PyDict [(py "cv_id", PyInt (Row.cv_id r));
          (py "score", PyFloat (Row.match_score r));
          (py "explanation", Row.explanation r)].

Definition recommend_jobs_for_cv (cv_id : Z) : M str :=
  let cache_key := py "recommend:cv:" ++ str_of_int cv_id in
  hit ← redis_exists cache_key;
  if hit : bool then
    cached ← redis_get cache_key;
    lift (or_raise AttributeError cached)
  else
    db_access (RecommendJobsForCv cv_id);;
    w ← get_world;
    let rows := select_matches_of_cv cv_id (cv_job_matches w) in
    let result := PyList (List.map job_row_dict rows) in
    redis_set cache_key (json_dumps result) None;;
    mret (json_dumps result).

Definition recommend_cvs_for_job (job_id : Z) : M str :=
  db_access (RecommendCvsForJob job_id);;
  w ← get_world;
  let rows := select_matches_of_job job_id (cv_job_matches w) in
  let result := PyList (List.map cv_row_dict rows) in
  mret (json_dumps result).

(** [SELECT cv_id, cv_text FROM cv_job_matches] *)
Definition get_cv_for_filter : M (list (Z * str)) :=
  db_access GetCvForFilter;;
  w ← get_world;
  mret (List.map (fun r => (Row.cv_id r, Row.cv_text r)) (cv_job_matches w)).

End Database.

(** ** services/gemini_analysis.py *)

(** The completion loop of both thread pools:
    [[
      for future in as_completed(futures):
          result = future.result()
          if result:
              results.append(result)
    ]]
    [order] is the order in which the futures complete, as indices into
    [futures]; each evaluation is taken as one atomic step, run when it
    completes.  [future.result()] re-raises what the evaluation raised. *)
Fixpoint as_completed {R} (futures : list (M (option R))) (order : list nat)
  (results : list R) : M (list R) :=
  match order with
  | [] => mret results
  | i :: order' =>
      result ← default (mret None) (futures !! i);
      as_completed futures order'
        (match result with
         | Some r => results ++ [r]
         | None => results
         end)
  end.

Section GeminiAnalysis.
Variable json_dumps : pyobj -> str.
Variable E : env.

(** [chain.invoke(...)] followed by reading [response.content], in the
    [i]-th evaluation of the run. *)
Definition chain_invoke (i : nat) (p : prompt) : M str :=
  lift (or_raise OracleError (invoke E i p)).

Definition no_json_found : exn :=
  ValueError (py "No valid JSON found in Gemini response").

(** *** analyze_single_job *)

(** Lines 96-106: from [raw_content] to [score] and [explanation]. *)
Definition analyze_single_job_parse (raw_content : str)
  : exn + (pyfloat * pyobj) :=
  let cleaned_content := strip_chars (py "`") (strip raw_content) in
  match re_search_braces cleaned_content with
  | None => inl no_json_found
  | Some json_str =>
      parsed ← or_raise JSONDecodeError (json_loads json_str);
      v ← py_get parsed (py "score") (PyInt 0);
      score ← py_float v;
      explanation ← py_get parsed (py "explanation") (PyStr []);
      mret (score, explanation)
  end.

Definition analyze_single_job (i : nat) (cv_id : Z) (cv_text : str)
  (job : Job.t) : M (option JobMatch.t) :=
  try_except
    (raw_content ← chain_invoke i (CvVsJob cv_text (Job.detail job));
     '(score, explanation) ← lift (analyze_single_job_parse raw_content);
     if fge score (Finite (1 # 2)) then
       save_cv_job_matches E cv_id (Job.id job) cv_text score explanation;;
       mret (Some {| JobMatch.job_id := Job.id job;
                     JobMatch.match_score := score;
                     JobMatch.explanation := explanation;
                     JobMatch.created_at := isoformat_now E i |})
     else mret None)
    (fun e =>
       logger_error (py "Error analyzing job") (Job.id job) e;;
       mret None).

(** *** analyze_cv_with_jobs *)

(** Lines 132-140: the thread pool over [jobs]. *)
Definition analyze_cv_fan_out (order : list nat) (cv_text : str) (cv_id : Z)
  (jobs : list Job.t) : M (list JobMatch.t) :=
  let futures := imap (fun i job => analyze_single_job i cv_id cv_text job)
                   jobs in
  as_completed futures order [].

(** Lines 129-147: the path taken when the cache has no entry. *)
Definition analyze_cv_with_jobs_miss (order : list nat) (cv_text : str)
  (cv_id : Z) : M (list JobMatch.t) :=
  let cache_key := py "nli_analysis:cv:" ++ str_of_int cv_id in
  let cache_key2 := py "recommend:cv:" ++ str_of_int cv_id in
  jobs ← get_all_jobs E;
  results ← analyze_cv_fan_out order cv_text cv_id jobs;
  let sorted_results := sorted JobMatch.match_score true results in
  let payload := PyList (List.map JobMatch.to_dict sorted_results) in
  save_nli_analysis json_dumps E cv_id payload;;
  redis_set cache_key (json_dumps payload) (Some 1800%Z);;
  redis_set cache_key2 (json_dumps payload) (Some 1800%Z);;
  mret sorted_results.

Definition analyze_cv_with_jobs (order : list nat) (cv_text : str)
  (cv_id : Z) : M pyobj :=
  let cache_key := py "nli_analysis:cv:" ++ str_of_int cv_id in
  hit ← redis_exists cache_key;
  if hit : bool then
    cached ← redis_get cache_key;
    cached ← lift (or_raise TypeError cached);
    lift (or_raise JSONDecodeError (json_loads cached))
  else
    sorted_results ← analyze_cv_with_jobs_miss order cv_text cv_id;
    mret (PyList (List.map JobMatch.to_dict sorted_results)).

(** *** filter_candidates *)

(** Lines 196-208: from the reply to [match_score] and [reason]. *)
Definition filter_candidates_parse (response_text : str)
  : exn + (pyobj * pyobj) :=
  let response_text := strip_chars (py "`") (strip response_text) in
  match response_text with
  | [] => inl (ValueError (py "Empty response from Gemini"))
  | _ :: _ =>
      match re_search_braces response_text with
      | None => inl no_json_found
      | Some json_str =>
          parsed ← or_raise JSONDecodeError (json_loads json_str);
          match_score ← py_get parsed (py "match_score") (PyInt 0);
          reason ← py_get parsed (py "reason") (PyStr []);
          mret (match_score, reason)
      end
  end.

(** [best_scores]: a [dict] keyed by [cv_id], in insertion order. *)
Definition best_scores_t := list (Z * Candidate.t).

Fixpoint best_lookup (cv_id : Z) (best_scores : best_scores_t)
  : option Candidate.t :=
  match best_scores with
  | [] => None
  | (k, c) :: rest => if (k =? cv_id)%Z then Some c else best_lookup cv_id rest
  end.

Fixpoint best_store (cv_id : Z) (c : Candidate.t) (best_scores : best_scores_t)
  : best_scores_t :=
  match best_scores with
  | [] => [(cv_id, c)]
  | (k, c') :: rest =>
      if (k =? cv_id)%Z then (k, c) :: rest
      else (k, c') :: best_store cv_id c rest
  end.

(** Lines 193-219: the body of the loop, for the [i]-th row.  Comparing
    [match_score] with a float raises [TypeError] unless it is a
    number. *)
Definition filter_candidates_step (filters : pyobj) (i : nat)
  (row : Z * str) (best_scores : best_scores_t) : M best_scores_t :=
  let '(cv_id, cv_text) := row in
  try_except
    (response_text ← chain_invoke i (CvVsFilter filters cv_text);
     '(match_score, reason) ← lift (filter_candidates_parse response_text);
     match_score ← lift (or_raise TypeError (as_num match_score));
     if fge (num_val match_score) (Finite (3 # 5)) then
       let better :=
         match best_lookup cv_id best_scores with
         | None => true
         | Some old =>
             fgt (num_val match_score) (num_val (Candidate.match_score old))
         end in
       if better then
         mret (best_store cv_id
                 {| Candidate.cv_id := cv_id;
                    Candidate.match_score := match_score;
                    Candidate.reason := reason |} best_scores)
       else mret best_scores
     else mret best_scores)
    (fun e =>
       logger_error (py "Error while processing CV") cv_id e;;
       mret best_scores).

Fixpoint filter_candidates_loop (filters : pyobj) (i : nat)
  (rows : list (Z * str)) (best_scores : best_scores_t) : M best_scores_t :=
  match rows with
  | [] => mret best_scores
  | row :: rows' =>
      best_scores ← filter_candidates_step filters i row best_scores;
      filter_candidates_loop filters (S i) rows' best_scores
  end.

(** The list returned under the key [matched_candidates]. *)
Definition filter_candidates (filters : pyobj) : M (list Candidate.t) :=
  rows ← get_cv_for_filter E;
  best_scores ← filter_candidates_loop filters 0 rows [];
  mret (sorted (fun x => fneg (num_val (Candidate.match_score x))) false
          (List.map snd best_scores)).

(** *** related_jobs *)

(** Lines 262-268 of [analyze_job]. *)
Definition analyze_job_parse (raw_content : str) : exn + (pyfloat * pyobj) :=
  let cleaned_content := strip_chars (py "`") (strip raw_content) in
  let cleaned_content :=
    if startswith cleaned_content (py "json")
    then strip (slice_from 4 cleaned_content)
    else cleaned_content in
  parsed ← or_raise JSONDecodeError (json_loads cleaned_content);
  v ← py_get parsed (py "score") (PyInt 0);
  score ← py_float v;
  explanation ← py_get parsed (py "explanation") (PyStr []);
  mret (score, explanation).

Definition job_text (job : Job.t) : str :=
  py "Job Name: " ++ Job.name job ++ [10%N] ++ py "Job Description: "
  ++ Job.detail job.

Definition analyze_job (target_text : str) (i : nat) (other : Job.t)
  : M (option Related.t) :=
  let compare_text := job_text other in
  try_except
    (raw_content ← chain_invoke i (JobVsJob target_text compare_text);
     '(score, explanation) ← lift (analyze_job_parse raw_content);
     if fge score (Finite (2 # 5)) then
       mret (Some {| Related.jobId := Job.id other;
                     Related.score := round3 score;
                     Related.explanation := explanation |})
     else mret None)
    (fun e =>
       logger_warning (py "Failed comparing with job") (Job.id other) e;;
       mret None).

(** Lines 233-291: the path taken when the cache has no entry. *)
Definition related_jobs_miss (order : list nat) (job_id : Z)
  : M (list Related.t) :=
  let cache_key := py "related_jobs:" ++ str_of_int job_id in
  '(other_jobs, job) ← get_relative_jobs E job_id;
  let target_text := job_text job in
  let futures := imap (fun i other => analyze_job target_text i other)
                   other_jobs in
  results ← as_completed futures order [];
  let results := sorted Related.score true results in
  redis_set cache_key
    (json_dumps (PyList (List.map Related.to_dict results)))
    (Some 10800%Z);;
  mret results.

Definition related_jobs (order : list nat) (job_id : Z) : M pyobj :=
  let cache_key := py "related_jobs:" ++ str_of_int job_id in
  hit ← redis_exists cache_key;
  if hit : bool then
    cached ← redis_get cache_key;
    cached ← lift (or_raise TypeError cached);
    lift (or_raise JSONDecodeError (json_loads cached))
  else
    results ← related_jobs_miss order job_id;
    mret (PyList (List.map Related.to_dict results)).

End GeminiAnalysis.

(** ** main.py: the two recommendation endpoints *)

Section Main.
Variable json_dumps : pyobj -> str.
Variable E : env.

(** [GET /api/recommend/jobs-for-cv/{cv_id}] *)
Definition get_job_recommendations (cv_id : Z) : M pyobj :=
  result ← recommend_jobs_for_cv json_dumps E cv_id;
  mret (PyDict [(py "cv_id", PyInt cv_id);
                (py "recommended_jobs", PyStr result)]).

(** [GET /api/recommend/cvs-for-job/{job_id}]; the source gives this
    handler the name [get_job_recommendations] as well. *)
Definition get_job_recommendations' (job_id : Z) : M pyobj :=
  result ← recommend_cvs_for_job json_dumps E job_id;
  mret (PyDict [(py "job_id", PyInt job_id);
                (py "recommended_cvs", PyStr result)]).

End Main.

(** ** services/gemini_analysis.py: [extract_score] *)

(** The line boundaries of [str.splitlines]: LF, VT, FF, CR, FS, GS, RS,
    NEL, LS and PS. *)
Definition is_linebreak (c : N) : bool :=
  in_range 10 13 c || in_range 28 30 c || (c =? 133) || (c =? 8232)
  || (c =? 8233).

(** [s.splitlines()].  [line] is the line being read, reversed; [after_cr]
    tells that the character before was a carriage return, which a line
    feed then belongs to.  A text that ends with a line boundary has no
    empty last line. *)
Fixpoint splitlines_from (after_cr : bool) (line : str) (s : str)
  : list str :=
  match s with
  | [] =>
      match line with
      | [] => []
      | _ :: _ => [rev line]
      end
  | c :: s' =>
      if after_cr && (c =? 10) then splitlines_from false line s'
      else if is_linebreak c then rev line :: splitlines_from (c =? 13) [] s'
      else splitlines_from false (c :: line) s'
  end.

Definition splitlines (s : str) : list str := splitlines_from false [] s.

(** [sub in s] *)
Fixpoint contains (s sub : str) : bool :=
  startswith s sub
  || match s with
     | [] => false
     | _ :: s' => contains s' sub
     end.

(** ["score" in line.lower()].  [str.lower] also changes letters outside
    ASCII, but it maps none of them to a letter of the word (the only
    characters it takes into ASCII are U+0130 and U+212A, to [i] and [k]) and
    none to the empty string, so the test sees the ASCII letters of [line]
    only. *)
Definition mentions_score (line : str) : bool :=
  contains (List.map lower line) (py "score").

Section ExtractScore.
(** [Py_UNICODE_TODECIMAL] outside ASCII: the value of a decimal digit of
    another script, [None] for every other character. *)
Variable todecimal : N -> option N.

(** What [\d] matches in a [str] pattern. *)
Definition is_decimal (c : N) : bool :=
  if c <? 128 then is_digit c else bool_decide (is_Some (todecimal c)).

Fixpoint span_decimals (s : str) : str * str :=
  match s with
  | c :: s' =>
      if is_decimal c
      then let (ds, rest) := span_decimals s' in (c :: ds, rest)
      else ([], s)
  | [] => ([], [])
  end.

(** What the optional group of the pattern matches at the head of [s]: a
    point and the digits after it when there is one at least, nothing
    otherwise. *)
Definition score_fraction (s : str) : str :=
  match s with
  | dot :: d :: s' =>
      if (dot =? ch ".") && is_decimal d
      then dot :: fst (span_decimals (d :: s'))
      else []
  | _ => []
  end.

(** [re.search] for a [0] or a [1] with an optional fraction, returning
    [match.group(1)]: the leftmost match starts at the first [0] or [1] of
    the line. *)
Fixpoint re_search_score (s : str) : option str :=
  match s with
  | [] => None
  | c :: s' =>
      if in_range 48 49 c then Some (c :: score_fraction s')
      else re_search_score s'
  end.

(** What [float] does to a [str] before it parses it: spaces and decimal
    digits outside ASCII become their ASCII counterparts; the text is cut at
    the first other character outside ASCII, where a question mark is
    left. *)
Fixpoint transform_decimal_and_space (s : str) : str :=
  match s with
  | [] => []
  | c :: s' =>
      if c <? 128 then c :: transform_decimal_and_space s'
      else if isspace c then 32 :: transform_decimal_and_space s'
      else match todecimal c with
           | Some d => (48 + d) :: transform_decimal_and_space s'
           | None => [ch "?"]
           end
  end.

(** Lines 51-57.  An empty selection of lines makes the subscript raise,
    and [float] may raise: both end in the [except] clause, as does every
    other exception. *)
Definition extract_score (text : str) : pyfloat :=
  let score_lines := List.filter mentions_score (splitlines text) in
  match last score_lines with
  | None => Finite 0
  | Some score_line =>
      match re_search_score score_line with
      | None => Finite 0
      | Some group1 =>
          match float_of_str (transform_decimal_and_space group1) with
          | Some score => score
          | None => Finite 0
          end
      end
  end.

End ExtractScore.

(** ** main.py: the other endpoints *)


Section Endpoints.
Variable json_dumps : pyobj -> str.
Variable E : env.
(** [str(e)] *)
Variable exn_str : exn -> str.
(** What a command sent over [redis_client] raises, if it raises.
    [redis_client] is the connection of [main.py]; it reaches the same
    Redis database as the connections of the two services. *)
Variable client_error : option exn.

(** [POST /api/filter] *)
Definition get_filter_cvs (filters : pyobj) : M pyobj :=
  matched ← filter_candidates E filters;
  mret (PyDict [(py "matched_candidates",
                 PyList (List.map Candidate.to_dict matched))]).

(** [GET /api/related-jobs/{job_id}] *)
Definition get_related_jobs (order : list nat) (job_id : Z) : M pyobj :=
  related_jobs json_dumps E order job_id.


(** A command of [redis_client]. *)
Definition client_command {A} (command : M A) : M A :=
  match client_error with
  | Some e => raise e
  | None => command
  end.

(** [redis_client.exists(key)]: the number of keys that exist. *)
Definition client_exists (key : str) : M Z :=
  client_command
    (w ← get_world;
     mret (match redis w !! key with
           | Some _ => 1
           | None => 0
           end)%Z).

(** [redis_client.delete(key)]: the number of keys removed. *)
Definition client_delete (key : str) : M Z :=
  client_command
    (w ← get_world;
     match redis w !! key with
     | Some _ => modify_world (set_redis (fun m => delete key m));; mret 1%Z
     | None => mret 0%Z
     end).

(** [redis_client.ttl(key)]: -2 for a key that does not exist, -1 for a key
    without expiry, the seconds left otherwise, which are the seconds the
    key was set with as no time passes. *)
Definition client_ttl (key : str) : M Z :=
  client_command
    (w ← get_world;
     mret (match redis w !! key with
           | None => -2
           | Some (_, None) => -1
           | Some (_, Some ttl) => ttl
           end)%Z).

(** [GET /api/cache/check-exists] *)
Definition check_cache_exists (key : str) : M pyobj :=
  try_except
    (exists_ ← client_exists key;
     mret (PyBool (exists_ =? 1)%Z))
    (fun e =>
       raise (HTTPException 500 (py "Failed to check cache: " ++ exn_str e))).

(** [DELETE /api/cache/delete] *)
Definition delete_cache (key : str) : M pyobj :=
  try_except
    (deleted ← client_delete key;
     if (deleted =? 0)%Z then
       mret (PyDict [(py "success", PyBool false);
                     (py "message", PyStr (py "Key not found"))])
     else
       mret (PyDict [(py "success", PyBool true);
                     (py "message", PyStr (py "Cache deleted successfully"))]))
    (fun e =>
       raise (HTTPException 500 (py "Failed to delete cache: " ++ exn_str e))).

(** [GET /api/cache/get-ttl] *)
Definition get_cache_ttl (key : str) : M pyobj :=
  try_except
    (ttl ← client_ttl key;
     if (ttl =? -2)%Z then
       mret (PyDict [(py "ttl", PyNone); (py "exists", PyBool false);
                     (py "message", PyStr (py "Key does not exist"))])
     else if (ttl =? -1)%Z then
       mret (PyDict [(py "ttl", PyNone); (py "exists", PyBool true);
                     (py "message", PyStr (py "Key has no expiration"))])
     else
       mret (PyDict [(py "ttl", PyInt ttl); (py "exists", PyBool true);
                     (py "message",
                      PyStr (py "Key expires in " ++ str_of_int ttl
                             ++ py " seconds"))]))
    (fun e =>
       raise (HTTPException 500 (py "Failed to get TTL: " ++ exn_str e))).

End Endpoints.

(** ** Vocabulary of the properties *)

(** No key of [l] is NaN. *)
Definition no_nan_keys {A} (key : A -> pyfloat) (l : list A) : Prop :=
  Forall (fun x => is_nan (key x) = false) l.

(** [l] is non-increasing in [key]: every element is followed only by
    elements whose key is at most its own. *)
Definition descending {A} (key : A -> pyfloat) (l : list A) : Prop :=
  StronglySorted (fun a b => fle (key b) (key a) = true) l.


(** The elements of [l] whose key equals [s], in the order of [l]. *)
Definition with_key {A} (key : A -> pyfloat) (s : pyfloat) (l : list A)
  : list A :=
  List.filter (fun x => feq (key x) s) l.

Section Outcomes.
Variable E : env.

(** What the evaluation of one pair returns, as a function of what the
    environment decides for it. *)
Definition single_job_outcome (i : nat) (cv_id : Z) (cv_text : str)
  (job : Job.t) : option JobMatch.t :=
  match invoke E i (CvVsJob cv_text (Job.detail job)) with
  | None => None
  | Some raw_content =>
      match analyze_single_job_parse raw_content with
      | inl _ => None
      | inr (score, explanation) =>
          if fge score (Finite (1 # 2))
             && negb (db_fails E (SaveCvJobMatches cv_id (Job.id job)))
          then Some {| JobMatch.job_id := Job.id job;
                       JobMatch.match_score := score;
                       JobMatch.explanation := explanation;
                       JobMatch.created_at := isoformat_now E i |}
          else None
      end
  end.

Definition related_job_outcome (target_text : str) (i : nat) (other : Job.t)
  : option Related.t :=
  match invoke E i (JobVsJob target_text (job_text other)) with
  | None => None
  | Some raw_content =>
      match analyze_job_parse raw_content with
      | inl _ => None
      | inr (score, explanation) =>
          if fge score (Finite (2 # 5))
          then Some {| Related.jobId := Job.id other;
                       Related.score := round3 score;
                       Related.explanation := explanation |}
          else None
      end
  end.

(** The entry the [i]-th row of [filter_candidates] qualifies for. *)
Definition candidate_outcome (filters : pyobj) (i : nat) (row : Z * str)
  : option Candidate.t :=
  match invoke E i (CvVsFilter filters (snd row)) with
  | None => None
  | Some response_text =>
      match filter_candidates_parse response_text with
      | inl _ => None
      | inr (match_score, reason) =>
          match as_num match_score with
          | None => None
          | Some n =>
              if fge (num_val n) (Finite (3 # 5))
              then Some {| Candidate.cv_id := fst row;
                           Candidate.match_score := n;
                           Candidate.reason := reason |}
              else None
          end
      end
  end.

End Outcomes.

(** The outcomes of the evaluations, in the order [order] completes them. *)
Definition collected {C R} (outcome : nat -> C -> option R)
  (candidates : list C) (order : list nat) : list R :=
  omap (fun i => candidates !! i ≫= outcome i) order.

(** [v] is a [dict] without the key [k]. *)
Definition lacks_key (k : str) (v : pyobj) : Prop :=
  match v with
  | PyDict d => dict_lookup k d = None
  | _ => False
  end.

(** A log record of [logger.error]. *)
Definition error_record (message : str) (subject : Z) (e : exn) : log_record :=
  {| level := ERROR; message := message; subject := subject; cause := e |}.

(** What the evaluation of a pair leaves as it was: the cache, table [job],
    the clock and table [nli_analysis]. *)
Definition evaluation_frame (w w' : world) : Prop :=
  redis w' = redis w /\ job_table w' = job_table w /\ db_now w' = db_now w
  /\ nli_analysis w' = nli_analysis w.


(** A log record of [logger.warning]. *)
Definition warning_record (message : str) (subject : Z) (e : exn)
  : log_record :=
  {| level := WARNING; message := message; subject := subject; cause := e |}.

(** Lines 211-216 of [filter_candidates]: the entry [c] replaces the one of
    its CV when there is none yet or when its score is strictly greater. *)
Definition keep_best (c : Candidate.t) (best_scores : best_scores_t)
  : best_scores_t :=
  let better :=
    match best_lookup (Candidate.cv_id c) best_scores with
    | None => true
    | Some old =>
        fgt (num_val (Candidate.match_score c))
          (num_val (Candidate.match_score old))
    end in
  if better then best_store (Candidate.cv_id c) c best_scores
  else best_scores.

(** The cache keys. *)
Definition analysis_key (cv_id : Z) : str :=
  py "nli_analysis:cv:" ++ str_of_int cv_id.
Definition recommend_key (cv_id : Z) : str :=
  py "recommend:cv:" ++ str_of_int cv_id.
Definition related_key (job_id : Z) : str :=
  py "related_jobs:" ++ str_of_int job_id.

(** The rows [get_all_jobs] selects: enabled and not expired. *)
Definition active_jobs (w : world) : list Job.t :=
  List.filter (fun j => (db_now w <? Job.end_date j)%Z && Job.enable j)
    (job_table w).

(** The rows [get_relative_jobs] selects besides the subject. *)
Definition other_active_jobs (job_id : Z) (w : world) : list Job.t :=
  List.filter
    (fun j => (db_now w <? Job.end_date j)%Z && Job.enable j
              && negb (Job.id j =? job_id)%Z)
    (job_table w).

(** The entries the rows of [filter_candidates] qualify for, in row order,
    the first row being the [i]-th evaluation. *)
Fixpoint candidate_outcomes (E : env) (filters : pyobj) (i : nat)
  (rows : list (Z * str)) : list Candidate.t :=
  match rows with
  | [] => []
  | row :: rows' =>
      match candidate_outcome E filters i row with
      | Some c => c :: candidate_outcomes E filters (S i) rows'
      | None => candidate_outcomes E filters (S i) rows'
      end
  end.

(** The value a candidate entry is ranked by. *)
Definition candidate_score (c : Candidate.t) : pyfloat :=
  num_val (Candidate.match_score c).


(** The rows [get_cv_for_filter] returns. *)
Definition filter_rows (w : world) : list (Z * str) :=
  List.map (fun r => (Row.cv_id r, Row.cv_text r)) (cv_job_matches w).

(** [best_scores] after the entries [cs] have been offered in turn. *)
Definition best_of (cs : list Candidate.t) (best_scores : best_scores_t)
  : best_scores_t :=
  fold_left (fun b c => keep_best c b) cs best_scores.

(** What holds of [best_scores] once the entries [seen] have been
    offered: keys are distinct; the entry of a CV is one of [seen], carries
    that CV's identity and no entry of [seen] for the same CV has a greater
    score; every CV of [seen] has an entry. *)
Definition best_invariant (best_scores : best_scores_t)
  (seen : list Candidate.t) : Prop :=
  NoDup (List.map fst best_scores)
  /\ (forall k c, best_lookup k best_scores = Some c ->
        Candidate.cv_id c = k /\ In c seen
        /\ forall c', In c' seen -> Candidate.cv_id c' = k ->
                      fle (candidate_score c') (candidate_score c) = true)
  /\ (forall c', In c' seen ->
        is_Some (best_lookup (Candidate.cv_id c') best_scores)).

(** ** Sample data *)

Definition sample_job (id : Z) : Job.t :=
  {| Job.id := id; Job.name := py "Engineer"; Job.detail := py "Builds things";
     Job.enable := true; Job.end_date := 100; Job.experience := py "2 years" |}.

Definition sample_world : world :=
  {| redis := ∅; job_table := [sample_job 1; sample_job 2; sample_job 3];
     db_now := 50; cv_job_matches := []; nli_analysis := []; log := [] |}.

(** An environment that answers the [i]-th evaluation with the [i]-th
    element of [replies]. *)
Definition scripted (replies : list (option str)) (failing : db_op -> bool)
  : env :=
  {| invoke := fun i _ => mjoin (replies !! i);
     db_fails := failing;
     isoformat_now := fun _ => py "2025-01-01T00:00:00" |}.

Definition db_up : db_op -> bool := fun _ => false.
Definition db_down : db_op -> bool := fun _ => true.

Definition sample_cv : str := py "Ten years of Rocq".

(** A world with three persisted matches of CV 42 and one of CV 7. *)
Definition sample_row (cv_id job_id : Z) (score : Q) : Row.t :=
  {| Row.cv_id := cv_id; Row.job_id := job_id; Row.cv_text := sample_cv;
     Row.match_score := Finite score; Row.explanation := PyStr (py "fits") |}.

Definition matched_world : world :=
  {| redis := ∅; job_table := [sample_job 1; sample_job 2; sample_job 3];
     db_now := 50;
     cv_job_matches := [sample_row 42 1 (11 # 20); sample_row 7 1 (9 # 10);
                        sample_row 42 3 (4 # 5); sample_row 42 2 (3 # 5)];
     nli_analysis := []; log := [] |}.

(** A stand-in for the serializer where a concrete one is needed. *)
Definition constant_dumps : pyobj -> str := fun _ => py "[]".

(** Three replies: scores 0.8, 0.3 and 0.55. *)
Definition three_replies : env :=
  scripted [Some (js "{'score': 0.8, 'explanation': 'strong'}");
            Some (js "{'score': 0.3, 'explanation': 'weak'}");
            Some (js "{'score': 0.55, 'explanation': 'fair'}")] db_up.

(** Scores exactly at the three thresholds. *)
Definition boundary_env : env :=
  {| invoke := fun _ p =>
       match p with
       | CvVsJob _ _ => Some (js "{'score': 0.5}")
       | CvVsFilter _ _ => Some (js "{'match_score': 0.6}")
       | JobVsJob _ _ => Some (js "{'score': 0.4}")
       end;
     db_fails := db_up;
     isoformat_now := fun _ => py "2025-01-01T00:00:00" |}.

(** The row [analyze_single_job] inserts for the match it returns. *)
Definition match_row (cv_id : Z) (cv_text : str) (m : JobMatch.t) : Row.t :=
  {| Row.cv_id := cv_id; Row.job_id := JobMatch.job_id m;
     Row.cv_text := cv_text; Row.match_score := JobMatch.match_score m;
     Row.explanation := JobMatch.explanation m |}.

(** The record the evaluation of a pair leaves in the log when it fails:
    the model call raised, the reply could not be parsed, or the insert of
    the match raised. *)
Definition single_job_failure (E : env) (i : nat) (cv_id : Z) (cv_text : str)
  (job : Job.t) : option log_record :=
  let record := error_record (py "Error analyzing job") (Job.id job) in
  match invoke E i (CvVsJob cv_text (Job.detail job)) with
  | None => Some (record OracleError)
  | Some raw_content =>
      match analyze_single_job_parse raw_content with
      | inl e => Some (record e)
      | inr (score, _) =>
          if fge score (Finite (1 # 2))
             && db_fails E (SaveCvJobMatches cv_id (Job.id job))
          then Some (record DatabaseError)
          else None
      end
  end.


(** A job is active: enabled and not expired. *)
Definition is_active (w : world) (j : Job.t) : Prop :=
  (db_now w < Job.end_date j)%Z /\ Job.enable j = true.

(** A stand-in for [str(e)] where a concrete one is needed. *)
Definition constant_str : exn -> str := fun _ => py "error".

(** Only the ASCII digits are decimal digits. *)
Definition ascii_only : N -> option N := fun _ => None.

(** What the evaluations append to a table or to the log, in the order
    [order] completes them, when the [i]-th appends [emit i c]. *)
Definition emitted {C X} (emit : nat -> C -> option X) (candidates : list C)
  (order : list nat) : list X :=
  collected emit candidates order.

(** A database where only the insert of the analysis snapshot fails. *)
Definition snapshot_down : db_op -> bool :=
  fun op =>
    match op with
    | SaveNliAnalysis _ => true
    | _ => false
    end.

(** The three replies of [three_replies] with that database. *)
Definition three_replies_no_snapshot : env :=
  scripted [Some (js "{'score': 0.8, 'explanation': 'strong'}");
            Some (js "{'score': 0.3, 'explanation': 'weak'}");
            Some (js "{'score': 0.55, 'explanation': 'fair'}")] snapshot_down.

(** A reply that is not JSON, a model call that raises, a match whose
    insert fails. *)
Definition three_failures : env :=
  scripted [Some (py "I cannot answer"); None;
            Some (js "{'score': 0.9, 'explanation': 'strong'}")]
    (fun op =>
       match op with
       | SaveCvJobMatches _ _ => true
       | _ => false
       end).

(** A world whose cache holds an analysis of CV 42, under both keys, and
    an entry for the related jobs of job 1 that is not JSON. *)
Definition cached_world : world :=
  set_redis
    (fun m => <[analysis_key 42 := (js "[{'job_id': 1}]", Some 1800%Z)]>
                (<[recommend_key 42 := (js "[{'job_id': 1}]", Some 1800%Z)]>
                   (<[related_key 1 := (py "not json", Some 10800%Z)]> m)))
    sample_world.

(** A database where every operation fails, and a model that never
    answers. *)
Definition all_down : env := scripted [] db_down.

(** [w'] is [w] with records appended to the log and nothing else
    changed. *)
Definition only_logs (w w' : world) : Prop :=
  exists records, w' = set_log (fun l => l ++ records) w.

(** A world whose job 2 is disabled. *)
Definition disabled_world : world :=
  {| redis := ∅;
     job_table := [sample_job 1;
                   {| Job.id := 2; Job.name := py "Engineer";
                      Job.detail := py "Builds things"; Job.enable := false;
                      Job.end_date := 100; Job.experience := py "2 years" |};
                   sample_job 3];
     db_now := 50; cv_job_matches := []; nli_analysis := []; log := [] |}.

(** Replies for the filter: 0.7, 0.9 and a reply without JSON. *)
Definition filter_replies : env :=
  scripted [Some (js "{'match_score': 0.7, 'reason': 'fits'}");
            Some (js "{'match_score': 0.9, 'reason': 'fits well'}");
            Some (py "no idea"); Some (js "{'match_score': 0.2}")] db_up.

(** The criteria of a filter request. *)
Definition filter_dict : pyobj := PyDict [(py "skill", PyStr (py "Rocq"))].

(** The answers of [delete_cache] and [get_cache_ttl]. *)
Definition delete_report (found : bool) : pyobj :=
  if found
  then PyDict [(py "success", PyBool true);
               (py "message", PyStr (py "Cache deleted successfully"))]
  else PyDict [(py "success", PyBool false);
               (py "message", PyStr (py "Key not found"))].

Definition ttl_absent : pyobj :=
  PyDict [(py "ttl", PyNone); (py "exists", PyBool false);
          (py "message", PyStr (py "Key does not exist"))].

Definition ttl_unlimited : pyobj :=
  PyDict [(py "ttl", PyNone); (py "exists", PyBool true);
          (py "message", PyStr (py "Key has no expiration"))].

Definition ttl_seconds (ttl : Z) : pyobj :=
  PyDict [(py "ttl", PyInt ttl); (py "exists", PyBool true);
          (py "message",
           PyStr (py "Key expires in " ++ str_of_int ttl ++ py " seconds"))].

(** [todecimal] is a table of decimal digits: the values are digits, and no
    digit is a space. *)
Definition decimal_table (todecimal : N -> option N) : Prop :=
  forall c d, todecimal c = Some d -> d <= 9 /\ isspace c = false.

(** [sub] occurs in [s]. *)
Definition occurs_in (sub s : str) : Prop :=
  exists before after, s = before ++ sub ++ after.

(** The Arabic-Indic digits only, besides ASCII. *)
Definition arabic_indic : N -> option N :=
  fun c => if in_range 1632 1641 c then Some (c - 1632) else None.

(** The record a comparison of [related_jobs] leaves in the log when it
    fails: the model call raised or the reply could not be parsed. *)
Definition related_job_failure (E : env) (target_text : str) (i : nat)
  (other : Job.t) : option log_record :=
  let record :=
    warning_record (py "Failed comparing with job") (Job.id other) in
  match invoke E i (JobVsJob target_text (job_text other)) with
  | None => Some (record OracleError)
  | Some raw_content =>
      match analyze_job_parse raw_content with
      | inl e => Some (record e)
      | inr _ => None
      end
  end.

(** The record the [i]-th row of [filter_candidates] leaves in the log
    when its evaluation fails: the model call raised, the reply could not
    be parsed, or its score is not a number. *)
Definition candidate_failure (E : env) (filters : pyobj) (i : nat)
  (row : Z * str) : option log_record :=
  let record := error_record (py "Error while processing CV") (fst row) in
  match invoke E i (CvVsFilter filters (snd row)) with
  | None => Some (record OracleError)
  | Some response_text =>
      match filter_candidates_parse response_text with
      | inl e => Some (record e)
      | inr (match_score, _) =>
          match as_num match_score with
          | None => Some (record TypeError)
          | Some _ => None
          end
      end
  end.

(** The records of the rows, in row order, the first row being the [i]-th
    evaluation. *)
Fixpoint candidate_failures (E : env) (filters : pyobj) (i : nat)
  (rows : list (Z * str)) : list log_record :=
  match rows with
  | [] => []
  | row :: rows' =>
      option_list (candidate_failure E filters i row)
      ++ candidate_failures E filters (S i) rows'
  end.

(** Replies for the filter: a score given as a string, a model call that
    raises, an empty reply and a score of 0.9. *)
Definition filter_failures : env :=
  scripted [Some (js "{'match_score': '0.9'}"); None; Some (py "  ");
            Some (js "{'match_score': 0.9}")] db_up.

(** A world without active job: the only job has expired. *)
Definition expired_world : world :=
  {| redis := ∅;
     job_table := [{| Job.id := 1; Job.name := py "Engineer";
                      Job.detail := py "Builds things"; Job.enable := true;
                      Job.end_date := 10; Job.experience := py "2 years" |}];
     db_now := 50; cv_job_matches := []; nli_analysis := []; log := [] |}.

(** ** Tactics *)

Ltac run_monad :=
  unfold try_except, chain_invoke, lift, or_raise, raise,
    save_cv_job_matches, db_access, logger_error, logger_warning,
    modify_world, get_world, mbind, mret, M_bind, M_ret; simpl.

Ltac run_pure :=
  unfold redis_exists, redis_get, redis_set, db_access, lift, or_raise, raise,
    modify_world, get_world, mbind, mret, M_bind, M_ret;
  cbv beta iota zeta.


(** * Properties *)

(** ** The order on floats *)

Section FloatOrder.

Lemma fle_nan_l a b : fle a b = true -> is_nan a = false.
  Proof. destruct a; [reflexivity | reflexivity | discriminate]. Qed.

Lemma fle_nan_r a b : fle a b = true -> is_nan b = false.
  Proof. destruct a as [p|[]|], b as [q|[]|]; simpl; congruence. Qed.

Lemma fle_refl a : is_nan a = false -> fle a a = true.
  Proof.
    destruct a as [q|[]|]; simpl; try congruence; intros _.
    apply Qle_bool_iff, Qle_refl.
  Qed.

Lemma fle_trans a b c : fle a b = true -> fle b c = true -> fle a c = true.
  Proof.
    destruct a as [p|[]|], b as [q|[]|], c as [r|[]|]; simpl;
      try congruence.
    rewrite !Qle_bool_iff. apply Qle_trans.
  Qed.

Lemma fle_total a b :
    is_nan a = false -> is_nan b = false -> fle a b = true \/ fle b a = true.
  Proof.
    destruct a as [p|[]|], b as [q|[]|]; simpl; try congruence; auto.
    intros _ _. rewrite !Qle_bool_iff.
    destruct (Qlt_le_dec p q) as [H|H];
      [left; apply Qlt_le_weak, H | right; exact H].
  Qed.

Lemma flt_false_fle a b :
    is_nan a = false -> is_nan b = false -> flt a b = false -> fle b a = true.
  Proof.
    intros Ha Hb. unfold flt.
    destruct (fle_total a b Ha Hb) as [H|H]; rewrite ?H; simpl.
    - destruct (fle b a); [reflexivity | discriminate].
    - reflexivity.
  Qed.

Lemma flt_true_fle a b : flt a b = true -> fle a b = true.
  Proof. unfold flt. intros [H _]%andb_true_iff. exact H. Qed.

Lemma flt_true_not_fle a b : flt a b = true -> fle b a = false.
  Proof. unfold flt. intros [_ H]%andb_true_iff. now apply negb_true_iff. Qed.

Lemma feq_not_flt a b : feq a b = true -> flt a b = false.
  Proof.
    unfold feq, flt. intros [H1 H2]%andb_true_iff. now rewrite H1, H2.
  Qed.

Lemma feq_sym a b : feq a b = feq b a.
  Proof. unfold feq. apply andb_comm. Qed.

Lemma feq_trans a b c : feq a b = true -> feq b c = true -> feq a c = true.
  Proof.
    unfold feq. intros [H1 H2]%andb_true_iff [H3 H4]%andb_true_iff.
    apply andb_true_iff; split; eapply fle_trans; eassumption.
  Qed.

Lemma fneg_nan a : is_nan (fneg a) = is_nan a.
  Proof. now destruct a. Qed.

Lemma fle_fneg a b : fle (fneg a) (fneg b) = fle b a.
  Proof.
    destruct a as [p|[]|], b as [q|[]|]; simpl; try reflexivity.
    apply eq_true_iff_eq. rewrite !Qle_bool_iff. split; intros H.
    - apply Qopp_le_compat in H. now rewrite !Qopp_involutive in H.
    - now apply Qopp_le_compat.
  Qed.



End FloatOrder.

(** ** The stable sort *)

Section SortFacts.
Context {A : Type} (lt : A -> A -> bool).

Lemma insert_perm x l : Permutation (insert lt x l) (x :: l).
  Proof.
    induction l as [|y l IH]; simpl; [reflexivity|].
    destruct (lt y x); [|reflexivity].
    rewrite IH. apply perm_swap.
  Qed.

Lemma isort_perm l : Permutation (isort lt l) l.
  Proof.
    induction l as [|x l IH]; simpl; [reflexivity|].
    rewrite insert_perm. now constructor.
  Qed.

  (** Elements of one class, none of which is strictly before another, keep
      their order. *)
Lemma insert_filter (p : A -> bool) x l :
    (forall y, p x = true -> p y = true -> lt y x = false) ->
    List.filter p (insert lt x l) = List.filter p (x :: l).
  Proof.
    intros Hp. induction l as [|y l IH]; [reflexivity|].
    simpl. destruct (lt y x) eqn:Hyx; [|reflexivity].
    simpl in *. rewrite IH.
    destruct (p x) eqn:Hx, (p y) eqn:Hy; try reflexivity.
    rewrite (Hp y eq_refl Hy) in Hyx. discriminate.
  Qed.

Lemma isort_stable (p : A -> bool) l :
    (forall x y, p x = true -> p y = true -> lt y x = false) ->
    List.filter p (isort lt l) = List.filter p l.
  Proof.
    intros Hp. induction l as [|x l IH]; [reflexivity|].
    simpl isort. rewrite insert_filter by (intros; now apply Hp).
    simpl. now rewrite IH.
  Qed.

  (** Sortedness, on a domain [P] where [lt] is the strict part of a total
      preorder. *)
Variable P : A -> Prop.
Hypothesis lt_asym : forall a b, P a -> P b -> lt a b = true -> lt b a = false.
Hypothesis le_trans : forall a b c, P a -> P b -> P c ->
    lt b a = false -> lt c b = false -> lt c a = false.

Lemma insert_sorted x l :
    P x -> Forall P l ->
    StronglySorted (fun a b => lt b a = false) l ->
    StronglySorted (fun a b => lt b a = false) (insert lt x l).
  Proof.
    intros Hx HP HS. induction HS as [|y l HS IH Hy]; simpl.
    - repeat constructor.
    - inversion HP as [|? ? HPy HPl]; subst.
      destruct (lt y x) eqn:Hyx.
      + constructor; [now apply IH|].
        eapply Permutation_Forall; [symmetry; apply insert_perm|].
        constructor; [now apply lt_asym | exact Hy].
      + constructor; [now constructor|].
        constructor; [exact Hyx|].
        rewrite Forall_forall in Hy, HPl |- *. intros z Hz.
        apply (le_trans x y z); auto.
  Qed.

Lemma isort_sorted l :
    Forall P l -> StronglySorted (fun a b => lt b a = false) (isort lt l).
  Proof.
    induction 1 as [|x l Hx Hl IH]; simpl; [constructor|].
    apply insert_sorted; auto.
    eapply Permutation_Forall; [symmetry; apply isort_perm | exact Hl].
  Qed.

End SortFacts.

Lemma StronglySorted_snoc {A} (R : A -> A -> Prop) l x :
  StronglySorted R l -> Forall (fun y => R y x) l ->
  StronglySorted R (l ++ [x]).
Proof.
  induction 1 as [|y l HS IH Hy]; intros Hx; simpl.
  - repeat constructor.
  - inversion Hx; subst. constructor; [now apply IH|].
    apply Forall_app; split; [exact Hy | now repeat constructor].
Qed.

Lemma StronglySorted_rev {A} (R : A -> A -> Prop) l :
  StronglySorted R l -> StronglySorted (fun a b => R b a) (rev l).
Proof.
  induction 1 as [|y l HS IH Hy]; simpl; [constructor|].
  apply StronglySorted_snoc; [exact IH|].
  apply Forall_rev. exact Hy.
Qed.

Lemma StronglySorted_weaken {A} (R R' : A -> A -> Prop) (P : A -> Prop) l :
  (forall a b, P a -> P b -> R a b -> R' a b) ->
  Forall P l -> StronglySorted R l -> StronglySorted R' l.
Proof.
  intros HR HP HS. induction HS as [|y l HS IH Hy]; [constructor|].
  inversion HP; subst. constructor; [now apply IH|].
  rewrite Forall_forall in *. intros z Hz. apply HR; auto.
Qed.

(** [sorted] with [reverse=True]: a permutation, non-increasing in the key,
    elements with equal keys in their original order. *)
Section SortedFacts.
Context {A : Type} (key : A -> pyfloat).

Lemma sorted_perm reverse l : Permutation (sorted key reverse l) l.
  Proof.
    unfold sorted. destruct reverse.
    - rewrite <- Permutation_rev, isort_perm. symmetry. apply Permutation_rev.
    - apply isort_perm.
  Qed.

Lemma isort_key_ascending l :
    no_nan_keys key l ->
    StronglySorted (fun a b => fle (key a) (key b) = true)
      (isort (fun a b => flt (key a) (key b)) l).
  Proof.
    intros Hl.
    eapply (StronglySorted_weaken _ _ (fun x => is_nan (key x) = false)).
    - intros a b Ha Hb H. apply flt_false_fle; [exact Hb | exact Ha | exact H].
    - eapply Permutation_Forall; [symmetry; apply isort_perm | exact Hl].
    - apply (isort_sorted _ (fun x => is_nan (key x) = false)); [| |exact Hl].
      + intros a b _ _ H. apply flt_true_not_fle in H.
        unfold flt. now rewrite H.
      + intros a b c Ha Hb Hc H1 H2.
        apply flt_false_fle in H1; [|assumption..].
        apply flt_false_fle in H2; [|assumption..].
        unfold flt. rewrite (fle_trans _ _ _ H1 H2). apply andb_false_r.
  Qed.

Lemma sorted_reverse_descending l :
    no_nan_keys key l -> descending key (sorted key true l).
  Proof.
    intros Hl. unfold sorted, descending.
    apply (StronglySorted_rev (fun a b => fle (key a) (key b) = true)).
    apply isort_key_ascending. apply Forall_rev. exact Hl.
  Qed.

Lemma sorted_stable reverse s l :
    List.filter (fun x => feq (key x) s) (sorted key reverse l)
    = List.filter (fun x => feq (key x) s) l.
  Proof.
    assert (Hcls : forall x y, feq (key x) s = true -> feq (key y) s = true ->
                               flt (key y) (key x) = false).
    { intros x y Hx Hy. apply feq_not_flt.
      eapply feq_trans; [exact Hy|]. now rewrite feq_sym. }
    unfold sorted. destruct reverse.
    - rewrite filter_rev, (isort_stable _ _ _ Hcls), filter_rev.
      apply rev_involutive.
    - apply (isort_stable _ _ _ Hcls).
  Qed.

End SortedFacts.

(** ** Running the evaluators *)

#[global] Arguments fge : simpl never.
#[global] Arguments fle : simpl never.
#[global] Arguments flt : simpl never.
#[global] Arguments fgt : simpl never.
#[global] Arguments py : simpl never.
#[global] Arguments str_of_int : simpl never.

Section Runs.
Variable E : env.

Lemma analyze_single_job_run i cv_id cv_text job w :
  analyze_single_job E i cv_id cv_text job w =
  match invoke E i (CvVsJob cv_text (Job.detail job)) with
  | None =>
      (inr None,
       set_log (fun l => l ++ [error_record (py "Error analyzing job")
                                 (Job.id job) OracleError]) w)
  | Some raw_content =>
      match analyze_single_job_parse raw_content with
      | inl e =>
          (inr None,
           set_log (fun l => l ++ [error_record (py "Error analyzing job")
                                     (Job.id job) e]) w)
      | inr (score, explanation) =>
          if fge score (Finite (1 # 2)) then
            if db_fails E (SaveCvJobMatches cv_id (Job.id job)) then
              (inr None,
               set_log (fun l => l ++ [error_record (py "Error analyzing job")
                                         (Job.id job) DatabaseError]) w)
            else
              (inr (Some {| JobMatch.job_id := Job.id job;
                            JobMatch.match_score := score;
                            JobMatch.explanation := explanation;
                            JobMatch.created_at := isoformat_now E i |}),
               set_cv_job_matches
                 (fun t => t ++ [{| Row.cv_id := cv_id;
                                    Row.job_id := Job.id job;
                                    Row.cv_text := cv_text;
                                    Row.match_score := score;
                                    Row.explanation := explanation |}]) w)
          else (inr None, w)
      end
  end.
Proof.
  unfold analyze_single_job. run_monad.
  destruct (invoke E i _) as [raw|]; [|reflexivity].
  destruct (analyze_single_job_parse raw) as [e|[score explanation]];
    [reflexivity|].
  destruct (fge score (Finite (1 # 2))); [|reflexivity].
  simpl.
  destruct (db_fails E (SaveCvJobMatches cv_id (Job.id job))); reflexivity.
Qed.

End Runs.


Lemma evaluation_frame_refl w : evaluation_frame w w.
Proof. now repeat split. Qed.

Lemma evaluation_frame_trans a b c :
  evaluation_frame a b -> evaluation_frame b c -> evaluation_frame a c.
Proof. unfold evaluation_frame. intuition congruence. Qed.

Lemma length_omap_le {A B} (f : A -> option B) l :
  (length (omap f l) <= length l)%nat.
Proof.
  induction l as [|x l IH]; [reflexivity|].
  change (omap f (x :: l)) with (match f x with
                                 | Some y => y :: omap f l
                                 | None => omap f l
                                 end).
  destruct (f x); simpl length; lia.
Qed.

Section AsCompleted.
Context {C R : Type} (task : nat -> C -> M (option R))
  (outcome : nat -> C -> option R) (candidates : list C).
Hypothesis task_run : forall i c w,
  exists w', task i c w = (inr (outcome i c), w') /\ evaluation_frame w w'.

Lemma collected_cons i order :
  collected outcome candidates (i :: order)
  = match candidates !! i ≫= outcome i with
    | Some r => r :: collected outcome candidates order
    | None => collected outcome candidates order
    end.
Proof. reflexivity. Qed.

Lemma as_completed_run order results w :
  exists w',
    as_completed (imap task candidates) order results w
    = (inr (results ++ collected outcome candidates order), w')
    /\ evaluation_frame w w'.
Proof.
  revert results w. induction order as [|i order IH]; intros results w.
  - exists w. simpl. rewrite app_nil_r. split; [reflexivity|].
    apply evaluation_frame_refl.
  - rewrite collected_cons. simpl as_completed. rewrite list_lookup_imap.
    unfold mbind at 1, M_bind.
    destruct (candidates !! i) as [c|] eqn:Hc; simpl.
    + destruct (task_run i c w) as (w1 & -> & F1).
      destruct (IH (match outcome i c with
                    | Some r => results ++ [r]
                    | None => results
                    end) w1) as (w2 & -> & F2).
      exists w2. split; [|eapply evaluation_frame_trans; eassumption].
      destruct (outcome i c); simpl; [now rewrite <- app_assoc | reflexivity].
    + destruct (IH results w) as (w2 & -> & F2).
      exists w2. split; [reflexivity | exact F2].
Qed.

End AsCompleted.

Section FanOut.
Variable E : env.

Lemma analyze_single_job_outcome i cv_id cv_text job w :
  exists w',
    analyze_single_job E i cv_id cv_text job w
    = (inr (single_job_outcome E i cv_id cv_text job), w')
    /\ evaluation_frame w w'.
Proof.
  rewrite analyze_single_job_run. unfold single_job_outcome.
  destruct (invoke E i _) as [raw|];
    [|eexists; split; [reflexivity | now repeat split]].
  destruct (analyze_single_job_parse raw) as [e|[score explanation]];
    [eexists; split; [reflexivity | now repeat split]|].
  destruct (fge score (Finite (1 # 2))); simpl;
    [|eexists; split; [reflexivity | now repeat split]].
  destruct (db_fails E (SaveCvJobMatches cv_id (Job.id job))); simpl;
    eexists; (split; [reflexivity | now repeat split]).
Qed.

Lemma analyze_cv_fan_out_run order cv_text cv_id jobs w :
  exists w',
    analyze_cv_fan_out E order cv_text cv_id jobs w
    = (inr (collected (fun i => single_job_outcome E i cv_id cv_text)
              jobs order), w')
    /\ evaluation_frame w w'.
Proof.
  unfold analyze_cv_fan_out.
  apply (as_completed_run
           (fun i job => analyze_single_job E i cv_id cv_text job)
           (fun i => single_job_outcome E i cv_id cv_text) jobs).
  intros i c w0. apply analyze_single_job_outcome.
Qed.

End FanOut.

(** ** C1: what the fan-out returns *)

(** C1, counterexample.  One job is submitted and the model scores it 0.3:
    the fan-out returns no outcome at all for the pair, where the claim
    promises one (a Rejected outcome). *)
Lemma C1_rejected_pair_is_dropped :
  fst (analyze_cv_fan_out
         (scripted [Some (js "{'score': 0.3, 'explanation': 'weak'}")] db_up)
         [0%nat] sample_cv 42 [sample_job 1] sample_world)
  = inr []
  /\ length ([] : list JobMatch.t) <> length [sample_job 1].
Proof. split; [vm_compute; reflexivity | discriminate]. Qed.

(** C1, amended.  For every candidate set, of any size, and every completion
    order, the fan-out evaluates every pair and returns normally; the
    collected list holds exactly the Matches, one per pair whose evaluation
    returned one, in completion order.  It has at most N entries (none for
    N = 0); a pair that is rejected or fails evaluates to [None] and
    contributes nothing. *)
Theorem C1_fan_out_collects_the_matches (E : env) (order : list nat)
  (cv_text : str) (cv_id : Z) (jobs : list Job.t) (w : world) :
  Permutation order (seq 0 (length jobs)) ->
  let outcome := fun i => single_job_outcome E i cv_id cv_text in
  exists results w',
    analyze_cv_fan_out E order cv_text cv_id jobs w = (inr results, w')
    /\ results = collected outcome jobs order
    /\ Permutation results (collected outcome jobs (seq 0 (length jobs)))
    /\ (length results <= length jobs)%nat
    /\ (forall m, m ∈ results <->
                  exists i job, jobs !! i = Some job /\ outcome i job = Some m)
    /\ (forall i job w0,
          fst (analyze_single_job E i cv_id cv_text job w0)
          = inr (outcome i job)).
Proof.
  intros Horder outcome.
  destruct (analyze_cv_fan_out_run E order cv_text cv_id jobs w)
    as (w' & Hrun & _).
  exists (collected outcome jobs order), w'.
  assert (Hperm : Permutation (collected outcome jobs order)
                    (collected outcome jobs (seq 0 (length jobs)))).
  { unfold collected. now rewrite Horder. }
  split; [exact Hrun|]. split; [reflexivity|]. split; [exact Hperm|].
  split; [|split].
  - unfold collected. etransitivity; [apply length_omap_le|].
    rewrite (Permutation_length Horder). now rewrite length_seq.
  - intros m. rewrite Hperm. unfold collected. rewrite list_elem_of_omap.
    split.
    + intros (i & _ & Hi). apply bind_Some in Hi as (job & Hjob & Hout).
      now exists i, job.
    + intros (i & job & Hjob & Hout). exists i. split.
      * apply elem_of_seq. apply lookup_lt_Some in Hjob. lia.
      * now rewrite Hjob.
  - intros i job w0.
    destruct (analyze_single_job_outcome E i cv_id cv_text job w0)
      as (w1 & -> & _).
    reflexivity.
Qed.

(** C1, witness: three jobs completing in the order 2, 0, 1. *)
Lemma C1_witness :
  Permutation [2; 0; 1]%nat (seq 0 (length (job_table sample_world)))
  /\ exists results w',
       analyze_cv_fan_out
         (scripted [Some (js "{'score': 0.8}"); Some (js "{'score': 0.3}");
                    Some (js "{'score': 0.55}")] db_up)
         [2; 0; 1]%nat sample_cv 42 (job_table sample_world) sample_world
       = (inr results, w')
       /\ (length results <= 3)%nat.
Proof.
  assert (H : Permutation [2; 0; 1]%nat
                (seq 0 (length (job_table sample_world)))).
  { simpl. transitivity [0; 2; 1]%nat;
      [apply perm_swap | apply perm_skip, perm_swap]. }
  split; [exact H|].
  destruct (C1_fan_out_collects_the_matches
              (scripted [Some (js "{'score': 0.8}"); Some (js "{'score': 0.3}");
                         Some (js "{'score': 0.55}")] db_up)
              [2; 0; 1]%nat sample_cv 42 (job_table sample_world)
              sample_world H)
    as (results & w' & Hrun & _ & _ & Hlen & _).
  exists results, w'. split; [exact Hrun | exact Hlen].
Defined.

(** ** C2: a failing persistence write *)

(** C2, counterexample.  The model scores the pair 0.8 and the insert into
    [cv_job_matches] fails: the evaluator returns [None], not the Match. *)
Lemma C2_persistence_failure_loses_the_match :
  analyze_single_job_parse (js "{'score': 0.8, 'explanation': 'strong'}")
  = inr (Finite (4 # 5), PyStr (py "strong"))
  /\ fge (Finite (4 # 5)) (Finite (1 # 2)) = true
  /\ fst (analyze_single_job
            (scripted [Some (js "{'score': 0.8, 'explanation': 'strong'}")]
               db_down)
            0 42 sample_cv (sample_job 1) sample_world)
     = inr None.
Proof. repeat split; vm_compute; reflexivity. Qed.

(** C2, amended.  For every pair whose parsed score is at or above the
    threshold the evaluator attempts the persistence write.  When the write
    fails, the failure is logged as an error for that job and is not raised,
    and the evaluator returns [None] for the pair; when it succeeds, the row
    is appended and the Match is returned. *)
Theorem C2_persistence_failure_is_logged_and_drops_the_match (E : env)
  (i : nat) (cv_id : Z) (cv_text : str) (job : Job.t) (w : world)
  (raw_content : str) (score : pyfloat) (explanation : pyobj) :
  invoke E i (CvVsJob cv_text (Job.detail job)) = Some raw_content ->
  analyze_single_job_parse raw_content = inr (score, explanation) ->
  fge score (Finite (1 # 2)) = true ->
  analyze_single_job E i cv_id cv_text job w =
  if db_fails E (SaveCvJobMatches cv_id (Job.id job))
  then (inr None,
        set_log (fun l => l ++ [error_record (py "Error analyzing job")
                                  (Job.id job) DatabaseError]) w)
  else (inr (Some {| JobMatch.job_id := Job.id job;
                     JobMatch.match_score := score;
                     JobMatch.explanation := explanation;
                     JobMatch.created_at := isoformat_now E i |}),
        set_cv_job_matches
          (fun t => t ++ [{| Row.cv_id := cv_id; Row.job_id := Job.id job;
                             Row.cv_text := cv_text; Row.match_score := score;
                             Row.explanation := explanation |}]) w).
Proof.
  intros Hreply Hparse Hscore.
  rewrite analyze_single_job_run, Hreply, Hparse, Hscore. reflexivity.
Qed.

(** C2, witness: the score is 0.8 and the insert fails. *)
Lemma C2_witness :
  analyze_single_job
    (scripted [Some (js "{'score': 0.8, 'explanation': 'strong'}")] db_down)
    0 42 sample_cv (sample_job 1) sample_world
  = (inr None,
     set_log (fun l => l ++ [error_record (py "Error analyzing job") 1
                               DatabaseError]) sample_world).
Proof.
  apply (C2_persistence_failure_is_logged_and_drops_the_match
           (scripted [Some (js "{'score': 0.8, 'explanation': 'strong'}")]
              db_down)
           0 42 sample_cv (sample_job 1) sample_world
           (js "{'score': 0.8, 'explanation': 'strong'}")
           (Finite (4 # 5)) (PyStr (py "strong")));
    vm_compute; reflexivity.
Defined.

(** ** Decoding a span that starts with a brace *)




(** ** The fuel of the decoder is enough *)

Lemma lstrip_by_length p s : (length (lstrip_by p s) <= length s)%nat.
Proof.
  induction s as [|c s IH]; simpl; [lia|]. destruct (p c); simpl; lia.
Qed.

Lemma skip_ws_length s : (length (skip_ws s) <= length s)%nat.
Proof. apply lstrip_by_length. Qed.

Lemma skip_ws_cons s c t :
  skip_ws s = c :: t -> (S (length t) <= length s)%nat.
Proof.
  intros H. pose proof (skip_ws_length s) as L. rewrite H in L. exact L.
Qed.

Lemma span_digits_length s ds rest :
  span_digits s = (ds, rest) -> (length rest <= length s)%nat.
Proof.
  revert ds rest. induction s as [|c s IH]; intros ds rest; simpl.
  - intros [= <- <-]. simpl. lia.
  - destruct (is_digit c).
    + destruct (span_digits s) as [ds' rest'] eqn:Hs.
      intros [= <- <-]. specialize (IH _ _ eq_refl). lia.
    + intros [= <- <-]. simpl. lia.
Qed.

Lemma scanstring_length n s acc k rest :
  (length s <= n)%nat ->
  scanstring s acc = Some (k, rest) -> (S (length rest) <= length s)%nat.
Proof.
  revert s acc. induction n as [|n IH]; intros s acc Hn.
  - destruct s; [discriminate | simpl in Hn; lia].
  - destruct s as [|c s1]; [discriminate|]. simpl in Hn.
    cbn [scanstring].
    destruct (c =? quote); [intros [= <- <-]; simpl; lia|].
    destruct (c =? backslash).
    + destruct s1 as [|e s2]; [discriminate|]. simpl in Hn.
      destruct (e =? ch "u").
      * destruct s2 as [|h1 [|h2 [|h3 [|h4 s3]]]]; try discriminate.
        simpl in Hn.
        destruct (hex4 h1 h2 h3 h4) as [u|]; [|discriminate].
        destruct s3 as [|b [|e' [|l1 [|l2 [|l3 [|l4 s4]]]]]];
          try (intros H; apply IH in H; simpl in *; lia).
        destruct (is_high_surrogate u && (b =? backslash) && (e' =? ch "u")).
        -- destruct (hex4 l1 l2 l3 l4) as [u2|]; [|discriminate].
           destruct (is_low_surrogate u2);
             intros H; apply IH in H; simpl in *; lia.
        -- intros H; apply IH in H; simpl in *; lia.
      * destruct (unescape e); [|discriminate].
        intros H; apply IH in H; simpl in *; lia.
    + destruct (c <=? 31); [discriminate|].
      intros H; apply IH in H; simpl in *; lia.
Qed.

Lemma match_frac_length s f rest :
  match_frac s = (f, rest) -> (length rest <= length s)%nat.
Proof.
  unfold match_frac. destruct s as [|dot [|d s']]; try (intros [= <- <-]; lia).
  destruct ((dot =? ch ".") && is_digit d); [|intros [= <- <-]; lia].
  destruct (span_digits (d :: s')) as [ds r] eqn:Hs.
  intros [= <- <-]. apply span_digits_length in Hs. simpl in *. lia.
Qed.

Lemma match_exp_length s e rest :
  match_exp s = (e, rest) -> (length rest <= length s)%nat.
Proof.
  unfold match_exp. destruct s as [|c s1]; [intros [= <- <-]; lia|].
  destruct ((c =? ch "e") || (c =? ch "E")); [|intros [= <- <-]; lia].
  assert (H : forall neg s2, (length s2 <= length s1)%nat ->
            (let (negative, s2) := (neg : bool, s2) in
             match span_digits s2 with
             | ([], _) => (None, c :: s1)
             | (ds, rest) =>
                 (Some (if negative then (- digits_to_Z ds)%Z
                        else digits_to_Z ds), rest)
             end) = (e, rest) -> (length rest <= length (c :: s1))%nat).
  { intros neg s2 L. cbv beta iota.
    destruct (span_digits s2) as [[|d ds] r] eqn:Hs.
    - intros [= <- <-]. lia.
    - intros [= <- <-]. apply span_digits_length in Hs. simpl. lia. }
  destruct s1 as [|sg s2]; [apply (H false []); simpl; lia|].
  destruct (sg =? ch "-"); [apply (H true s2); simpl; lia|].
  destruct (sg =? ch "+"); [apply (H false s2); simpl; lia|].
  apply (H false (sg :: s2)); lia.
Qed.

Lemma match_number_length s v rest :
  match_number s = Some (v, rest) -> (length rest <= length s)%nat.
Proof.
  unfold match_number.
  assert (H : forall neg s1, (length s1 <= length s)%nat ->
            (let (negative, s1) := (neg : bool, s1) in
             match match s1 with
                   | c :: s' =>
                       if c =? ch "0" then Some ([c], s')
                       else if is_digit c then Some (span_digits s1)
                       else None
                   | [] => None
                   end with
             | None => None
             | Some (ints, s2) =>
                 let (frac, s3) := match_frac s2 in
                 let (exp, s4) := match_exp s3 in
                 match frac, exp with
                 | None, None =>
                     let z := digits_to_Z ints in
                     Some (PyInt (if negative then (- z)%Z else z), s4)
                 | _, _ =>
                     Some (PyFloat (mk_float (decimal_value negative ints
                                                (default [] frac)
                                                (default 0%Z exp))), s4)
                 end
             end) = Some (v, rest) -> (length rest <= length s)%nat).
  { intros neg s1 L. cbv beta iota.
    assert (Hint : forall ints s2,
               match s1 with
               | c :: s' =>
                   if c =? ch "0" then Some ([c], s')
                   else if is_digit c then Some (span_digits s1)
                   else None
               | [] => None
               end = Some (ints, s2) -> (length s2 <= length s1)%nat).
    { intros ints s2. destruct s1 as [|c s']; [discriminate|].
      destruct (c =? ch "0"); [intros [= <- <-]; simpl; lia|].
      destruct (is_digit c); [|discriminate].
      intros H.
      assert (Hs : span_digits (c :: s') = (ints, s2)) by congruence.
      now apply span_digits_length in Hs. }
    destruct (match s1 with [] => None | _ => _ end) as [[ints s2]|];
      [|discriminate].
    specialize (Hint _ _ eq_refl).
    destruct (match_frac s2) as [frac s3] eqn:Hf.
    destruct (match_exp s3) as [exp s4] eqn:He.
    apply match_frac_length in Hf. apply match_exp_length in He.
    destruct frac, exp; intros [= <- <-]; lia. }
  destruct s as [|c s']; [apply (H false []); simpl; lia|].
  destruct (c =? ch "-"); [apply (H true s'); simpl; lia|].
  apply (H false (c :: s')); lia.
Qed.

Lemma skipn_length_le {A} n (l : list A) : (length (skipn n l) <= length l)%nat.
Proof. rewrite length_skipn. lia. Qed.

(** What the scanner returns as the rest is no longer than its input. *)
Lemma scan_length fuel :
  (forall s v rest, scan_once fuel s = Some (v, rest) ->
                    (length rest <= length s)%nat)
  /\ (forall s pairs v rest, object_items fuel s pairs = Some (v, rest) ->
                             (length rest <= length s)%nat)
  /\ (forall s values v rest, array_items fuel s values = Some (v, rest) ->
                              (length rest <= length s)%nat).
Proof.
  induction fuel as [|fuel (IHs & IHo & IHa)];
    [repeat split; intros; discriminate|].
  split; [|split].
  - intros s v rest. cbn [scan_once].
    destruct s as [|c s1]; [discriminate|].
    destruct (c =? quote).
    { destruct (scanstring s1 []) as [[x r]|] eqn:Hs; [|discriminate].
      intros [= <- <-]. apply (scanstring_length _ _ _ _ _ (le_n _)) in Hs.
      simpl. lia. }
    destruct (c =? lbrace).
    { destruct (skip_ws s1) as [|c2 s2] eqn:Hw; [discriminate|].
      apply skip_ws_cons in Hw.
      destruct (c2 =? rbrace); [intros [= <- <-]; simpl; lia|].
      destruct (c2 =? quote); [|discriminate].
      intros H. apply IHo in H. simpl. lia. }
    destruct (c =? ch "[").
    { destruct (skip_ws s1) as [|c2 s2] eqn:Hw; [discriminate|].
      pose proof (skip_ws_length s1) as L. rewrite Hw in L.
      destruct (c2 =? ch "]"); [intros [= <- <-]; simpl in *; lia|].
      intros H. apply IHa in H. simpl in *. lia. }
    destruct (startswith (c :: s1) (py "null"));
      [intros [= <- <-]; rewrite length_skipn; simpl; lia|].
    destruct (startswith (c :: s1) (py "true"));
      [intros [= <- <-]; rewrite length_skipn; simpl; lia|].
    destruct (startswith (c :: s1) (py "false"));
      [intros [= <- <-]; rewrite length_skipn; simpl; lia|].
    destruct (match_number (c :: s1)) as [[v' r]|] eqn:Hn.
    { intros [= <- <-]. now apply match_number_length in Hn. }
    destruct (startswith (c :: s1) (py "NaN"));
      [intros [= <- <-]; rewrite length_skipn; simpl; lia|].
    destruct (startswith (c :: s1) (py "Infinity"));
      [intros [= <- <-]; rewrite length_skipn; simpl; lia|].
    destruct (startswith (c :: s1) (py "-Infinity"));
      [intros [= <- <-]; rewrite length_skipn; simpl; lia | discriminate].
  - intros s pairs v rest. cbn [object_items].
    destruct (scanstring s []) as [[key s1]|] eqn:Hs; [|discriminate].
    apply (scanstring_length _ _ _ _ _ (le_n _)) in Hs.
    destruct (skip_ws s1) as [|c s2] eqn:Hw; [discriminate|].
    apply skip_ws_cons in Hw.
    destruct (c =? ch ":"); [|discriminate].
    destruct (scan_once fuel (skip_ws s2)) as [[value s3]|] eqn:Hv;
      [|discriminate].
    apply IHs in Hv. pose proof (skip_ws_length s2) as L2.
    destruct (skip_ws s3) as [|c3 s4] eqn:Hw3; [discriminate|].
    apply skip_ws_cons in Hw3.
    destruct (c3 =? rbrace); [intros [= <- <-]; lia|].
    destruct (c3 =? ch ","); [|discriminate].
    destruct (skip_ws s4) as [|c5 s5] eqn:Hw5; [discriminate|].
    apply skip_ws_cons in Hw5.
    destruct (c5 =? quote); [|discriminate].
    intros H. apply IHo in H. lia.
  - intros s values v rest. cbn [array_items].
    destruct (scan_once fuel s) as [[value s1]|] eqn:Hv; [|discriminate].
    apply IHs in Hv.
    destruct (skip_ws s1) as [|c s2] eqn:Hw; [discriminate|].
    apply skip_ws_cons in Hw.
    destruct (c =? ch "]"); [intros [= <- <-]; lia|].
    destruct (c =? ch ","); [|discriminate].
    intros H. apply IHa in H. pose proof (skip_ws_length s2). lia.
Qed.

(** Beyond twice the length of the input, more fuel changes nothing. *)
Lemma scan_fuel fuel :
  (forall s, (2 * length s <= fuel)%nat ->
             scan_once (S fuel) s = scan_once fuel s)
  /\ (forall s pairs, (2 * length s <= fuel)%nat ->
                      object_items (S fuel) s pairs
                      = object_items fuel s pairs)
  /\ (forall s values, (2 * length s + 1 <= fuel)%nat ->
                       array_items (S fuel) s values
                       = array_items fuel s values).
Proof.
  induction fuel as [|fuel (IHs & IHo & IHa)].
  - split; [|split].
    + intros [|c s] L; [reflexivity | simpl in L; lia].
    + intros [|c s] pairs L; [reflexivity | simpl in L; lia].
    + intros s values L. lia.
  - split; [|split].
    + intros s L. cbn [scan_once].
      destruct s as [|c s1]; [reflexivity|]. simpl in L.
      destruct (c =? quote); [reflexivity|].
      destruct (c =? lbrace).
      { destruct (skip_ws s1) as [|c2 s2] eqn:Hw; [reflexivity|].
        apply skip_ws_cons in Hw.
        destruct (c2 =? rbrace); [reflexivity|].
        destruct (c2 =? quote); [|reflexivity].
        apply IHo. lia. }
      destruct (c =? ch "[").
      { destruct (skip_ws s1) as [|c2 s2] eqn:Hw; [reflexivity|].
        pose proof (skip_ws_length s1) as Lw. rewrite Hw in Lw.
        destruct (c2 =? ch "]"); [reflexivity|].
        apply IHa. simpl in *. lia. }
      reflexivity.
    + intros s pairs L. cbn [object_items].
      destruct (scanstring s []) as [[key s1]|] eqn:Hs; [|reflexivity].
      apply (scanstring_length _ _ _ _ _ (le_n _)) in Hs.
      destruct (skip_ws s1) as [|c s2] eqn:Hw; [reflexivity|].
      apply skip_ws_cons in Hw.
      destruct (c =? ch ":"); [|reflexivity].
      pose proof (skip_ws_length s2) as L2.
      rewrite IHs by lia.
      destruct (scan_once fuel (skip_ws s2)) as [[value s3]|] eqn:Hv;
        [|reflexivity].
      apply (proj1 (scan_length fuel)) in Hv.
      destruct (skip_ws s3) as [|c3 s4] eqn:Hw3; [reflexivity|].
      apply skip_ws_cons in Hw3.
      destruct (c3 =? rbrace); [reflexivity|].
      destruct (c3 =? ch ","); [|reflexivity].
      destruct (skip_ws s4) as [|c5 s5] eqn:Hw5; [reflexivity|].
      apply skip_ws_cons in Hw5.
      destruct (c5 =? quote); [|reflexivity].
      apply IHo. lia.
    + intros s values L. cbn [array_items].
      rewrite IHs by lia.
      destruct (scan_once fuel s) as [[value s1]|] eqn:Hv; [|reflexivity].
      apply (proj1 (scan_length fuel)) in Hv.
      destruct (skip_ws s1) as [|c s2] eqn:Hw; [reflexivity|].
      apply skip_ws_cons in Hw.
      destruct (c =? ch "]"); [reflexivity|].
      destruct (c =? ch ","); [|reflexivity].
      apply IHa. pose proof (skip_ws_length s2). lia.
Qed.

Lemma scan_once_enough_fuel s extra :
  scan_once (2 * length s + extra) s = scan_once (2 * length s) s.
Proof.
  induction extra as [|extra IH]; [now rewrite Nat.add_0_r|].
  rewrite Nat.add_succ_r, <- IH. apply (proj1 (scan_fuel _)). lia.
Qed.

(** [json_loads] is the scanner's answer with any larger fuel. *)
Lemma json_loads_enough_fuel s extra :
  match scan_once (2 * length s + 2 + extra) (skip_ws s) with
  | Some (v, rest) =>
      match skip_ws rest with
      | [] => Some v
      | _ :: _ => None
      end
  | None => None
  end = json_loads s.
Proof.
  unfold json_loads. pose proof (skip_ws_length s) as L.
  replace (2 * length s + 2 + extra)%nat
    with (2 * length (skip_ws s)
          + (2 * (length s - length (skip_ws s)) + 2 + extra))%nat by lia.
  replace (2 * length s + 2)%nat
    with (2 * length (skip_ws s)
          + (2 * (length s - length (skip_ws s)) + 2))%nat by lia.
  now rewrite !scan_once_enough_fuel.
Qed.

(** ** Stripping and searching *)

Section Strings.












End Strings.

(** ** C3: a reply without a score *)




(** ** C6: cleaning the reply *)







(** ** C5: the thresholds *)

Section Thresholds.
Variable E : env.

Lemma analyze_job_run target_text i other w :
  analyze_job E target_text i other w =
  match invoke E i (JobVsJob target_text (job_text other)) with
  | None =>
      (inr None,
       set_log (fun l => l ++ [warning_record (py "Failed comparing with job")
                                 (Job.id other) OracleError]) w)
  | Some raw_content =>
      match analyze_job_parse raw_content with
      | inl e =>
          (inr None,
           set_log (fun l => l ++ [warning_record
                                     (py "Failed comparing with job")
                                     (Job.id other) e]) w)
      | inr (score, explanation) =>
          if fge score (Finite (2 # 5)) then
            (inr (Some {| Related.jobId := Job.id other;
                          Related.score := round3 score;
                          Related.explanation := explanation |}), w)
          else (inr None, w)
      end
  end.
Proof.
  unfold analyze_job. run_monad.
  destruct (invoke E i _) as [raw|]; [|reflexivity].
  destruct (analyze_job_parse raw) as [e|[score explanation]]; [reflexivity|].
  destruct (fge score (Finite (2 # 5))); reflexivity.
Qed.

Lemma filter_candidates_step_run filters i cv_id cv_text best_scores w :
  filter_candidates_step E filters i (cv_id, cv_text) best_scores w =
  match invoke E i (CvVsFilter filters cv_text) with
  | None =>
      (inr best_scores,
       set_log (fun l => l ++ [error_record (py "Error while processing CV")
                                 cv_id OracleError]) w)
  | Some response_text =>
      match filter_candidates_parse response_text with
      | inl e =>
          (inr best_scores,
           set_log (fun l => l ++ [error_record
                                     (py "Error while processing CV")
                                     cv_id e]) w)
      | inr (match_score, reason) =>
          match as_num match_score with
          | None =>
              (inr best_scores,
               set_log (fun l => l ++ [error_record
                                         (py "Error while processing CV")
                                         cv_id TypeError]) w)
          | Some n =>
              if fge (num_val n) (Finite (3 # 5)) then
                (inr (keep_best {| Candidate.cv_id := cv_id;
                                   Candidate.match_score := n;
                                   Candidate.reason := reason |} best_scores),
                 w)
              else (inr best_scores, w)
          end
      end
  end.
Proof.
  unfold filter_candidates_step. run_monad.
  destruct (invoke E i _) as [raw|]; [|reflexivity].
  destruct (filter_candidates_parse raw) as [e|[match_score reason]];
    [reflexivity|].
  destruct (as_num match_score) as [n|]; [|reflexivity]. simpl.
  destruct (fge (num_val n) (Finite (3 # 5))); [|reflexivity].
  unfold keep_best. simpl.
  destruct (best_lookup cv_id best_scores) as [old|]; [|reflexivity].
  destruct (fgt (num_val n) (num_val (Candidate.match_score old)));
    reflexivity.
Qed.

End Thresholds.

Lemma best_lookup_store cv_id c best_scores :
  best_lookup cv_id (best_store cv_id c best_scores) = Some c.
Proof.
  induction best_scores as [|[k c'] rest IH]; simpl.
  - now rewrite Z.eqb_refl.
  - destruct (k =? cv_id)%Z eqn:Hk; simpl; now rewrite Hk.
Qed.

Lemma best_lookup_store_ne cv_id k c best_scores :
  k <> cv_id ->
  best_lookup k (best_store cv_id c best_scores) = best_lookup k best_scores.
Proof.
  intros Hne. induction best_scores as [|[k' c'] rest IH]; simpl.
  - apply Z.eqb_neq in Hne. rewrite Z.eqb_sym. now rewrite Hne.
  - destruct (k' =? cv_id)%Z eqn:Hk; simpl.
    + apply Z.eqb_eq in Hk as ->.
      assert (H : (cv_id =? k)%Z = false) by (apply Z.eqb_neq; congruence).
      now rewrite H.
    + destruct (k' =? k)%Z; [reflexivity | exact IH].
Qed.

Lemma keep_best_lookup c best_scores :
  is_Some (best_lookup (Candidate.cv_id c) (keep_best c best_scores))
  /\ (best_lookup (Candidate.cv_id c) best_scores = None ->
      best_lookup (Candidate.cv_id c) (keep_best c best_scores) = Some c).
Proof.
  unfold keep_best.
  destruct (best_lookup (Candidate.cv_id c) best_scores) as [old|] eqn:Hold.
  - split; [|discriminate].
    destruct (fgt _ _); [rewrite best_lookup_store | rewrite Hold]; eauto.
  - rewrite best_lookup_store. eauto.
Qed.



(** ** Running the pipelines *)

Lemma fge_not_nan s t : fge s t = true -> is_nan s = false.
Proof. unfold fge. apply fle_nan_r. Qed.

Lemma round3_nan s : is_nan (round3 s) = is_nan s.
Proof. now destruct s. Qed.

Lemma collected_Forall {C R} (outcome : nat -> C -> option R) (Q : R -> Prop)
  candidates order :
  (forall i c r, outcome i c = Some r -> Q r) ->
  Forall Q (collected outcome candidates order).
Proof.
  intros H. apply List.Forall_forall. intros r Hr.
  apply list_elem_of_In in Hr. unfold collected in Hr.
  apply list_elem_of_omap in Hr as (i & _ & Hi).
  apply bind_Some in Hi as (c & _ & Hout). eapply H, Hout.
Qed.

Section Pipelines.
Variable json_dumps : pyobj -> str.
Variable E : env.

Lemma single_job_outcome_inv i cv_id cv_text job m :
  single_job_outcome E i cv_id cv_text job = Some m ->
  JobMatch.job_id m = Job.id job
  /\ fge (JobMatch.match_score m) (Finite (1 # 2)) = true.
Proof.
  unfold single_job_outcome.
  destruct (invoke E i _) as [raw|]; [|discriminate].
  destruct (analyze_single_job_parse raw) as [e|[score explanation]];
    [discriminate|].
  destruct (fge score (Finite (1 # 2))) eqn:Hs; [|discriminate].
  destruct (db_fails E _); [discriminate|]. simpl.
  intros [= <-]. now split.
Qed.

Lemma related_job_outcome_inv target_text i other m :
  related_job_outcome E target_text i other = Some m ->
  Related.jobId m = Job.id other /\ is_nan (Related.score m) = false.
Proof.
  unfold related_job_outcome.
  destruct (invoke E i _) as [raw|]; [|discriminate].
  destruct (analyze_job_parse raw) as [e|[score explanation]];
    [discriminate|].
  destruct (fge score (Finite (2 # 5))) eqn:Hs; [|discriminate].
  intros [= <-]. simpl. split; [reflexivity|].
  rewrite round3_nan. eapply fge_not_nan, Hs.
Qed.

Lemma analyze_job_outcome target_text i other w :
  exists w',
    analyze_job E target_text i other w
    = (inr (related_job_outcome E target_text i other), w')
    /\ evaluation_frame w w'.
Proof.
  rewrite analyze_job_run. unfold related_job_outcome.
  destruct (invoke E i _) as [raw|];
    [|eexists; split; [reflexivity | now repeat split]].
  destruct (analyze_job_parse raw) as [e|[score explanation]];
    [eexists; split; [reflexivity | now repeat split]|].
  destruct (fge score (Finite (2 # 5)));
    eexists; (split; [reflexivity | now repeat split]).
Qed.

Lemma analyze_cv_with_jobs_miss_run order cv_text cv_id w :
  db_fails E GetAllJobs = false ->
  let ranked :=
    sorted JobMatch.match_score true
      (collected (fun i => single_job_outcome E i cv_id cv_text)
         (active_jobs w) order) in
  let payload := json_dumps (PyList (List.map JobMatch.to_dict ranked)) in
  exists w1,
    evaluation_frame w w1
    /\ analyze_cv_with_jobs_miss json_dumps E order cv_text cv_id w
       = if db_fails E (SaveNliAnalysis cv_id)
         then (inl DatabaseError, w1)
         else (inr ranked,
               set_redis
                 (fun m => <[recommend_key cv_id := (payload, Some 1800%Z)]>
                             (<[analysis_key cv_id := (payload, Some 1800%Z)]>
                                m))
                 (set_nli_analysis (fun t => t ++ [(cv_id, payload)]) w1)).
Proof.
  intros Hdb ranked payload.
  destruct (analyze_cv_fan_out_run E order cv_text cv_id (active_jobs w) w)
    as (w1 & Hrun & F).
  exists w1. split; [exact F|].
  unfold analyze_cv_with_jobs_miss, get_all_jobs, save_nli_analysis,
    redis_set.
  run_monad. rewrite Hdb. fold (active_jobs w). rewrite Hrun.
  destruct (db_fails E (SaveNliAnalysis cv_id)); reflexivity.
Qed.

Lemma related_jobs_miss_run order job_id w job :
  db_fails E (GetRelativeJobs job_id) = false ->
  List.find (fun j => (Job.id j =? job_id)%Z) (job_table w) = Some job ->
  let ranked :=
    sorted Related.score true
      (collected (related_job_outcome E (job_text job))
         (other_active_jobs job_id w) order) in
  let payload := json_dumps (PyList (List.map Related.to_dict ranked)) in
  exists w1,
    evaluation_frame w w1
    /\ related_jobs_miss json_dumps E order job_id w
       = (inr ranked,
          set_redis
            (fun m => <[related_key job_id := (payload, Some 10800%Z)]> m) w1).
Proof.
  intros Hdb Hjob ranked payload.
  destruct (as_completed_run
              (fun i other => analyze_job E (job_text job) i other)
              (related_job_outcome E (job_text job))
              (other_active_jobs job_id w)
              (analyze_job_outcome (job_text job)) order [] w)
    as (w1 & Hrun & F).
  exists w1. split; [exact F|].
  unfold related_jobs_miss, get_relative_jobs, redis_set.
  run_monad. rewrite Hdb, Hjob. fold (other_active_jobs job_id w).
  simpl. rewrite Hrun. reflexivity.
Qed.

End Pipelines.

(** ** The loop of [filter_candidates] *)

Section FilterLoop.
Variable E : env.

Lemma candidate_outcome_inv filters i row c :
  candidate_outcome E filters i row = Some c ->
  Candidate.cv_id c = fst row
  /\ fge (candidate_score c) (Finite (3 # 5)) = true.
Proof.
  unfold candidate_outcome.
  destruct (invoke E i _) as [raw|]; [|discriminate].
  destruct (filter_candidates_parse raw) as [e|[v reason]]; [discriminate|].
  destruct (as_num v) as [n|]; [|discriminate].
  destruct (fge (num_val n) (Finite (3 # 5))) eqn:Hs; [|discriminate].
  intros [= <-]. now split.
Qed.

Lemma filter_candidates_step_outcome filters i row best_scores w :
  exists w',
    filter_candidates_step E filters i row best_scores w
    = (inr (match candidate_outcome E filters i row with
            | Some c => keep_best c best_scores
            | None => best_scores
            end), w')
    /\ evaluation_frame w w'.
Proof.
  destruct row as [cv_id cv_text].
  rewrite filter_candidates_step_run. unfold candidate_outcome. simpl snd.
  destruct (invoke E i _) as [raw|];
    [|eexists; split; [reflexivity | now repeat split]].
  destruct (filter_candidates_parse raw) as [e|[v reason]];
    [eexists; split; [reflexivity | now repeat split]|].
  destruct (as_num v) as [n|];
    [|eexists; split; [reflexivity | now repeat split]].
  destruct (fge (num_val n) (Finite (3 # 5)));
    eexists; (split; [reflexivity | now repeat split]).
Qed.

Lemma filter_candidates_loop_run filters rows i best_scores w :
  exists w',
    filter_candidates_loop E filters i rows best_scores w
    = (inr (best_of (candidate_outcomes E filters i rows) best_scores), w')
    /\ evaluation_frame w w'.
Proof.
  revert i best_scores w.
  induction rows as [|row rows IH]; intros i best_scores w.
  - exists w. split; [reflexivity | apply evaluation_frame_refl].
  - simpl filter_candidates_loop. unfold mbind at 1, M_bind.
    destruct (filter_candidates_step_outcome filters i row best_scores w)
      as (w1 & -> & F1).
    destruct (IH (S i)
                (match candidate_outcome E filters i row with
                 | Some c => keep_best c best_scores
                 | None => best_scores
                 end) w1) as (w2 & -> & F2).
    exists w2. split; [|eapply evaluation_frame_trans; eassumption].
    simpl candidate_outcomes.
    destruct (candidate_outcome E filters i row); reflexivity.
Qed.

Lemma filter_candidates_run filters w :
  db_fails E GetCvForFilter = false ->
  exists w',
    filter_candidates E filters w
    = (inr (sorted (fun x => fneg (candidate_score x)) false
              (List.map snd
                 (best_of (candidate_outcomes E filters 0 (filter_rows w))
                    []))), w')
    /\ evaluation_frame w w'.
Proof.
  intros Hdb.
  destruct (filter_candidates_loop_run filters (filter_rows w) 0 [] w)
    as (w' & Hrun & F).
  exists w'. split; [|exact F].
  unfold filter_candidates, get_cv_for_filter. run_monad. rewrite Hdb.
  fold (filter_rows w). rewrite Hrun. reflexivity.
Qed.

Lemma candidate_outcomes_In filters i rows c :
  In c (candidate_outcomes E filters i rows) ->
  exists j row, rows !! j = Some row
                /\ candidate_outcome E filters (i + j) row = Some c.
Proof.
  revert i. induction rows as [|row rows IH]; intros i; simpl; [tauto|].
  destruct (candidate_outcome E filters i row) as [c0|] eqn:Hc.
  - intros [<-|Hin].
    + exists 0%nat, row. rewrite Nat.add_0_r. now split.
    + destruct (IH _ Hin) as (j & row' & Hj & Hout).
      exists (S j), row'. rewrite Nat.add_succ_r. now split.
  - intros Hin. destruct (IH _ Hin) as (j & row' & Hj & Hout).
    exists (S j), row'. rewrite Nat.add_succ_r. now split.
Qed.

Lemma candidate_outcomes_scores filters i rows :
  Forall (fun c => fge (candidate_score c) (Finite (3 # 5)) = true)
    (candidate_outcomes E filters i rows).
Proof.
  apply List.Forall_forall. intros c Hc.
  destruct (candidate_outcomes_In _ _ _ _ Hc) as (j & row & _ & Hout).
  eapply candidate_outcome_inv, Hout.
Qed.

End FilterLoop.

(** ** The best entry per CV *)

Section Best.

Lemma best_store_keys cv_id c best_scores :
  List.map fst (best_store cv_id c best_scores)
  = if existsb (Z.eqb cv_id) (List.map fst best_scores)
    then List.map fst best_scores
    else List.map fst best_scores ++ [cv_id].
Proof.
  induction best_scores as [|[k c'] rest IH]; simpl; [reflexivity|].
  rewrite (Z.eqb_sym cv_id k).
  destruct (k =? cv_id)%Z eqn:Hk; simpl.
  - apply Z.eqb_eq in Hk. now subst.
  - rewrite IH. now destruct (existsb _ _).
Qed.

Lemma best_store_NoDup cv_id c best_scores :
  NoDup (List.map fst best_scores) ->
  NoDup (List.map fst (best_store cv_id c best_scores)).
Proof.
  intros H. rewrite best_store_keys.
  destruct (existsb _ _) eqn:Hex; [exact H|].
  apply NoDup_app. split; [exact H|]. split.
  - intros k Hk ->%list_elem_of_singleton.
    apply not_true_iff_false in Hex. apply Hex.
    apply existsb_exists. exists cv_id. split.
    + now apply list_elem_of_In.
    + apply Z.eqb_refl.
  - apply NoDup_singleton.
Qed.

Lemma keep_best_NoDup c best_scores :
  NoDup (List.map fst best_scores) ->
  NoDup (List.map fst (keep_best c best_scores)).
Proof.
  intros H. unfold keep_best.
  destruct (match best_lookup _ _ with None => true | Some _ => _ end);
    [now apply best_store_NoDup | exact H].
Qed.


Lemma In_best_lookup k c best_scores :
  NoDup (List.map fst best_scores) -> In (k, c) best_scores ->
  best_lookup k best_scores = Some c.
Proof.
  induction best_scores as [|[k' c'] rest IH]; simpl; [tauto|].
  intros Hnd [Heq|Hin].
  - injection Heq as -> ->. now rewrite Z.eqb_refl.
  - apply NoDup_cons in Hnd as [Hk Hnd].
    destruct (k' =? k)%Z eqn:Hkk.
    + apply Z.eqb_eq in Hkk as ->. exfalso. apply Hk.
      apply list_elem_of_In, in_map_iff. now exists (k, c).
    + now apply IH.
Qed.

Lemma keep_best_lookup_ne c k best_scores :
  k <> Candidate.cv_id c ->
  best_lookup k (keep_best c best_scores) = best_lookup k best_scores.
Proof.
  intros Hne. unfold keep_best.
  destruct (match best_lookup _ _ with None => true | Some _ => _ end);
    [now apply best_lookup_store_ne | reflexivity].
Qed.

Lemma keep_best_invariant c best_scores seen :
  Forall (fun x => is_nan (candidate_score x) = false) (seen ++ [c]) ->
  best_invariant best_scores seen ->
  best_invariant (keep_best c best_scores) (seen ++ [c]).
Proof.
  intros Hnan (Hnd & Hmax & Hall).
  apply Forall_app in Hnan as [Hseen Hc].
  apply Forall_inv in Hc. rewrite List.Forall_forall in Hseen.
  split; [now apply keep_best_NoDup|]. split.
  - intros k c0 Hk.
    destruct (Z.eq_dec k (Candidate.cv_id c)) as [->|Hne].
    + unfold keep_best in Hk.
      destruct (best_lookup (Candidate.cv_id c) best_scores) as [old|]
        eqn:Hold.
      * destruct (Hmax _ _ Hold) as (Hid & Hin & Hle).
        destruct (fgt (candidate_score c) (candidate_score old)) eqn:Hgt;
          fold (candidate_score c) (candidate_score old) in Hk;
          rewrite Hgt in Hk.
        -- rewrite best_lookup_store in Hk. injection Hk as <-.
           split; [reflexivity|]. split; [apply in_or_app; right; now left|].
           intros c' [Hc'|[<-|[]]]%in_app_or Hid'.
           ++ eapply fle_trans; [now apply Hle|].
              now apply flt_true_fle.
           ++ now apply fle_refl.
        -- rewrite Hold in Hk. injection Hk as <-.
           split; [exact Hid|]. split; [apply in_or_app; now left|].
           intros c' [Hc'|[<-|[]]]%in_app_or Hid'.
           ++ now apply Hle.
           ++ apply flt_false_fle; [now apply Hseen | exact Hc | exact Hgt].
      * rewrite best_lookup_store in Hk. injection Hk as <-.
        split; [reflexivity|]. split; [apply in_or_app; right; now left|].
        intros c' [Hc'|[<-|[]]]%in_app_or Hid'.
        -- destruct (Hall _ Hc') as [x Hx]. rewrite Hid' in Hx. congruence.
        -- now apply fle_refl.
    + rewrite keep_best_lookup_ne in Hk by exact Hne.
      destruct (Hmax _ _ Hk) as (Hid & Hin & Hle).
      split; [exact Hid|]. split; [apply in_or_app; now left|].
      intros c' [Hc'|[<-|[]]]%in_app_or Hid'; [now apply Hle | congruence].
  - intros c' [Hc'|[<-|[]]]%in_app_or.
    + destruct (Z.eq_dec (Candidate.cv_id c') (Candidate.cv_id c)) as [->|Hne].
      * apply keep_best_lookup.
      * rewrite keep_best_lookup_ne by exact Hne. now apply Hall.
    + apply keep_best_lookup.
Qed.

Lemma best_of_invariant cs best_scores seen :
  Forall (fun x => is_nan (candidate_score x) = false) (seen ++ cs) ->
  best_invariant best_scores seen ->
  best_invariant (best_of cs best_scores) (seen ++ cs).
Proof.
  revert best_scores seen.
  induction cs as [|c cs IH]; intros best_scores seen Hnan Hinv.
  - now rewrite app_nil_r.
  - simpl. replace (seen ++ c :: cs) with ((seen ++ [c]) ++ cs) in *
      by (now rewrite <- List.app_assoc).
    apply IH; [exact Hnan|].
    apply keep_best_invariant; [|exact Hinv].
    now apply Forall_app in Hnan as [H _].
Qed.

Lemma best_invariant_nil : best_invariant [] [].
Proof.
  split; [constructor|]. split; [discriminate | intros c' []].
Qed.

End Best.

(** The scenario of three jobs scored 0.8, 0.3 and 0.55: two matches,
    ranked 0.8 then 0.55, both persisted, and both cache keys hold the same
    entry. *)
Example three_jobs_end_to_end :
  match analyze_cv_with_jobs_miss constant_dumps three_replies [0; 1; 2]%nat
          sample_cv 42 sample_world with
  | (inr ranked, w') =>
      List.map (fun m => (JobMatch.job_id m, JobMatch.match_score m)) ranked
      = [(1%Z, Finite (4 # 5)); (3%Z, Finite (11 # 20))]
      /\ List.map Row.job_id (cv_job_matches w') = [1%Z; 3%Z]
      /\ redis w' !! analysis_key 42 = Some (py "[]", Some 1800%Z)
      /\ redis w' !! recommend_key 42 = Some (py "[]", Some 1800%Z)
  | (inl _, _) => False
  end.
Proof. vm_compute. repeat split. Qed.

(** ** C4: the order of the ranked result *)

(** C4, counterexample.  Two jobs score 0.8 and the job with the greater
    identity completes first: it is ranked first, where the claim puts the
    smaller identity first. *)
Lemma C4_ties_are_not_broken_by_identity :
  match fst (analyze_cv_fan_out
               (scripted [Some (js "{'score': 0.8}");
                          Some (js "{'score': 0.8}")] db_up)
               [1; 0]%nat sample_cv 42 [sample_job 1; sample_job 2]
               sample_world) with
  | inr results =>
      List.map (fun m => (JobMatch.job_id m, JobMatch.match_score m))
        (sorted JobMatch.match_score true results)
  | inl _ => []
  end
  = [(2%Z, Finite (4 # 5)); (1%Z, Finite (4 # 5))].
Proof. vm_compute. reflexivity. Qed.

Lemma with_key_fneg {A} (key : A -> pyfloat) s l :
  with_key (fun x => fneg (key x)) (fneg s) l = with_key key s l.
Proof.
  unfold with_key. apply filter_ext. intros x. unfold feq.
  now rewrite !fle_fneg, andb_comm.
Qed.

Lemma sorted_negated_descending {A} (key : A -> pyfloat) l :
  no_nan_keys key l ->
  descending key (sorted (fun x => fneg (key x)) false l).
Proof.
  intros Hl. unfold sorted, descending.
  eapply (StronglySorted_weaken
            (fun a b => fle (fneg (key a)) (fneg (key b)) = true) _
            (fun _ => True)).
  - intros a b _ _ H. rewrite fle_fneg in H. exact H.
  - apply List.Forall_forall. auto.
  - apply (isort_key_ascending (fun x => fneg (key x))).
    unfold no_nan_keys in *. eapply List.Forall_impl; [|exact Hl].
    intros x Hx. simpl. now rewrite fneg_nan.
Qed.

Lemma best_of_entries_no_nan E filters i rows :
  no_nan_keys candidate_score
    (List.map snd (best_of (candidate_outcomes E filters i rows) [])).
Proof.
  pose proof (candidate_outcomes_scores E filters i rows) as Hs.
  assert (Hnan : Forall (fun x => is_nan (candidate_score x) = false)
                   ([] ++ candidate_outcomes E filters i rows)).
  { simpl. eapply List.Forall_impl; [|exact Hs].
    intros c Hc. eapply fge_not_nan, Hc. }
  destruct (best_of_invariant _ [] [] Hnan best_invariant_nil)
    as (Hnd & Hmax & _).
  apply List.Forall_forall. intros c Hc.
  apply in_map_iff in Hc as ([k c0] & <- & Hin). simpl.
  apply In_best_lookup in Hin; [|exact Hnd].
  destruct (Hmax _ _ Hin) as (_ & Hseen & _).
  rewrite List.Forall_forall in Hnan. now apply Hnan.
Qed.

(** C4, amended.  The ranked result of each pipeline is a permutation of
    what was collected, sorted non-increasing by score; entries with equal
    scores keep the order in which they were collected (completion order
    for the two thread pools, first qualifying row per CV for the filter),
    whatever their identities. *)
Theorem C4_ranked_descending_ties_in_collection_order
  (json_dumps : pyobj -> str) (E : env) (w : world)
  (order : list nat) (cv_text : str) (cv_id : Z)
  (order' : list nat) (job_id : Z) (job : Job.t) (filters : pyobj) :
  db_fails E GetAllJobs = false ->
  db_fails E (SaveNliAnalysis cv_id) = false ->
  db_fails E (GetRelativeJobs job_id) = false ->
  List.find (fun j => (Job.id j =? job_id)%Z) (job_table w) = Some job ->
  db_fails E GetCvForFilter = false ->
  (exists ranked w',
      analyze_cv_with_jobs_miss json_dumps E order cv_text cv_id w
      = (inr ranked, w')
      /\ let results :=
           collected (fun i => single_job_outcome E i cv_id cv_text)
             (active_jobs w) order in
         Permutation ranked results
         /\ descending JobMatch.match_score ranked
         /\ forall s, with_key JobMatch.match_score s ranked
                      = with_key JobMatch.match_score s results)
  /\ (exists ranked w',
         related_jobs_miss json_dumps E order' job_id w = (inr ranked, w')
         /\ let results := collected (related_job_outcome E (job_text job))
                             (other_active_jobs job_id w) order' in
            Permutation ranked results
            /\ descending Related.score ranked
            /\ forall s, with_key Related.score s ranked
                         = with_key Related.score s results)
  /\ (exists matched w',
         filter_candidates E filters w = (inr matched, w')
         /\ let entries :=
              List.map snd
                (best_of (candidate_outcomes E filters 0 (filter_rows w)) [])
            in
            Permutation matched entries
            /\ descending candidate_score matched
            /\ forall s, with_key candidate_score s matched
                         = with_key candidate_score s entries).
Proof.
  intros Hjobs Hsave Hrel Hjob Hrows. split; [|split].
  - destruct (analyze_cv_with_jobs_miss_run json_dumps E order cv_text cv_id
                w Hjobs) as (w1 & _ & Hrun).
    rewrite Hsave in Hrun. eexists _, _. split; [exact Hrun|].
    split; [apply sorted_perm|]. split; [|intros s; apply sorted_stable].
    apply sorted_reverse_descending, collected_Forall.
    intros i c m Hm. eapply fge_not_nan.
    eapply single_job_outcome_inv, Hm.
  - destruct (related_jobs_miss_run json_dumps E order' job_id w job
                Hrel Hjob) as (w1 & _ & Hrun).
    eexists _, _. split; [exact Hrun|].
    split; [apply sorted_perm|]. split; [|intros s; apply sorted_stable].
    apply sorted_reverse_descending, collected_Forall.
    intros i c m Hm. eapply related_job_outcome_inv, Hm.
  - destruct (filter_candidates_run E filters w Hrows) as (w' & Hrun & _).
    eexists _, _. split; [exact Hrun|].
    split; [apply sorted_perm|]. split.
    + apply sorted_negated_descending, best_of_entries_no_nan.
    + intros s. rewrite <- !(with_key_fneg candidate_score).
      apply (sorted_stable (fun x => fneg (candidate_score x))).
Qed.

(** C4, witness: the three-job scenario, completing in the order 1, 2, 0. *)
Lemma C4_witness :
  exists ranked w',
    analyze_cv_with_jobs_miss constant_dumps three_replies [1; 2; 0]%nat
      sample_cv 42 sample_world
    = (inr ranked, w')
    /\ descending JobMatch.match_score ranked.
Proof.
  destruct (C4_ranked_descending_ties_in_collection_order
              constant_dumps three_replies sample_world
              [1; 2; 0]%nat sample_cv 42 [1; 0]%nat 1 (sample_job 1) PyNone
              eq_refl eq_refl eq_refl eq_refl eq_refl)
    as ((ranked & w' & Hrun & _ & Hdesc & _) & _).
  exists ranked, w'. split; [exact Hrun | exact Hdesc].
Defined.

(** ** C7: what a cache miss writes *)

Lemma cache_keys_differ cv_id : analysis_key cv_id <> recommend_key cv_id.
Proof.
  intros H. apply (f_equal (hd 0)) in H. vm_compute in H. discriminate.
Qed.

Section CacheWrites.
Variable json_dumps : pyobj -> str.
Variable E : env.

Lemma analyze_cv_with_jobs_on_miss order cv_text cv_id w :
  redis w !! analysis_key cv_id = None ->
  analyze_cv_with_jobs json_dumps E order cv_text cv_id w
  = match analyze_cv_with_jobs_miss json_dumps E order cv_text cv_id w with
    | (inl e, w') => (inl e, w')
    | (inr ranked, w') => (inr (PyList (List.map JobMatch.to_dict ranked)), w')
    end.
Proof.
  intros Hmiss. unfold analyze_cv_with_jobs, redis_exists.
  unfold mbind at 1, M_bind. unfold mbind at 1, M_bind, get_world.
  unfold mret at 1, M_ret. fold (analysis_key cv_id). rewrite Hmiss.
  rewrite bool_decide_eq_false_2 by (intros [x Hx]; discriminate).
  unfold mbind, M_bind.
  destruct (analyze_cv_with_jobs_miss _ _ _ _ _ w) as [[e|ranked] w'];
    reflexivity.
Qed.

Lemma related_jobs_on_miss order job_id w :
  redis w !! related_key job_id = None ->
  related_jobs json_dumps E order job_id w
  = match related_jobs_miss json_dumps E order job_id w with
    | (inl e, w') => (inl e, w')
    | (inr ranked, w') => (inr (PyList (List.map Related.to_dict ranked)), w')
    end.
Proof.
  intros Hmiss. unfold related_jobs, redis_exists.
  unfold mbind at 1, M_bind. unfold mbind at 1, M_bind, get_world.
  unfold mret at 1, M_ret. fold (related_key job_id). rewrite Hmiss.
  rewrite bool_decide_eq_false_2 by (intros [x Hx]; discriminate).
  unfold mbind, M_bind.
  destruct (related_jobs_miss _ _ _ _ w) as [[e|ranked] w']; reflexivity.
Qed.

End CacheWrites.



(** ** C9: one entry per candidate *)





(** ** C8 and C10: the recommendation reads *)





Section Recommend.
Variable json_dumps : pyobj -> str.
Variable E : env.

Lemma recommend_jobs_for_cv_hit cv_id w v ttl :
  redis w !! recommend_key cv_id = Some (v, ttl) ->
  recommend_jobs_for_cv json_dumps E cv_id w = (inr v, w).
Proof.
  intros Hhit. unfold recommend_jobs_for_cv. fold (recommend_key cv_id).
  run_pure. rewrite Hhit.
  rewrite bool_decide_eq_true_2 by eauto. cbv beta iota.
  rewrite Hhit. reflexivity.
Qed.

Lemma recommend_jobs_for_cv_miss cv_id w :
  redis w !! recommend_key cv_id = None ->
  db_fails E (RecommendJobsForCv cv_id) = false ->
  let payload :=
    json_dumps (PyList (List.map job_row_dict
                          (select_matches_of_cv cv_id (cv_job_matches w)))) in
  recommend_jobs_for_cv json_dumps E cv_id w
  = (inr payload,
     set_redis (fun m => <[recommend_key cv_id := (payload, None)]> m) w).
Proof.
  intros Hmiss Hdb payload. unfold recommend_jobs_for_cv.
  fold (recommend_key cv_id). run_pure. rewrite Hmiss.
  rewrite bool_decide_eq_false_2 by (intros [x Hx]; discriminate).
  rewrite Hdb. reflexivity.
Qed.

Lemma recommend_cvs_for_job_run job_id w :
  db_fails E (RecommendCvsForJob job_id) = false ->
  recommend_cvs_for_job json_dumps E job_id w
  = (inr (json_dumps
            (PyList (List.map cv_row_dict
                       (select_matches_of_job job_id (cv_job_matches w))))),
     w).
Proof.
  intros Hdb. unfold recommend_cvs_for_job. run_pure. now rewrite Hdb.
Qed.

End Recommend.




(** C10.  Both recommend operations return a [str]: recommend-jobs-for-a-CV
    returns the cached value as it is on a hit and [json.dumps] of the rows
    on a miss, recommend-CVs-for-a-job always [json.dumps] of its rows.  The
    two endpoints put that string, not a list, under [recommended_jobs] and
    [recommended_cvs]. *)
Theorem C10_recommendations_are_serialized_strings
  (json_dumps : pyobj -> str) (E : env) (w : world) (cv_id job_id : Z) :
  db_fails E (RecommendJobsForCv cv_id) = false ->
  db_fails E (RecommendCvsForJob job_id) = false ->
  let dumped_jobs :=
    json_dumps (PyList (List.map job_row_dict
                          (select_matches_of_cv cv_id (cv_job_matches w)))) in
  let dumped_cvs :=
    json_dumps (PyList (List.map cv_row_dict
                          (select_matches_of_job job_id (cv_job_matches w)))) in
  (forall cached ttl,
      redis w !! recommend_key cv_id = Some (cached, ttl) ->
      recommend_jobs_for_cv json_dumps E cv_id w = (inr cached, w)
      /\ get_job_recommendations json_dumps E cv_id w
         = (inr (PyDict [(py "cv_id", PyInt cv_id);
                         (py "recommended_jobs", PyStr cached)]), w))
  /\ (redis w !! recommend_key cv_id = None ->
      fst (recommend_jobs_for_cv json_dumps E cv_id w) = inr dumped_jobs
      /\ fst (get_job_recommendations json_dumps E cv_id w)
         = inr (PyDict [(py "cv_id", PyInt cv_id);
                        (py "recommended_jobs", PyStr dumped_jobs)]))
  /\ recommend_cvs_for_job json_dumps E job_id w = (inr dumped_cvs, w)
  /\ get_job_recommendations' json_dumps E job_id w
     = (inr (PyDict [(py "job_id", PyInt job_id);
                     (py "recommended_cvs", PyStr dumped_cvs)]), w).
Proof.
  intros Hdb1 Hdb2 dumped_jobs dumped_cvs.
  unfold get_job_recommendations, get_job_recommendations'.
  unfold mbind, M_bind. split; [|split; [|split]].
  - intros cached ttl Hhit.
    now rewrite (recommend_jobs_for_cv_hit json_dumps E cv_id w cached ttl
                   Hhit).
  - intros Hmiss.
    now rewrite (recommend_jobs_for_cv_miss json_dumps E cv_id w Hmiss Hdb1).
  - now apply recommend_cvs_for_job_run.
  - now rewrite (recommend_cvs_for_job_run json_dumps E job_id w Hdb2).
Qed.

(** C10, witness: a miss for CV 42, and job 1. *)
Lemma C10_witness :
  fst (get_job_recommendations constant_dumps three_replies 42 matched_world)
  = inr (PyDict [(py "cv_id", PyInt 42);
                 (py "recommended_jobs", PyStr (py "[]"))])
  /\ get_job_recommendations' constant_dumps three_replies 1 matched_world
     = (inr (PyDict [(py "job_id", PyInt 1);
                     (py "recommended_cvs", PyStr (py "[]"))]),
        matched_world).
Proof.
  destruct (C10_recommendations_are_serialized_strings constant_dumps
              three_replies matched_world 42 1 eq_refl eq_refl)
    as (_ & H1 & _ & H2).
  split; [apply H1; reflexivity | exact H2].
Defined.

(** * Persistence, logs, cache and endpoints *)

(** ** What the fan-out persists and logs *)

Section Emits.
Context {C R X : Type} (task : nat -> C -> M (option R))
  (outcome : nat -> C -> option R) (proj : world -> list X)
  (emit : nat -> C -> option X) (candidates : list C).
Hypothesis task_emits : forall i c w,
  exists w', task i c w = (inr (outcome i c), w')
             /\ proj w' = proj w ++ option_list (emit i c).

Lemma as_completed_emits order results w :
  exists w',
    as_completed (imap task candidates) order results w
    = (inr (results ++ collected outcome candidates order), w')
    /\ proj w' = proj w ++ emitted emit candidates order.
Proof.
  revert results w. induction order as [|i order IH]; intros results w.
  - exists w. simpl. rewrite !app_nil_r. split; reflexivity.
  - unfold emitted. rewrite !collected_cons. simpl as_completed.
    rewrite list_lookup_imap. unfold mbind at 1, M_bind.
    destruct (candidates !! i) as [c|] eqn:Hc; simpl.
    + destruct (task_emits i c w) as (w1 & -> & P1).
      destruct (IH (match outcome i c with
                    | Some r => results ++ [r]
                    | None => results
                    end) w1) as (w2 & -> & P2).
      exists w2. split.
      * destruct (outcome i c); simpl;
          [now rewrite <- app_assoc | reflexivity].
      * rewrite P2, P1. unfold emitted.
        destruct (emit i c); simpl; now rewrite <- ?List.app_assoc, ?app_nil_r.
    + destruct (IH results w) as (w2 & -> & P2).
      exists w2. split; [reflexivity | exact P2].
Qed.

End Emits.

Lemma collected_fmap {C R X} (outcome : nat -> C -> option R) (g : R -> X)
  candidates order :
  collected (fun i c => g <$> outcome i c) candidates order
  = List.map g (collected outcome candidates order).
Proof.
  induction order as [|i order IH]; [reflexivity|].
  rewrite !collected_cons, IH.
  destruct (candidates !! i) as [c|]; simpl; [|reflexivity].
  destruct (outcome i c); reflexivity.
Qed.

Section FanOutEffects.
Variable E : env.

Lemma analyze_single_job_row i cv_id cv_text job w :
  exists w',
    analyze_single_job E i cv_id cv_text job w
    = (inr (single_job_outcome E i cv_id cv_text job), w')
    /\ cv_job_matches w'
       = cv_job_matches w
         ++ option_list (match_row cv_id cv_text
                           <$> single_job_outcome E i cv_id cv_text job).
Proof.
  rewrite analyze_single_job_run. unfold single_job_outcome.
  destruct (invoke E i _) as [raw|];
    [|eexists; split; [reflexivity | simpl; now rewrite app_nil_r]].
  destruct (analyze_single_job_parse raw) as [e|[score explanation]];
    [eexists; split; [reflexivity | simpl; now rewrite app_nil_r]|].
  destruct (fge score (Finite (1 # 2))); simpl;
    [|eexists; split; [reflexivity | simpl; now rewrite app_nil_r]].
  destruct (db_fails E (SaveCvJobMatches cv_id (Job.id job))); simpl;
    eexists; (split; [reflexivity | simpl; now rewrite ?app_nil_r]).
Qed.

Lemma analyze_single_job_log i cv_id cv_text job w :
  exists w',
    analyze_single_job E i cv_id cv_text job w
    = (inr (single_job_outcome E i cv_id cv_text job), w')
    /\ log w'
       = log w ++ option_list (single_job_failure E i cv_id cv_text job).
Proof.
  rewrite analyze_single_job_run.
  unfold single_job_outcome, single_job_failure.
  destruct (invoke E i _) as [raw|];
    [|eexists; split; [reflexivity | reflexivity]].
  destruct (analyze_single_job_parse raw) as [e|[score explanation]];
    [eexists; split; [reflexivity | reflexivity]|].
  destruct (fge score (Finite (1 # 2))); simpl;
    [|eexists; split; [reflexivity | simpl; now rewrite app_nil_r]].
  destruct (db_fails E (SaveCvJobMatches cv_id (Job.id job))); simpl;
    eexists; (split; [reflexivity | simpl; now rewrite ?app_nil_r]).
Qed.

(** The fan-out, with everything it leaves behind. *)
Lemma analyze_cv_fan_out_effects order cv_text cv_id jobs w :
  let results :=
    collected (fun i => single_job_outcome E i cv_id cv_text) jobs order in
  exists w',
    analyze_cv_fan_out E order cv_text cv_id jobs w = (inr results, w')
    /\ evaluation_frame w w'
    /\ cv_job_matches w'
       = cv_job_matches w ++ List.map (match_row cv_id cv_text) results
    /\ log w'
       = log w
         ++ emitted (fun i => single_job_failure E i cv_id cv_text) jobs order.
Proof.
  intros results.
  destruct (analyze_cv_fan_out_run E order cv_text cv_id jobs w)
    as (w' & Hrun & F).
  exists w'. split; [exact Hrun|]. split; [exact F|]. split.
  - destruct (as_completed_emits
                (fun i job => analyze_single_job E i cv_id cv_text job)
                (fun i => single_job_outcome E i cv_id cv_text)
                cv_job_matches
                (fun i job => match_row cv_id cv_text
                                <$> single_job_outcome E i cv_id cv_text job)
                jobs
                (fun i c w0 => analyze_single_job_row i cv_id cv_text c w0)
                order [] w) as (w2 & Hrun2 & P).
    unfold analyze_cv_fan_out in Hrun. rewrite Hrun in Hrun2.
    injection Hrun2 as <-. rewrite P. unfold emitted.
    now rewrite collected_fmap.
  - destruct (as_completed_emits
                (fun i job => analyze_single_job E i cv_id cv_text job)
                (fun i => single_job_outcome E i cv_id cv_text)
                log
                (fun i => single_job_failure E i cv_id cv_text)
                jobs
                (fun i c w0 => analyze_single_job_log i cv_id cv_text c w0)
                order [] w) as (w2 & Hrun2 & P).
    unfold analyze_cv_fan_out in Hrun. rewrite Hrun in Hrun2.
    injection Hrun2 as <-. exact P.
Qed.

End FanOutEffects.

(** ** The cache in front of the pipelines *)

Section CacheHits.
Variable json_dumps : pyobj -> str.
Variable E : env.

Lemma analyze_cv_with_jobs_hit order cv_text cv_id w cached ttl :
  redis w !! analysis_key cv_id = Some (cached, ttl) ->
  analyze_cv_with_jobs json_dumps E order cv_text cv_id w
  = (or_raise JSONDecodeError (json_loads cached), w).
Proof.
  intros Hhit. unfold analyze_cv_with_jobs. fold (analysis_key cv_id).
  run_pure. rewrite Hhit.
  rewrite bool_decide_eq_true_2 by eauto. cbv beta iota.
  rewrite Hhit. simpl. now destruct (json_loads cached).
Qed.

Lemma related_jobs_hit order job_id w cached ttl :
  redis w !! related_key job_id = Some (cached, ttl) ->
  related_jobs json_dumps E order job_id w
  = (or_raise JSONDecodeError (json_loads cached), w).
Proof.
  intros Hhit. unfold related_jobs. fold (related_key job_id).
  run_pure. rewrite Hhit.
  rewrite bool_decide_eq_true_2 by eauto. cbv beta iota.
  rewrite Hhit. simpl. now destruct (json_loads cached).
Qed.

Lemma analyze_cv_with_jobs_miss_effects order cv_text cv_id w :
  db_fails E GetAllJobs = false ->
  let results :=
    collected (fun i => single_job_outcome E i cv_id cv_text)
      (active_jobs w) order in
  let ranked := sorted JobMatch.match_score true results in
  let payload := json_dumps (PyList (List.map JobMatch.to_dict ranked)) in
  exists w1,
    evaluation_frame w w1
    /\ cv_job_matches w1
       = cv_job_matches w ++ List.map (match_row cv_id cv_text) results
    /\ log w1
       = log w ++ emitted (fun i => single_job_failure E i cv_id cv_text)
                    (active_jobs w) order
    /\ analyze_cv_with_jobs_miss json_dumps E order cv_text cv_id w
       = if db_fails E (SaveNliAnalysis cv_id)
         then (inl DatabaseError, w1)
         else (inr ranked,
               set_redis
                 (fun m => <[recommend_key cv_id := (payload, Some 1800%Z)]>
                             (<[analysis_key cv_id := (payload, Some 1800%Z)]>
                                m))
                 (set_nli_analysis (fun t => t ++ [(cv_id, payload)]) w1)).
Proof.
  intros Hdb results ranked payload.
  destruct (analyze_cv_fan_out_effects E order cv_text cv_id (active_jobs w) w)
    as (w1 & Hrun & F & Hrows & Hlog).
  exists w1. split; [exact F|]. split; [exact Hrows|]. split; [exact Hlog|].
  unfold analyze_cv_with_jobs_miss, get_all_jobs, save_nli_analysis,
    redis_set.
  run_monad. rewrite Hdb. fold (active_jobs w). rewrite Hrun.
  destruct (db_fails E (SaveNliAnalysis cv_id)); reflexivity.
Qed.


End CacheHits.

Lemma active_jobs_frame w w' :
  evaluation_frame w w' -> active_jobs w' = active_jobs w.
Proof. intros (_ & Hj & Hn & _). unfold active_jobs. now rewrite Hj, Hn. Qed.

(** ** The analysis endpoint *)




(** X3.  When the insert of the analysis snapshot fails, the request fails
    after the rows of the matches have been inserted and before anything is
    cached: the cache and [nli_analysis] are as before, [cv_job_matches] has
    the new rows.  Nothing removes them, so the same request sent again
    evaluates every job again and appends the same rows a second time. *)
Theorem X3_failed_snapshot_keeps_the_rows_and_caches_nothing
  (json_dumps : pyobj -> str) (E : env) (order : list nat) (cv_text : str)
  (cv_id : Z) (w : world) :
  redis w !! analysis_key cv_id = None ->
  db_fails E GetAllJobs = false ->
  db_fails E (SaveNliAnalysis cv_id) = true ->
  let rows :=
    List.map (match_row cv_id cv_text)
      (collected (fun i => single_job_outcome E i cv_id cv_text)
         (active_jobs w) order) in
  exists w1 w2,
    analyze_cv_with_jobs json_dumps E order cv_text cv_id w
    = (inl DatabaseError, w1)
    /\ redis w1 = redis w
    /\ nli_analysis w1 = nli_analysis w
    /\ cv_job_matches w1 = cv_job_matches w ++ rows
    /\ analyze_cv_with_jobs json_dumps E order cv_text cv_id w1
       = (inl DatabaseError, w2)
    /\ cv_job_matches w2 = cv_job_matches w ++ rows ++ rows.
Proof.
  intros Hmiss Hjobs Hsave rows.
  destruct (analyze_cv_with_jobs_miss_effects json_dumps E order cv_text cv_id
              w Hjobs) as (w1 & F1 & Hrows1 & _ & Hrun1).
  destruct (analyze_cv_with_jobs_miss_effects json_dumps E order cv_text cv_id
              w1 Hjobs) as (w2 & F2 & Hrows2 & _ & Hrun2).
  rewrite Hsave in Hrun1, Hrun2.
  assert (Hmiss1 : redis w1 !! analysis_key cv_id = None).
  { destruct F1 as (-> & _). exact Hmiss. }
  exists w1, w2.
  rewrite (analyze_cv_with_jobs_on_miss json_dumps E order cv_text cv_id w
             Hmiss), Hrun1.
  rewrite (analyze_cv_with_jobs_on_miss json_dumps E order cv_text cv_id w1
             Hmiss1), Hrun2.
  rewrite (active_jobs_frame w w1 F1) in Hrows2.
  destruct F1 as (Hr & _ & _ & Hn).
  split; [reflexivity|]. split; [exact Hr|]. split; [exact Hn|].
  split; [exact Hrows1|]. split; [reflexivity|].
  rewrite Hrows2, Hrows1. now rewrite <- List.app_assoc.
Qed.

(** X3, witness: the three-job scenario with a failing snapshot insert. *)
Lemma X3_witness :
  exists w1 w2,
    analyze_cv_with_jobs constant_dumps three_replies_no_snapshot
      [0; 1; 2]%nat sample_cv 42 sample_world
    = (inl DatabaseError, w1)
    /\ redis w1 = redis sample_world
    /\ analyze_cv_with_jobs constant_dumps three_replies_no_snapshot
         [0; 1; 2]%nat sample_cv 42 w1
       = (inl DatabaseError, w2)
    /\ List.map Row.job_id (cv_job_matches w2) = [1; 3; 1; 3]%Z.
Proof.
  destruct (X3_failed_snapshot_keeps_the_rows_and_caches_nothing
              constant_dumps three_replies_no_snapshot [0; 1; 2]%nat
              sample_cv 42 sample_world eq_refl eq_refl eq_refl)
    as (w1 & w2 & Hrun1 & Hr & _ & _ & Hrun2 & Hrows).
  exists w1, w2. split; [exact Hrun1|]. split; [exact Hr|].
  split; [exact Hrun2|]. rewrite Hrows. vm_compute. reflexivity.
Defined.

(** X4.  Whatever becomes of the request, a run of the CV analysis that
    misses the cache appends to the log one ERROR record per pair whose
    evaluation failed, in completion order, and nothing else; the record
    names the job and the exception.  A pair that yields a match leaves no
    record, and neither does a pair whose score is below the threshold. *)
Theorem X4_analysis_logs_one_error_per_failed_pair
  (json_dumps : pyobj -> str) (E : env) (order : list nat) (cv_text : str)
  (cv_id : Z) (w : world) :
  redis w !! analysis_key cv_id = None ->
  db_fails E GetAllJobs = false ->
  let failure := fun i => single_job_failure E i cv_id cv_text in
  log (snd (analyze_cv_with_jobs json_dumps E order cv_text cv_id w))
  = log w ++ emitted failure (active_jobs w) order
  /\ (forall i job record,
        failure i job = Some record ->
        single_job_outcome E i cv_id cv_text job = None
        /\ exists e,
             record = error_record (py "Error analyzing job") (Job.id job) e)
  /\ (forall i job raw_content score explanation,
        invoke E i (CvVsJob cv_text (Job.detail job)) = Some raw_content ->
        analyze_single_job_parse raw_content = inr (score, explanation) ->
        flt score (Finite (1 # 2)) = true ->
        failure i job = None).
Proof.
  intros Hmiss Hjobs failure. split; [|split].
  - rewrite analyze_cv_with_jobs_on_miss by exact Hmiss.
    destruct (analyze_cv_with_jobs_miss_effects json_dumps E order cv_text
                cv_id w Hjobs) as (w1 & _ & _ & Hlog & ->).
    destruct (db_fails E (SaveNliAnalysis cv_id)); exact Hlog.
  - intros i job record. unfold failure, single_job_failure,
      single_job_outcome.
    destruct (invoke E i _) as [raw|]; [|intros [= <-]; eauto].
    destruct (analyze_single_job_parse raw) as [e|[score explanation]];
      [intros [= <-]; eauto|].
    destruct (fge score (Finite (1 # 2))); simpl; [|discriminate].
    destruct (db_fails E (SaveCvJobMatches cv_id (Job.id job))); simpl;
      [|discriminate].
    intros [= <-]. eauto.
  - intros i job raw score explanation Hraw Hparse Hlow.
    unfold failure, single_job_failure. rewrite Hraw, Hparse.
    unfold fge. now rewrite (flt_true_not_fle _ _ Hlow).
Qed.

(** X4, witness: three jobs, each failing in its own way. *)
Lemma X4_witness :
  List.map (fun r => (subject r, cause r))
    (log (snd (analyze_cv_with_jobs constant_dumps three_failures
                 [2; 0; 1]%nat sample_cv 42 sample_world)))
  = [(3%Z, DatabaseError); (1%Z, no_json_found); (2%Z, OracleError)].
Proof.
  destruct (X4_analysis_logs_one_error_per_failed_pair
              constant_dumps three_failures [2; 0; 1]%nat sample_cv 42
              sample_world eq_refl eq_refl) as (-> & _).
  vm_compute. reflexivity.
Defined.

(** X5.  A cache entry is answered from the cache alone.  The CV analysis
    and the related-jobs pipeline return the decoded entry, or raise when it
    does not decode, and leave the world as it was, whatever the
    environment: the model is not called and the database is not read, so
    the answer is the same when the database is down or, for related jobs,
    when the job no longer exists. *)
Theorem X5_cache_hits_are_answered_from_the_cache
  (json_dumps : pyobj -> str) (w : world) (cv_id job_id : Z)
  (cached cached' : str) (ttl ttl' : option Z) :
  redis w !! analysis_key cv_id = Some (cached, ttl) ->
  redis w !! related_key job_id = Some (cached', ttl') ->
  (forall E order cv_text,
      analyze_cv_with_jobs json_dumps E order cv_text cv_id w
      = (or_raise JSONDecodeError (json_loads cached), w))
  /\ (forall E order,
        related_jobs json_dumps E order job_id w
        = (or_raise JSONDecodeError (json_loads cached'), w)).
Proof.
  intros H1 H2. split; intros.
  - eapply analyze_cv_with_jobs_hit, H1.
  - eapply related_jobs_hit, H2.
Qed.

(** X5, witness: a decodable entry, an entry that is not JSON, and a
    database that is down. *)
Lemma X5_witness :
  analyze_cv_with_jobs constant_dumps all_down [] sample_cv 42 cached_world
  = (inr (PyList [PyDict [(py "job_id", PyInt 1)]]), cached_world)
  /\ related_jobs constant_dumps all_down [] 1 cached_world
     = (inl JSONDecodeError, cached_world).
Proof.
  destruct (X5_cache_hits_are_answered_from_the_cache constant_dumps
              cached_world 42 1 (js "[{'job_id': 1}]") (py "not json")
              (Some 1800%Z) (Some 10800%Z) eq_refl eq_refl) as (H1 & H2).
  split; [apply H1 | apply H2].
Defined.

Section AfterAnalysis.
Variable json_dumps : pyobj -> str.
Variable E : env.

(** The world a successful analysis leaves holds its payload under both
    keys. *)
Lemma analysis_leaves_both_keys order cv_text cv_id w :
  redis w !! analysis_key cv_id = None ->
  db_fails E GetAllJobs = false ->
  db_fails E (SaveNliAnalysis cv_id) = false ->
  exists ranked w',
    let payload := json_dumps (PyList (List.map JobMatch.to_dict ranked)) in
    analyze_cv_with_jobs json_dumps E order cv_text cv_id w
    = (inr (PyList (List.map JobMatch.to_dict ranked)), w')
    /\ redis w' !! analysis_key cv_id = Some (payload, Some 1800%Z)
    /\ redis w' !! recommend_key cv_id = Some (payload, Some 1800%Z).
Proof.
  intros Hmiss Hjobs Hsave.
  rewrite analyze_cv_with_jobs_on_miss by exact Hmiss.
  destruct (analyze_cv_with_jobs_miss_run json_dumps E order cv_text cv_id
              w Hjobs) as (w1 & _ & ->).
  rewrite Hsave. eexists _, _. split; [reflexivity|]. simpl redis. split.
  - rewrite lookup_insert_ne by (apply not_eq_sym, cache_keys_differ).
    apply lookup_insert_eq.
  - apply lookup_insert_eq.
Qed.

End AfterAnalysis.

(** X6.  After an analysis of a CV has succeeded, the next analysis of the
    same CV id is a cache hit: it returns the decoded payload of the first
    one and changes nothing, so no row is inserted twice.  The CV text of
    the second request plays no part: the entry is found by the id alone, so
    a changed text gets the result of the old one. *)
Theorem X6_second_analysis_is_served_from_the_first
  (json_dumps : pyobj -> str) (E : env) (order : list nat) (cv_text : str)
  (cv_id : Z) (w : world) :
  redis w !! analysis_key cv_id = None ->
  db_fails E GetAllJobs = false ->
  db_fails E (SaveNliAnalysis cv_id) = false ->
  exists ranked w',
    let payload := json_dumps (PyList (List.map JobMatch.to_dict ranked)) in
    analyze_cv_with_jobs json_dumps E order cv_text cv_id w
    = (inr (PyList (List.map JobMatch.to_dict ranked)), w')
    /\ forall E' order' cv_text',
         analyze_cv_with_jobs json_dumps E' order' cv_text' cv_id w'
         = (or_raise JSONDecodeError (json_loads payload), w').
Proof.
  intros Hmiss Hjobs Hsave.
  destruct (analysis_leaves_both_keys json_dumps E order cv_text cv_id w
              Hmiss Hjobs Hsave) as (ranked & w' & Hrun & Hkey & _).
  exists ranked, w'. split; [exact Hrun|].
  intros E' order' cv_text'. eapply analyze_cv_with_jobs_hit, Hkey.
Qed.

(** X6, witness: the three-job scenario, then another text and a database
    that is down. *)
Lemma X6_witness :
  exists ranked w',
    analyze_cv_with_jobs constant_dumps three_replies [0; 1; 2]%nat
      sample_cv 42 sample_world
    = (inr (PyList (List.map JobMatch.to_dict ranked)), w')
    /\ analyze_cv_with_jobs constant_dumps all_down [] (py "another text") 42
         w'
       = (inr (PyList []), w').
Proof.
  destruct (X6_second_analysis_is_served_from_the_first
              constant_dumps three_replies [0; 1; 2]%nat sample_cv 42
              sample_world eq_refl eq_refl eq_refl)
    as (ranked & w' & Hrun & Hnext).
  exists ranked, w'. split; [exact Hrun|]. apply Hnext.
Defined.

(** X7.  The analysis feeds the recommendation read.  After an analysis of
    a CV has succeeded, [recommend_jobs_for_cv] for that CV is a cache hit
    on the second key the analysis wrote: it returns the serialization of
    the analysis result as it is, all its matches in the analysis format,
    instead of the ten best rows of the table, reads no table and changes
    nothing; the endpoint wraps that string. *)
Theorem X7_analysis_feeds_the_recommendation_read
  (json_dumps : pyobj -> str) (E : env) (order : list nat) (cv_text : str)
  (cv_id : Z) (w : world) :
  redis w !! analysis_key cv_id = None ->
  db_fails E GetAllJobs = false ->
  db_fails E (SaveNliAnalysis cv_id) = false ->
  exists ranked w',
    let payload := json_dumps (PyList (List.map JobMatch.to_dict ranked)) in
    analyze_cv_with_jobs json_dumps E order cv_text cv_id w
    = (inr (PyList (List.map JobMatch.to_dict ranked)), w')
    /\ forall E',
         recommend_jobs_for_cv json_dumps E' cv_id w' = (inr payload, w')
         /\ get_job_recommendations json_dumps E' cv_id w'
            = (inr (PyDict [(py "cv_id", PyInt cv_id);
                            (py "recommended_jobs", PyStr payload)]), w').
Proof.
  intros Hmiss Hjobs Hsave.
  destruct (analysis_leaves_both_keys json_dumps E order cv_text cv_id w
              Hmiss Hjobs Hsave) as (ranked & w' & Hrun & _ & Hkey).
  exists ranked, w'. split; [exact Hrun|].
  intros E'. unfold get_job_recommendations, mbind, M_bind.
  rewrite (recommend_jobs_for_cv_hit json_dumps E' cv_id w' _ _ Hkey).
  split; reflexivity.
Qed.

(** X7, witness: the three-job scenario, then the read with a database that
    is down. *)
Lemma X7_witness :
  exists ranked w',
    analyze_cv_with_jobs constant_dumps three_replies [0; 1; 2]%nat
      sample_cv 42 sample_world
    = (inr (PyList (List.map JobMatch.to_dict ranked)), w')
    /\ recommend_jobs_for_cv constant_dumps all_down 42 w'
       = (inr (py "[]"), w').
Proof.
  destruct (X7_analysis_feeds_the_recommendation_read
              constant_dumps three_replies [0; 1; 2]%nat sample_cv 42
              sample_world eq_refl eq_refl eq_refl)
    as (ranked & w' & Hrun & Hnext).
  exists ranked, w'. split; [exact Hrun|]. apply Hnext.
Defined.

(** X8.  A recommendation, once computed, is never refreshed.  The first
    read for a CV stores its result without expiry; every later read returns
    that same string and changes nothing, whatever rows [cv_job_matches]
    holds by then and whether or not the database works. *)
Theorem X8_recommendations_are_never_refreshed
  (json_dumps : pyobj -> str) (E : env) (cv_id : Z) (w : world) :
  redis w !! recommend_key cv_id = None ->
  db_fails E (RecommendJobsForCv cv_id) = false ->
  exists first w1,
    recommend_jobs_for_cv json_dumps E cv_id w = (inr first, w1)
    /\ redis w1 !! recommend_key cv_id = Some (first, None)
    /\ forall E' table,
         let w2 := set_cv_job_matches (fun _ => table) w1 in
         recommend_jobs_for_cv json_dumps E' cv_id w2 = (inr first, w2).
Proof.
  intros Hmiss Hdb.
  rewrite (recommend_jobs_for_cv_miss json_dumps E cv_id w Hmiss Hdb).
  eexists _, _. split; [reflexivity|].
  assert (Hkey : forall table,
             redis (set_cv_job_matches (fun _ => table)
                      (set_redis
                         (fun m => <[recommend_key cv_id :=
                                       (json_dumps
                                          (PyList
                                             (List.map job_row_dict
                                                (select_matches_of_cv cv_id
                                                   (cv_job_matches w)))),
                                        None)]> m) w))
             !! recommend_key cv_id
             = Some (json_dumps
                       (PyList (List.map job_row_dict
                                  (select_matches_of_cv cv_id
                                     (cv_job_matches w)))), None)).
  { intros table. simpl. apply lookup_insert_eq. }
  split; [simpl; apply lookup_insert_eq|].
  intros E' table w2.
  eapply recommend_jobs_for_cv_hit, Hkey.
Qed.

(** X8, witness: CV 42 is read with an empty table, then gets three
    matches. *)
Lemma X8_witness :
  exists first w1,
    recommend_jobs_for_cv constant_dumps three_replies 42 sample_world
    = (inr first, w1)
    /\ recommend_jobs_for_cv constant_dumps three_replies 42
         (set_cv_job_matches (fun _ => cv_job_matches matched_world) w1)
       = (inr first,
          set_cv_job_matches (fun _ => cv_job_matches matched_world) w1).
Proof.
  destruct (X8_recommendations_are_never_refreshed
              constant_dumps three_replies 42 sample_world eq_refl eq_refl)
    as (first & w1 & Hrun & _ & Hnext).
  exists first, w1. split; [exact Hrun|]. apply Hnext.
Defined.

(** X9.  A recommendation read that cannot reach the database raises and
    stores nothing: the world, hence the cache, is as before, so the next
    read queries again.  This holds for both reads and for the two
    endpoints, which do not catch the exception. *)
Theorem X9_failed_recommendation_reads_store_nothing
  (json_dumps : pyobj -> str) (E : env) (cv_id job_id : Z) (w : world) :
  redis w !! recommend_key cv_id = None ->
  db_fails E (RecommendJobsForCv cv_id) = true ->
  db_fails E (RecommendCvsForJob job_id) = true ->
  recommend_jobs_for_cv json_dumps E cv_id w = (inl DatabaseError, w)
  /\ get_job_recommendations json_dumps E cv_id w = (inl DatabaseError, w)
  /\ recommend_cvs_for_job json_dumps E job_id w = (inl DatabaseError, w)
  /\ get_job_recommendations' json_dumps E job_id w = (inl DatabaseError, w).
Proof.
  intros Hmiss Hdb1 Hdb2.
  assert (H1 : recommend_jobs_for_cv json_dumps E cv_id w
               = (inl DatabaseError, w)).
  { unfold recommend_jobs_for_cv. fold (recommend_key cv_id). run_pure.
    rewrite Hmiss.
    rewrite bool_decide_eq_false_2 by (intros [x Hx]; discriminate).
    now rewrite Hdb1. }
  assert (H2 : recommend_cvs_for_job json_dumps E job_id w
               = (inl DatabaseError, w)).
  { unfold recommend_cvs_for_job. run_pure. now rewrite Hdb2. }
  unfold get_job_recommendations, get_job_recommendations', mbind, M_bind.
  rewrite H1, H2. auto.
Qed.

(** X9, witness: every database operation fails. *)
Lemma X9_witness :
  recommend_jobs_for_cv constant_dumps all_down 42 matched_world
  = (inl DatabaseError, matched_world)
  /\ get_job_recommendations' constant_dumps all_down 1 matched_world
     = (inl DatabaseError, matched_world).
Proof.
  destruct (X9_failed_recommendation_reads_store_nothing
              constant_dumps all_down 42 1 matched_world
              eq_refl eq_refl eq_refl) as (H1 & _ & _ & H2).
  split; [exact H1 | exact H2].
Defined.

(** ** Evaluations that only log *)

Lemma only_logs_refl w : only_logs w w.
Proof. exists []. destruct w. unfold set_log. simpl. now rewrite app_nil_r. Qed.

Lemma only_logs_trans a b c : only_logs a b -> only_logs b c -> only_logs a c.
Proof.
  intros [r1 ->] [r2 ->]. exists (r1 ++ r2). unfold set_log. simpl.
  now rewrite List.app_assoc.
Qed.

Lemma only_logs_one w record : only_logs w (set_log (fun l => l ++ [record]) w).
Proof. now exists [record]. Qed.

Lemma only_logs_frame w w' :
  only_logs w w' ->
  evaluation_frame w w' /\ cv_job_matches w' = cv_job_matches w.
Proof. intros [r ->]. now repeat split. Qed.

Section AsCompletedLogs.
Context {C R : Type} (task : nat -> C -> M (option R))
  (outcome : nat -> C -> option R) (candidates : list C).
Hypothesis task_logs : forall i c w,
  exists w', task i c w = (inr (outcome i c), w') /\ only_logs w w'.

Lemma as_completed_logs order results w :
  exists w',
    as_completed (imap task candidates) order results w
    = (inr (results ++ collected outcome candidates order), w')
    /\ only_logs w w'.
Proof.
  revert results w. induction order as [|i order IH]; intros results w.
  - exists w. simpl. rewrite app_nil_r. split; [reflexivity|].
    apply only_logs_refl.
  - rewrite collected_cons. simpl as_completed. rewrite list_lookup_imap.
    unfold mbind at 1, M_bind.
    destruct (candidates !! i) as [c|] eqn:Hc; simpl.
    + destruct (task_logs i c w) as (w1 & -> & F1).
      destruct (IH (match outcome i c with
                    | Some r => results ++ [r]
                    | None => results
                    end) w1) as (w2 & -> & F2).
      exists w2. split; [|eapply only_logs_trans; eassumption].
      destruct (outcome i c); simpl; [now rewrite <- app_assoc | reflexivity].
    + destruct (IH results w) as (w2 & -> & F2).
      exists w2. split; [reflexivity | exact F2].
Qed.

End AsCompletedLogs.

Lemma collected_In {C R} (outcome : nat -> C -> option R) candidates order r :
  In r (collected outcome candidates order) ->
  exists i c, candidates !! i = Some c /\ outcome i c = Some r.
Proof.
  intros Hr. apply list_elem_of_In in Hr. unfold collected in Hr.
  apply list_elem_of_omap in Hr as (i & _ & Hi).
  apply bind_Some in Hi as (c & Hc & Hout). now exists i, c.
Qed.

Lemma lookup_In {A} (l : list A) i x : l !! i = Some x -> In x l.
Proof. intros H. eapply list_elem_of_In, list_elem_of_lookup_2, H. Qed.

Lemma find_absent {A} (f : A -> bool) l :
  Forall (fun x => f x = false) l -> List.find f l = None.
Proof.
  induction 1 as [|x l Hx _ IH]; [reflexivity|]. simpl. now rewrite Hx.
Qed.

(** Rounding to three places does not take a score below 0.4. *)
Lemma round3_keeps_threshold s :
  fge s (Finite (2 # 5)) = true -> fge (round3 s) (Finite (2 # 5)) = true.
Proof.
  unfold fge. destruct s as [q|b|]; [|now destruct b|discriminate].
  unfold round3, fle. rewrite !Qle_bool_iff. intros Hq.
  rewrite Qred_correct.
  assert (Hfloor : (400 <= Qfloor (q * 1000))%Z).
  { change 400%Z with (Qfloor (inject_Z 400)). apply Qfloor_resp_le.
    unfold Qle in *. destruct q as [n d]. simpl in *. lia. }
  assert (Hround : (400 <= round_half_even (q * 1000))%Z).
  { unfold round_half_even.
    destruct (_ ?= _)%Q; [destruct (Z.even _)| |]; lia. }
  unfold Qle. simpl. lia.
Qed.

Section RelatedJobs.
Variable json_dumps : pyobj -> str.
Variable E : env.

Lemma analyze_job_logs target_text i other w :
  exists w',
    analyze_job E target_text i other w
    = (inr (related_job_outcome E target_text i other), w')
    /\ only_logs w w'.
Proof.
  rewrite analyze_job_run. unfold related_job_outcome.
  destruct (invoke E i _) as [raw|];
    [|eexists; split; [reflexivity | apply only_logs_one]].
  destruct (analyze_job_parse raw) as [e|[score explanation]];
    [eexists; split; [reflexivity | apply only_logs_one]|].
  destruct (fge score (Finite (2 # 5)));
    eexists; (split; [reflexivity | apply only_logs_refl]).
Qed.

Lemma related_jobs_miss_logs order job_id w job :
  db_fails E (GetRelativeJobs job_id) = false ->
  List.find (fun j => (Job.id j =? job_id)%Z) (job_table w) = Some job ->
  let ranked :=
    sorted Related.score true
      (collected (related_job_outcome E (job_text job))
         (other_active_jobs job_id w) order) in
  let payload := json_dumps (PyList (List.map Related.to_dict ranked)) in
  exists w1,
    only_logs w w1
    /\ related_jobs_miss json_dumps E order job_id w
       = (inr ranked,
          set_redis
            (fun m => <[related_key job_id := (payload, Some 10800%Z)]> m) w1).
Proof.
  intros Hdb Hjob ranked payload.
  destruct (as_completed_logs
              (fun i other => analyze_job E (job_text job) i other)
              (related_job_outcome E (job_text job))
              (other_active_jobs job_id w)
              (analyze_job_logs (job_text job)) order [] w)
    as (w1 & Hrun & F).
  exists w1. split; [exact F|].
  unfold related_jobs_miss, get_relative_jobs, redis_set.
  run_monad. rewrite Hdb, Hjob. fold (other_active_jobs job_id w).
  simpl. rewrite Hrun. reflexivity.
Qed.

Lemma related_job_outcome_score target_text i other m :
  related_job_outcome E target_text i other = Some m ->
  fge (Related.score m) (Finite (2 # 5)) = true.
Proof.
  unfold related_job_outcome.
  destruct (invoke E i _) as [raw|]; [|discriminate].
  destruct (analyze_job_parse raw) as [e|[score explanation]];
    [discriminate|].
  destruct (fge score (Finite (2 # 5))) eqn:Hs; [|discriminate].
  intros [= <-]. simpl. now apply round3_keeps_threshold.
Qed.

End RelatedJobs.

(** ** The related-jobs pipeline *)

(** X10.  Related jobs of a job that table [job] does not hold: when the
    cache has no entry for the id, the request raises the HTTP error 404
    [Job not found]; no job is compared, nothing is logged and nothing is
    cached, so the world is as before.  The endpoint passes the error
    on. *)
Theorem X10_related_jobs_of_an_unknown_job
  (json_dumps : pyobj -> str) (E : env) (order : list nat) (job_id : Z)
  (w : world) :
  redis w !! related_key job_id = None ->
  db_fails E (GetRelativeJobs job_id) = false ->
  Forall (fun j => Job.id j <> job_id) (job_table w) ->
  related_jobs json_dumps E order job_id w
  = (inl (HTTPException 404 (py "Job not found")), w)
  /\ get_related_jobs json_dumps E order job_id w
     = (inl (HTTPException 404 (py "Job not found")), w).
Proof.
  intros Hmiss Hdb Hnone. unfold get_related_jobs.
  rewrite related_jobs_on_miss by exact Hmiss.
  unfold related_jobs_miss, get_relative_jobs. run_monad. rewrite Hdb.
  rewrite find_absent; [auto|].
  eapply List.Forall_impl; [|exact Hnone].
  intros j Hj. now apply Z.eqb_neq.
Qed.

(** X10, witness: the sample table has the jobs 1, 2 and 3. *)
Lemma X10_witness :
  related_jobs constant_dumps three_replies [0; 1]%nat 9 sample_world
  = (inl (HTTPException 404 (py "Job not found")), sample_world).
Proof.
  apply (X10_related_jobs_of_an_unknown_job constant_dumps three_replies
           [0; 1]%nat 9 sample_world eq_refl eq_refl).
  repeat constructor; discriminate.
Defined.

(** X11.  What related jobs returns on a cache miss for a job of the table.
    Every entry is another job: its identity differs from the subject's,
    it is a row of table [job] that is enabled and not expired, and its
    score, which is the rounded one, is at least 0.4.  The run writes its
    cache entry and log records and nothing else: no table changes. *)
Theorem X11_related_jobs_are_other_active_jobs
  (json_dumps : pyobj -> str) (E : env) (order : list nat) (job_id : Z)
  (job : Job.t) (w : world) :
  redis w !! related_key job_id = None ->
  db_fails E (GetRelativeJobs job_id) = false ->
  List.find (fun j => (Job.id j =? job_id)%Z) (job_table w) = Some job ->
  exists ranked w1 w',
    get_related_jobs json_dumps E order job_id w
    = (inr (PyList (List.map Related.to_dict ranked)), w')
    /\ Forall (fun m =>
                 Related.jobId m <> job_id
                 /\ fge (Related.score m) (Finite (2 # 5)) = true
                 /\ exists other,
                      In other (job_table w) /\ is_active w other
                      /\ Job.id other = Related.jobId m) ranked
    /\ only_logs w w1
    /\ w' = set_redis
              (fun m =>
                 <[related_key job_id :=
                     (json_dumps (PyList (List.map Related.to_dict ranked)),
                      Some 10800%Z)]> m) w1.
Proof.
  intros Hmiss Hdb Hjob. unfold get_related_jobs.
  rewrite related_jobs_on_miss by exact Hmiss.
  destruct (related_jobs_miss_logs json_dumps E order job_id w job Hdb Hjob)
    as (w1 & F & ->).
  eexists _, w1, _. split; [reflexivity|]. split; [|split; [exact F|]];
    [|reflexivity].
  apply List.Forall_forall. intros m Hm.
  eapply Permutation_in in Hm; [|apply sorted_perm].
  apply collected_In in Hm as (i & other & Hother & Hout).
  apply lookup_In in Hother. unfold other_active_jobs in Hother.
  apply filter_In in Hother as (Hin & Hkeep).
  apply andb_prop in Hkeep as (Hkeep & Hne).
  apply andb_prop in Hkeep as (Hnow & Henable).
  destruct (related_job_outcome_inv E _ _ _ _ Hout) as (Hid & _).
  split; [|split].
  - rewrite Hid. apply negb_true_iff, Z.eqb_neq in Hne. exact Hne.
  - eapply related_job_outcome_score, Hout.
  - exists other. split; [exact Hin|]. split; [|now rewrite Hid].
    split; [now apply Z.ltb_lt | exact Henable].
Qed.

(** X11, witness: the jobs related to job 1 among the three sample jobs. *)
Lemma X11_witness :
  exists ranked w',
    get_related_jobs constant_dumps boundary_env [1; 0]%nat 1 sample_world
    = (inr (PyList (List.map Related.to_dict ranked)), w')
    /\ Forall (fun m => Related.jobId m <> 1%Z) ranked.
Proof.
  destruct (X11_related_jobs_are_other_active_jobs constant_dumps
              boundary_env [1; 0]%nat 1 (sample_job 1) sample_world
              eq_refl eq_refl eq_refl)
    as (ranked & w1 & w' & Hrun & Hall & _).
  exists ranked, w'. split; [exact Hrun|].
  eapply List.Forall_impl; [|exact Hall]. intros m H. apply H.
Defined.

(** ** What the CV analysis returns *)

(** X12.  What the CV analysis returns on a cache miss.  Every match is for
    a job of table [job] that is enabled and not expired at the time of the
    request, and its score is at least 0.5; jobs that are disabled or
    expired are not evaluated and never appear. *)
Theorem X12_matches_are_active_jobs_above_the_threshold
  (json_dumps : pyobj -> str) (E : env) (order : list nat) (cv_text : str)
  (cv_id : Z) (w : world) :
  redis w !! analysis_key cv_id = None ->
  db_fails E GetAllJobs = false ->
  db_fails E (SaveNliAnalysis cv_id) = false ->
  exists ranked w',
    analyze_cv_with_jobs json_dumps E order cv_text cv_id w
    = (inr (PyList (List.map JobMatch.to_dict ranked)), w')
    /\ Forall (fun m =>
                 fge (JobMatch.match_score m) (Finite (1 # 2)) = true
                 /\ exists job,
                      In job (job_table w) /\ is_active w job
                      /\ Job.id job = JobMatch.job_id m) ranked.
Proof.
  intros Hmiss Hjobs Hsave.
  rewrite analyze_cv_with_jobs_on_miss by exact Hmiss.
  destruct (analyze_cv_with_jobs_miss_run json_dumps E order cv_text cv_id
              w Hjobs) as (w1 & _ & ->).
  rewrite Hsave. eexists _, _. split; [reflexivity|].
  apply List.Forall_forall. intros m Hm.
  eapply Permutation_in in Hm; [|apply sorted_perm].
  apply collected_In in Hm as (i & job & Hjob & Hout).
  apply lookup_In in Hjob. unfold active_jobs in Hjob.
  apply filter_In in Hjob as (Hin & Hkeep).
  apply andb_prop in Hkeep as (Hnow & Henable).
  destruct (single_job_outcome_inv E _ _ _ _ _ Hout) as (Hid & Hscore).
  split; [exact Hscore|]. exists job. split; [exact Hin|].
  split; [|now rewrite Hid]. split; [now apply Z.ltb_lt | exact Henable].
Qed.

(** X12, witness: job 2 is disabled; the model would score it 0.5 as
    well. *)
Lemma X12_witness :
  exists ranked w',
    analyze_cv_with_jobs constant_dumps boundary_env [0; 1]%nat sample_cv 42
      disabled_world
    = (inr (PyList (List.map JobMatch.to_dict ranked)), w')
    /\ List.map JobMatch.job_id ranked = [1; 3]%Z.
Proof.
  destruct (X12_matches_are_active_jobs_above_the_threshold constant_dumps
              boundary_env [0; 1]%nat sample_cv 42 disabled_world
              eq_refl eq_refl eq_refl) as (ranked & w' & Hrun & _).
  exists ranked, w'. split; [exact Hrun|].
  vm_compute in Hrun. injection Hrun as Hranked _.
  revert Hranked. clear. intros Hranked.
  destruct ranked as [|m1 [|m2 [|m3 ranked]]]; try discriminate.
  injection Hranked as H1 H2.
  destruct m1, m2. simpl in *. congruence.
Defined.

(** ** The filter pipeline *)

Section FilterLogs.
Variable E : env.

Lemma filter_candidates_step_logs filters i row best_scores w :
  exists w',
    filter_candidates_step E filters i row best_scores w
    = (inr (match candidate_outcome E filters i row with
            | Some c => keep_best c best_scores
            | None => best_scores
            end), w')
    /\ only_logs w w'.
Proof.
  destruct row as [cv_id cv_text].
  rewrite filter_candidates_step_run. unfold candidate_outcome. simpl snd.
  destruct (invoke E i _) as [raw|];
    [|eexists; split; [reflexivity | apply only_logs_one]].
  destruct (filter_candidates_parse raw) as [e|[v reason]];
    [eexists; split; [reflexivity | apply only_logs_one]|].
  destruct (as_num v) as [n|];
    [|eexists; split; [reflexivity | apply only_logs_one]].
  destruct (fge (num_val n) (Finite (3 # 5)));
    eexists; (split; [reflexivity | apply only_logs_refl]).
Qed.

Lemma filter_candidates_loop_logs filters rows i best_scores w :
  exists w',
    filter_candidates_loop E filters i rows best_scores w
    = (inr (best_of (candidate_outcomes E filters i rows) best_scores), w')
    /\ only_logs w w'.
Proof.
  revert i best_scores w.
  induction rows as [|row rows IH]; intros i best_scores w.
  - exists w. split; [reflexivity | apply only_logs_refl].
  - simpl filter_candidates_loop. unfold mbind at 1, M_bind.
    destruct (filter_candidates_step_logs filters i row best_scores w)
      as (w1 & -> & F1).
    destruct (IH (S i)
                (match candidate_outcome E filters i row with
                 | Some c => keep_best c best_scores
                 | None => best_scores
                 end) w1) as (w2 & -> & F2).
    exists w2. split; [|eapply only_logs_trans; eassumption].
    simpl candidate_outcomes.
    destruct (candidate_outcome E filters i row); reflexivity.
Qed.

Lemma filter_candidates_logs filters w :
  db_fails E GetCvForFilter = false ->
  exists w',
    filter_candidates E filters w
    = (inr (sorted (fun x => fneg (candidate_score x)) false
              (List.map snd
                 (best_of (candidate_outcomes E filters 0 (filter_rows w))
                    []))), w')
    /\ only_logs w w'.
Proof.
  intros Hdb.
  destruct (filter_candidates_loop_logs filters (filter_rows w) 0 [] w)
    as (w' & Hrun & F).
  exists w'. split; [|exact F].
  unfold filter_candidates, get_cv_for_filter. run_monad. rewrite Hdb.
  fold (filter_rows w). rewrite Hrun. reflexivity.
Qed.

Lemma candidate_outcomes_length filters i rows :
  (length (candidate_outcomes E filters i rows) <= length rows)%nat.
Proof.
  revert i. induction rows as [|row rows IH]; intros i; simpl; [lia|].
  specialize (IH (S i)).
  destruct (candidate_outcome E filters i row); simpl; lia.
Qed.

End FilterLogs.

Lemma best_store_length cv_id c best_scores :
  (length (best_store cv_id c best_scores) <= S (length best_scores))%nat.
Proof.
  induction best_scores as [|[k c'] rest IH]; simpl; [lia|].
  destruct (k =? cv_id)%Z; simpl; lia.
Qed.

Lemma best_of_length cs best_scores :
  (length (best_of cs best_scores) <= length best_scores + length cs)%nat.
Proof.
  revert best_scores. induction cs as [|c cs IH]; intros best_scores; simpl.
  - lia.
  - etransitivity; [apply IH|]. unfold keep_best.
    destruct (match best_lookup _ _ with Some _ => _ | None => _ end).
    + pose proof (best_store_length (Candidate.cv_id c) c best_scores). lia.
    + lia.
Qed.

(** X13.  The filter endpoint reads and never writes.  When the rows can be
    read, it returns its entries under [matched_candidates] and leaves the
    world as it was but for log records: the cache and every table are
    unchanged.  Every entry is for a CV that has a row in [cv_job_matches],
    so a CV that was never matched to a job cannot be found, its score is at
    least 0.6, and there are no more entries than rows. *)
Theorem X13_filter_reads_the_persisted_matches_only (E : env)
  (filters : pyobj) (w : world) :
  db_fails E GetCvForFilter = false ->
  exists matched w',
    get_filter_cvs E filters w
    = (inr (PyDict [(py "matched_candidates",
                     PyList (List.map Candidate.to_dict matched))]), w')
    /\ only_logs w w'
    /\ (length matched <= length (cv_job_matches w))%nat
    /\ Forall (fun c =>
                 fge (candidate_score c) (Finite (3 # 5)) = true
                 /\ exists row,
                      In row (cv_job_matches w)
                      /\ Row.cv_id row = Candidate.cv_id c) matched.
Proof.
  intros Hdb. unfold get_filter_cvs, mbind, M_bind.
  destruct (filter_candidates_logs E filters w Hdb) as (w' & -> & F).
  eexists _, w'. split; [reflexivity|]. split; [exact F|].
  set (qualifying := candidate_outcomes E filters 0 (filter_rows w)).
  pose proof (sorted_perm (fun x => fneg (candidate_score x)) false
                (List.map snd (best_of qualifying []))) as Hperm.
  split.
  - rewrite (Permutation_length Hperm), length_map.
    etransitivity; [apply best_of_length|]. simpl.
    etransitivity; [apply candidate_outcomes_length|].
    unfold filter_rows. now rewrite length_map.
  - assert (Hnan : Forall (fun x => is_nan (candidate_score x) = false)
                     ([] ++ qualifying)).
    { simpl. eapply List.Forall_impl; [|apply candidate_outcomes_scores].
      intros c Hc. eapply fge_not_nan, Hc. }
    destruct (best_of_invariant _ [] [] Hnan best_invariant_nil)
      as (Hnd & Hmax & _).
    apply List.Forall_forall. intros c Hc.
    eapply Permutation_in in Hc; [|exact Hperm].
    apply in_map_iff in Hc as ([k c0] & <- & Hin).
    apply In_best_lookup in Hin; [|exact Hnd].
    destruct (Hmax _ _ Hin) as (_ & Hq & _). simpl in Hq. simpl snd.
    apply candidate_outcomes_In in Hq as (j & row & Hrow & Hout).
    destruct (candidate_outcome_inv E _ _ _ _ Hout) as (Hid & Hscore).
    split; [exact Hscore|].
    apply lookup_In in Hrow. unfold filter_rows in Hrow.
    apply in_map_iff in Hrow as (r & <- & Hr).
    exists r. split; [exact Hr | now rewrite Hid].
Qed.

(** X13, witness: four rows, of which the replies qualify the first two. *)
Lemma X13_witness :
  exists matched w',
    get_filter_cvs filter_replies filter_dict matched_world
    = (inr (PyDict [(py "matched_candidates",
                     PyList (List.map Candidate.to_dict matched))]), w')
    /\ only_logs matched_world w'
    /\ (length matched <= 4)%nat.
Proof.
  destruct (X13_filter_reads_the_persisted_matches_only filter_replies
              filter_dict matched_world eq_refl)
    as (matched & w' & Hrun & F & Hlen & _).
  exists matched, w'. split; [exact Hrun|]. split; [exact F | exact Hlen].
Defined.

(** X14.  The edges of the filter endpoint.  When the rows cannot be read
    the exception leaves the endpoint and the world is as before.  When
    [cv_job_matches] is empty the answer is the empty list, whatever the
    filters are and whatever the model would say, and nothing is logged. *)
Theorem X14_filter_without_rows (E : env) (filters : pyobj) (w : world) :
  (db_fails E GetCvForFilter = true ->
   get_filter_cvs E filters w = (inl DatabaseError, w))
  /\ (db_fails E GetCvForFilter = false ->
      cv_job_matches w = [] ->
      get_filter_cvs E filters w
      = (inr (PyDict [(py "matched_candidates", PyList [])]), w)).
Proof.
  unfold get_filter_cvs, filter_candidates, get_cv_for_filter.
  split.
  - intros Hdb. run_monad. now rewrite Hdb.
  - intros Hdb Hempty. run_monad. rewrite Hdb, Hempty. reflexivity.
Qed.

(** X14, witness: the sample world has no persisted match. *)
Lemma X14_witness :
  get_filter_cvs all_down filter_dict sample_world
  = (inl DatabaseError, sample_world)
  /\ get_filter_cvs filter_replies filter_dict sample_world
     = (inr (PyDict [(py "matched_candidates", PyList [])]), sample_world).
Proof.
  split.
  - apply (X14_filter_without_rows all_down filter_dict sample_world).
    reflexivity.
  - apply (X14_filter_without_rows filter_replies filter_dict sample_world);
      reflexivity.
Defined.

(** ** The cache administration endpoints *)

Section CacheAdmin.
Variable exn_str : exn -> str.

Lemma check_cache_exists_run key w :
  check_cache_exists exn_str None key w
  = (inr (PyBool (bool_decide (is_Some (redis w !! key)))), w).
Proof.
  unfold check_cache_exists, client_exists, client_command. run_monad.
  now destruct (redis w !! key).
Qed.

Lemma delete_cache_run key w :
  delete_cache exn_str None key w
  = match redis w !! key with
    | Some _ => (inr (delete_report true), set_redis (fun m => delete key m) w)
    | None => (inr (delete_report false), w)
    end.
Proof.
  unfold delete_cache, client_delete, client_command. run_monad.
  now destruct (redis w !! key).
Qed.

Lemma get_cache_ttl_run key w :
  get_cache_ttl exn_str None key w
  = (inr match redis w !! key with
         | None => ttl_absent
         | Some (_, None) => ttl_unlimited
         | Some (_, Some ttl) =>
             if (ttl =? -2)%Z then ttl_absent
             else if (ttl =? -1)%Z then ttl_unlimited
             else ttl_seconds ttl
         end, w).
Proof.
  unfold get_cache_ttl, client_ttl, client_command. run_monad.
  destruct (redis w !! key) as [[value [ttl|]]|]; simpl; try reflexivity.
  destruct (ttl =? -2)%Z; [reflexivity|]. now destruct (ttl =? -1)%Z.
Qed.

End CacheAdmin.

(** X15.  Deleting a cache key through the administration endpoint.  With
    a working connection [delete_cache] reports success exactly when the
    key existed, removes that key and touches neither another key nor a
    table.  Afterwards [check_cache_exists] answers false for the key,
    [get_cache_ttl] reports that it does not exist and a second
    [delete_cache] reports [Key not found].  When the connection raises,
    each of the three handlers raises the HTTP error 500 with its own
    message and the text of the exception, and changes nothing. *)
Theorem X15_delete_cache_round_trips (exn_str : exn -> str) (key : str)
  (w : world) (e : exn) :
  (exists w',
     delete_cache exn_str None key w
     = (inr (delete_report (bool_decide (is_Some (redis w !! key)))), w')
     /\ w' = set_redis (fun m => delete key m) w
     /\ (forall k, k <> key -> redis w' !! k = redis w !! k)
     /\ check_cache_exists exn_str None key w' = (inr (PyBool false), w')
     /\ get_cache_ttl exn_str None key w' = (inr ttl_absent, w')
     /\ delete_cache exn_str None key w' = (inr (delete_report false), w'))
  /\ check_cache_exists exn_str (Some e) key w
     = (inl (HTTPException 500 (py "Failed to check cache: " ++ exn_str e)), w)
  /\ delete_cache exn_str (Some e) key w
     = (inl (HTTPException 500 (py "Failed to delete cache: " ++ exn_str e)),
        w)
  /\ get_cache_ttl exn_str (Some e) key w
     = (inl (HTTPException 500 (py "Failed to get TTL: " ++ exn_str e)), w).
Proof.
  split; [|repeat split].
  exists (set_redis (fun m => delete key m) w).
  assert (Hgone : redis (set_redis (fun m => delete key m) w) !! key = None)
    by apply lookup_delete_eq.
  split; [|split; [reflexivity|]]; [|split; [|split; [|split]]].
  - rewrite delete_cache_run.
    destruct (redis w !! key) as [entry|] eqn:Hkey.
    + now rewrite bool_decide_eq_true_2 by eauto.
    + rewrite bool_decide_eq_false_2 by (intros [x Hx]; discriminate).
      simpl. f_equal. destruct w. unfold set_redis. simpl in *.
      f_equal. symmetry. now apply delete_id.
  - intros k Hk. simpl. now apply lookup_delete_ne.
  - rewrite check_cache_exists_run, Hgone.
    now rewrite bool_decide_eq_false_2 by (intros [x Hx]; discriminate).
  - now rewrite get_cache_ttl_run, Hgone.
  - now rewrite delete_cache_run, Hgone.
Qed.

(** X16.  What the administration endpoint reports about the entries the
    pipelines write, asked before any time has passed.  After a CV analysis
    that missed the cache and reached its end, both [nli_analysis:cv:{id}]
    and [recommend:cv:{id}] exist and are reported to expire in 1800
    seconds.  After a recommendation read that missed the cache,
    [recommend:cv:{id}] exists and is reported to have no expiration. *)
Theorem X16_ttl_of_the_entries_the_pipelines_write
  (json_dumps : pyobj -> str) (E : env) (exn_str : exn -> str)
  (order : list nat) (cv_text : str) (cv_id : Z) (w : world) :
  redis w !! analysis_key cv_id = None ->
  redis w !! recommend_key cv_id = None ->
  db_fails E GetAllJobs = false ->
  db_fails E (SaveNliAnalysis cv_id) = false ->
  db_fails E (RecommendJobsForCv cv_id) = false ->
  (exists result w',
      analyze_cv_with_jobs json_dumps E order cv_text cv_id w
      = (inr result, w')
      /\ get_cache_ttl exn_str None (analysis_key cv_id) w'
         = (inr (ttl_seconds 1800), w')
      /\ get_cache_ttl exn_str None (recommend_key cv_id) w'
         = (inr (ttl_seconds 1800), w')
      /\ check_cache_exists exn_str None (analysis_key cv_id) w'
         = (inr (PyBool true), w'))
  /\ (exists result w',
         recommend_jobs_for_cv json_dumps E cv_id w = (inr result, w')
         /\ get_cache_ttl exn_str None (recommend_key cv_id) w'
            = (inr ttl_unlimited, w')
         /\ check_cache_exists exn_str None (analysis_key cv_id) w'
            = (inr (PyBool false), w')).
Proof.
  intros Hmiss Hmiss' Hjobs Hsave Hdb. split.
  - destruct (analysis_leaves_both_keys json_dumps E order cv_text cv_id w
                Hmiss Hjobs Hsave) as (ranked & w' & Hrun & Hk1 & Hk2).
    eexists _, w'. split; [exact Hrun|].
    rewrite !get_cache_ttl_run, check_cache_exists_run, Hk1, Hk2.
    rewrite bool_decide_eq_true_2 by eauto. auto.
  - rewrite (recommend_jobs_for_cv_miss json_dumps E cv_id w Hmiss' Hdb).
    eexists _, _. split; [reflexivity|].
    rewrite get_cache_ttl_run, check_cache_exists_run. simpl redis.
    rewrite lookup_insert_eq.
    rewrite lookup_insert_ne by (apply not_eq_sym, cache_keys_differ).
    rewrite Hmiss.
    now rewrite bool_decide_eq_false_2 by (intros [x Hx]; discriminate).
Qed.

(** X16, witness: the three-job scenario and a first read for CV 42. *)
Lemma X16_witness :
  (exists result w',
      analyze_cv_with_jobs constant_dumps three_replies [0; 1; 2]%nat
        sample_cv 42 sample_world
      = (inr result, w')
      /\ get_cache_ttl constant_str None (analysis_key 42) w'
         = (inr (ttl_seconds 1800), w'))
  /\ (exists result w',
         recommend_jobs_for_cv constant_dumps three_replies 42 sample_world
         = (inr result, w')
         /\ get_cache_ttl constant_str None (recommend_key 42) w'
            = (inr ttl_unlimited, w')).
Proof.
  destruct (X16_ttl_of_the_entries_the_pipelines_write
              constant_dumps three_replies constant_str [0; 1; 2]%nat
              sample_cv 42 sample_world
              eq_refl eq_refl eq_refl eq_refl eq_refl)
    as ((r1 & w1 & Hrun1 & Httl1 & _) & (r2 & w2 & Hrun2 & Httl2 & _)).
  split; [exists r1, w1 | exists r2, w2]; split; assumption.
Defined.

(** X17.  Deleting the analysis entry of a CV makes the next analysis
    compute again: it evaluates the active jobs and stores a new entry.
    The deletion leaves [recommend:cv:{id}] alone, so until that analysis
    runs the recommendation read still returns the old entry. *)
Theorem X17_deleting_the_analysis_entry_forces_a_new_analysis
  (json_dumps : pyobj -> str) (E : env) (exn_str : exn -> str)
  (order : list nat) (cv_text : str) (cv_id : Z) (w : world)
  (cached old : str) (ttl ttl' : option Z) :
  redis w !! analysis_key cv_id = Some (cached, ttl) ->
  redis w !! recommend_key cv_id = Some (old, ttl') ->
  db_fails E GetAllJobs = false ->
  db_fails E (SaveNliAnalysis cv_id) = false ->
  let ranked :=
    sorted JobMatch.match_score true
      (collected (fun i => single_job_outcome E i cv_id cv_text)
         (active_jobs w) order) in
  let payload := json_dumps (PyList (List.map JobMatch.to_dict ranked)) in
  exists w1 w2,
    delete_cache exn_str None (analysis_key cv_id) w
    = (inr (delete_report true), w1)
    /\ (forall E', recommend_jobs_for_cv json_dumps E' cv_id w1
                   = (inr old, w1))
    /\ analyze_cv_with_jobs json_dumps E order cv_text cv_id w1
       = (inr (PyList (List.map JobMatch.to_dict ranked)), w2)
    /\ redis w2 !! analysis_key cv_id = Some (payload, Some 1800%Z)
    /\ redis w2 !! recommend_key cv_id = Some (payload, Some 1800%Z).
Proof.
  intros Hkey Halias Hjobs Hsave ranked payload.
  set (w1 := set_redis (fun m => delete (analysis_key cv_id) m) w).
  assert (Hmiss : redis w1 !! analysis_key cv_id = None)
    by apply lookup_delete_eq.
  assert (Hold : redis w1 !! recommend_key cv_id = Some (old, ttl')).
  { simpl. rewrite lookup_delete_ne by apply cache_keys_differ.
    exact Halias. }
  destruct (analyze_cv_with_jobs_miss_run json_dumps E order cv_text cv_id
              w1 Hjobs) as (w' & _ & Hrun).
  rewrite Hsave in Hrun. change (active_jobs w1) with (active_jobs w) in Hrun.
  eexists w1, _. split; [|split; [|split; [|split]]].
  - now rewrite delete_cache_run, Hkey.
  - intros E'. eapply recommend_jobs_for_cv_hit, Hold.
  - rewrite analyze_cv_with_jobs_on_miss by exact Hmiss.
    rewrite Hrun. reflexivity.
  - simpl redis.
    rewrite lookup_insert_ne by (apply not_eq_sym, cache_keys_differ).
    apply lookup_insert_eq.
  - simpl redis. apply lookup_insert_eq.
Qed.

(** X17, witness: CV 42 is cached under both keys. *)
Lemma X17_witness :
  exists w1 w2,
    delete_cache constant_str None (analysis_key 42) cached_world
    = (inr (delete_report true), w1)
    /\ recommend_jobs_for_cv constant_dumps all_down 42 w1
       = (inr (js "[{'job_id': 1}]"), w1)
    /\ fst (analyze_cv_with_jobs constant_dumps three_replies [0; 1; 2]%nat
              sample_cv 42 w1)
       = fst (analyze_cv_with_jobs constant_dumps three_replies [0; 1; 2]%nat
                sample_cv 42 sample_world)
    /\ redis w2 !! recommend_key 42 = Some (py "[]", Some 1800%Z).
Proof.
  destruct (X17_deleting_the_analysis_entry_forces_a_new_analysis
              constant_dumps three_replies constant_str [0; 1; 2]%nat
              sample_cv 42 cached_world
              (js "[{'job_id': 1}]") (js "[{'job_id': 1}]")
              (Some 1800%Z) (Some 1800%Z) eq_refl eq_refl eq_refl eq_refl)
    as (w1 & w2 & Hdel & Hold & Hrun & _ & Hkey).
  exists w1, w2. split; [exact Hdel|]. split; [apply Hold|].
  split; [|exact Hkey]. rewrite Hrun. vm_compute. reflexivity.
Defined.

(** ** [extract_score] *)

Lemma lstrip_by_none p s :
  Forall (fun c => p c = false) s -> lstrip_by p s = s.
Proof. destruct 1 as [|c s Hc _]; simpl; [reflexivity | now rewrite Hc]. Qed.

Lemma strip_by_none p s :
  Forall (fun c => p c = false) s -> strip_by p s = s.
Proof.
  intros H. unfold strip_by, rstrip_by.
  rewrite (lstrip_by_none p s H), lstrip_by_none by now apply List.Forall_rev.
  apply rev_involutive.
Qed.

Lemma drop_underscores_none prev s :
  (prev =? ch "_") = false ->
  Forall (fun c => (c =? ch "_") = false) s ->
  drop_underscores prev s = Some s.
Proof.
  intros Hp Hs. revert prev Hp.
  induction Hs as [|c s Hc _ IH]; intros prev Hp; cbn [drop_underscores].
  - now rewrite Hp.
  - rewrite Hc, Hp. cbn [andb]. now rewrite (IH c Hc).
Qed.

Lemma span_digits_all ds :
  Forall (fun d => is_digit d = true) ds -> span_digits ds = (ds, []).
Proof.
  induction 1 as [|d ds Hd _ IH]; simpl; [reflexivity|].
  now rewrite Hd, IH.
Qed.

Lemma is_digit_cases d :
  is_digit d = true -> In d [48; 49; 50; 51; 52; 53; 54; 55; 56; 57].
Proof.
  unfold is_digit, in_range. intros H. apply andb_prop in H as [H1 H2].
  apply N.leb_le in H1, H2. simpl.
  assert (d = 48 \/ d = 49 \/ d = 50 \/ d = 51 \/ d = 52 \/ d = 53 \/ d = 54
          \/ d = 55 \/ d = 56 \/ d = 57) by lia.
  intuition auto.
Qed.

Lemma digit_facts d :
  is_digit d = true ->
  float_space d = false /\ (d =? ch "_") = false
  /\ (0 <= digit_val d <= 9)%Z.
Proof.
  intros H. apply is_digit_cases in H. simpl in H.
  repeat destruct H as [<-|H]; try contradiction;
    (split; [reflexivity|]; split; [reflexivity|];
     vm_compute; split; discriminate).
Qed.

Lemma digits_to_Z_bounds ds acc :
  Forall (fun d => is_digit d = true) ds ->
  exists low,
    fold_left (fun a d => (a * 10 + digit_val d)%Z) ds acc
    = (acc * 10 ^ Z.of_nat (length ds) + low)%Z
    /\ (0 <= low < 10 ^ Z.of_nat (length ds))%Z.
Proof.
  intros Hds. revert acc.
  induction Hds as [|d ds Hd _ IH]; intros acc.
  - exists 0%Z. simpl. lia.
  - destruct (digit_facts d Hd) as (_ & _ & Hv). simpl fold_left.
    destruct (IH (acc * 10 + digit_val d)%Z) as (low & -> & Hlow).
    exists (digit_val d * 10 ^ Z.of_nat (length ds) + low)%Z.
    simpl length. rewrite Nat2Z.inj_succ, Z.pow_succ_r by lia.
    split; [ring|]. nia.
Qed.

Lemma str_eqb_head a s b t :
  (a =? b) = false -> str_eqb (a :: s) (b :: t) = false.
Proof. intros H. simpl. now rewrite H. Qed.

(** [float] of a match of the pattern, once its digits are ASCII. *)
Lemma float_of_str_score c ds :
  c = 48 \/ c = 49 ->
  Forall (fun d => is_digit d = true) ds ->
  float_of_str (c :: match ds with
                     | [] => []
                     | _ :: _ => ch "." :: ds
                     end)
  = Some (mk_float (decimal_value false [c] ds 0)).
Proof.
  intros Hc Hds.
  assert (Hdigit : is_digit c = true) by (destruct Hc; subst; reflexivity).
  assert (Hall : Forall (fun d => is_digit d = true \/ d = ch ".")
                   (c :: match ds with
                         | [] => []
                         | _ :: _ => ch "." :: ds
                         end)).
  { constructor; [now left|]. destruct ds as [|d ds]; [constructor|].
    constructor; [now right|].
    eapply List.Forall_impl; [|exact Hds]. intros x Hx. now left. }
  unfold float_of_str.
  rewrite strip_by_none, drop_underscores_none; [|reflexivity| |].
  2: { eapply List.Forall_impl; [|exact Hall].
       intros x [Hx| ->]; [apply (digit_facts x Hx) | reflexivity]. }
  2: { eapply List.Forall_impl; [|exact Hall].
       intros x [Hx| ->]; [apply (digit_facts x Hx) | reflexivity]. }
  replace (c =? ch "-") with false by (destruct Hc; subst; reflexivity).
  replace (c =? ch "+") with false by (destruct Hc; subst; reflexivity).
  unfold parse_unsigned.
  replace (py "infinity") with (105 :: py "nfinity") by reflexivity.
  replace (py "inf") with (105 :: py "nf") by reflexivity.
  replace (py "nan") with (110 :: py "an") by reflexivity.
  simpl List.map.
  rewrite !str_eqb_head by (destruct Hc; subst; reflexivity).
  simpl orb. cbv iota.
  destruct ds as [|d ds].
  - simpl span_digits. rewrite Hdigit. simpl. reflexivity.
  - simpl span_digits. rewrite Hdigit.
    change (is_digit (ch ".")) with false. cbv iota beta.
    change (ch "." =? ch ".") with true. cbv iota.
    rewrite (span_digits_all (d :: ds) Hds). simpl. reflexivity.
Qed.

Lemma score_value_bounds c ds :
  c = 48 \/ c = 49 ->
  Forall (fun d => is_digit d = true) ds ->
  exists q,
    mk_float (decimal_value false [c] ds 0) = Finite q
    /\ (0 <= q)%Q /\ (q <= 2)%Q.
Proof.
  intros Hc Hds.
  set (n := Z.of_nat (length ds)).
  assert (Hn : (0 <= n)%Z) by (unfold n; lia).
  destruct (digits_to_Z_bounds ds (0 * 10 + digit_val c) Hds)
    as (low & Hm & Hlow). fold n in Hm, Hlow.
  assert (Hdc : (0 <= digit_val c <= 1)%Z)
    by (destruct Hc; subst; vm_compute; split; discriminate).
  assert (HT : (0 < 10 ^ n)%Z) by (apply Z.pow_pos_nonneg; lia).
  set (v := decimal_value false [c] ds 0).
  assert (Hv : (v == inject_Z (digit_val c * 10 ^ n + low)
                     / inject_Z (10 ^ n))%Q).
  { unfold v, decimal_value, digits_to_Z, pow10. simpl app.
    simpl fold_left. rewrite Hm. fold n.
    replace (0 - n)%Z with (- n)%Z by lia.
    rewrite Qpower_opp.
    change (10 # 1)%Q with (inject_Z 10).
    rewrite <- Zpower_Qpower by exact Hn.
    replace (0 * 10 + digit_val c)%Z with (digit_val c) by lia.
    reflexivity. }
  assert (HTq : (0 < inject_Z (10 ^ n))%Q).
  { change 0%Q with (inject_Z 0). now rewrite <- Zlt_Qlt. }
  assert (Hrange : (0 <= v)%Q /\ (v <= 2)%Q).
  { rewrite Hv. split.
    - apply Qle_shift_div_l; [exact HTq|]. rewrite Qmult_0_l.
      change 0%Q with (inject_Z 0). rewrite <- Zle_Qle. nia.
    - apply Qle_shift_div_r; [exact HTq|].
      change 2%Q with (inject_Z 2).
      rewrite <- inject_Z_mult, <- Zle_Qle. nia. }
  exists (Qred v). split; [|now rewrite Qred_correct].
  unfold mk_float.
  replace (overflows v) with false; [reflexivity|].
  symmetry. unfold overflows.
  destruct (Qle_bool (inject_Z float_overflow) (Qabs v)) eqn:H; [|reflexivity].
  apply Qle_bool_iff in H. rewrite Qabs_pos in H by apply Hrange.
  assert (H2 : (inject_Z float_overflow <= inject_Z 2)%Q).
  { eapply Qle_trans; [exact H | apply Hrange]. }
  rewrite <- Zle_Qle in H2. vm_compute in H2. now destruct H2.
Qed.

Section ExtractScoreFacts.
Variable todecimal : N -> option N.
Hypothesis table : decimal_table todecimal.

Lemma span_decimals_Forall s :
  Forall (fun c => is_decimal todecimal c = true)
    (fst (span_decimals todecimal s)).
Proof.
  induction s as [|c s IH]; simpl; [constructor|].
  destruct (is_decimal todecimal c) eqn:Hc; [|constructor].
  destruct (span_decimals todecimal s) as [ds rest]. simpl in *.
  now constructor.
Qed.

Lemma transform_decimals ds :
  Forall (fun c => is_decimal todecimal c = true) ds ->
  Forall (fun d => is_digit d = true)
    (transform_decimal_and_space todecimal ds)
  /\ (ds <> [] -> transform_decimal_and_space todecimal ds <> []).
Proof.
  induction 1 as [|c ds Hc _ [IH _]]; [split; [constructor | tauto]|].
  simpl. unfold is_decimal in Hc.
  destruct (c <? 128); [split; [now constructor | discriminate]|].
  apply bool_decide_eq_true_1 in Hc as [d Hd]. rewrite Hd.
  destruct (table c d Hd) as (Hle & ->).
  split; [|discriminate]. constructor; [|exact IH].
  unfold is_digit, in_range. apply andb_true_intro.
  split; apply N.leb_le; lia.
Qed.

Lemma transform_ascii c s :
  (c <? 128) = true ->
  transform_decimal_and_space todecimal (c :: s)
  = c :: transform_decimal_and_space todecimal s.
Proof. intros H. simpl. now rewrite H. Qed.

Lemma re_search_score_match line group1 :
  re_search_score todecimal line = Some group1 ->
  exists c ds,
    (c = 48 \/ c = 49)
    /\ Forall (fun d => is_digit d = true) ds
    /\ transform_decimal_and_space todecimal group1
       = c :: match ds with
              | [] => []
              | _ :: _ => ch "." :: ds
              end.
Proof.
  induction line as [|c line IH]; simpl; [discriminate|].
  destruct (in_range 48 49 c) eqn:Hc; [|exact IH].
  intros [= <-].
  assert (Hc' : c = 48 \/ c = 49).
  { unfold in_range in Hc. apply andb_prop in Hc as [H1 H2].
    apply N.leb_le in H1, H2. lia. }
  exists c.
  rewrite transform_ascii by (destruct Hc'; subst; reflexivity).
  unfold score_fraction.
  destruct line as [|dot [|d line]]; [now exists [] | now exists [] |].
  destruct ((dot =? ch ".") && is_decimal todecimal d) eqn:Hdot;
    [|now exists []].
  apply andb_prop in Hdot as [Hdot Hd]. apply N.eqb_eq in Hdot as ->.
  pose proof (span_decimals_Forall (d :: line)) as Hall.
  assert (Hne : fst (span_decimals todecimal (d :: line)) <> []).
  { simpl. rewrite Hd. now destruct (span_decimals todecimal line). }
  destruct (transform_decimals _ Hall) as (Hdigits & Hne').
  specialize (Hne' Hne).
  exists (transform_decimal_and_space todecimal
            (fst (span_decimals todecimal (d :: line)))).
  split; [exact Hc'|]. split; [exact Hdigits|].
  rewrite transform_ascii by reflexivity.
  now destruct (transform_decimal_and_space todecimal
                  (fst (span_decimals todecimal (d :: line)))).
Qed.

End ExtractScoreFacts.

(** X18.  [extract_score] returns a finite number between 0 and 2 for
    every text: it never raises, and never returns a negative number, an
    infinity or NaN.  The bound is 2 and not 1, as the pattern accepts a
    leading 1 followed by any fraction. *)
Theorem X18_extract_score_is_between_0_and_2 (todecimal : N -> option N)
  (text : str) :
  decimal_table todecimal ->
  exists q,
    extract_score todecimal text = Finite q /\ (0 <= q)%Q /\ (q <= 2)%Q.
Proof.
  intros Htable. unfold extract_score.
  assert (Hzero : exists q : Q,
             Finite 0 = Finite q /\ (0 <= q)%Q /\ (q <= 2)%Q).
  { exists 0%Q. split; [reflexivity|]. split; discriminate. }
  destruct (last _) as [score_line|]; [|exact Hzero].
  destruct (re_search_score todecimal score_line) as [group1|] eqn:Hmatch;
    [|exact Hzero].
  destruct (re_search_score_match todecimal Htable _ _ Hmatch)
    as (c & ds & Hc & Hds & ->).
  rewrite (float_of_str_score c ds Hc Hds).
  now apply score_value_bounds.
Qed.

(** X18, witness: a score line that reads 1.95, with Arabic-Indic digits
    after the point. *)
Lemma X18_witness :
  decimal_table arabic_indic
  /\ extract_score arabic_indic (py "Score: 1." ++ [1641; 1637])
     = Finite (39 # 20)
  /\ exists q,
       extract_score arabic_indic (py "Score: 1." ++ [1641; 1637]) = Finite q
       /\ (0 <= q)%Q /\ (q <= 2)%Q.
Proof.
  assert (Htable : decimal_table arabic_indic).
  { intros c d. unfold arabic_indic, in_range.
    destruct (_ && _) eqn:Hc; [|discriminate]. intros [= <-].
    apply andb_prop in Hc as [H1 H2]. apply N.leb_le in H1, H2.
    split; [lia|].
    assert (Hcases : In c [1632; 1633; 1634; 1635; 1636; 1637; 1638; 1639;
                           1640; 1641]) by (simpl; lia).
    simpl in Hcases.
    repeat destruct Hcases as [<-|Hcases]; try contradiction; reflexivity. }
  split; [exact Htable|]. split; [vm_compute; reflexivity|].
  apply (X18_extract_score_is_between_0_and_2 arabic_indic
           (py "Score: 1." ++ [1641; 1637]) Htable).
Defined.

Lemma startswith_prefix s sub :
  startswith s sub = true -> exists after, s = sub ++ after.
Proof.
  revert s. induction sub as [|p sub IH]; intros s; [now exists s|].
  destruct s as [|c s]; simpl; [discriminate|].
  intros H. apply andb_prop in H as [Hc Hs]. apply N.eqb_eq in Hc as ->.
  destruct (IH s Hs) as [after ->]. now exists after.
Qed.

Lemma contains_occurs s sub : contains s sub = true -> occurs_in sub s.
Proof.
  induction s as [|c s IH]; cbn [contains].
  - rewrite orb_false_r. intros H.
    destruct (startswith_prefix [] sub H) as [after Hs]. now exists [], after.
  - intros H. apply orb_prop in H as [H|H].
    + destruct (startswith_prefix (c :: s) sub H) as [after Hs].
      now exists [], after.
    + destruct (IH H) as (before & after & ->). now exists (c :: before), after.
Qed.

Lemma startswith_app sub after : startswith (sub ++ after) sub = true.
Proof.
  induction sub as [|p sub IH]; simpl; [now destruct after|].
  now rewrite N.eqb_refl, IH.
Qed.

Lemma occurs_contains s sub : occurs_in sub s -> contains s sub = true.
Proof.
  intros (before & after & ->).
  induction before as [|c before IH]; simpl app.
  - destruct (sub ++ after) eqn:Hs; cbn [contains]; rewrite <- Hs;
      now rewrite startswith_app.
  - cbn [contains]. rewrite IH. apply orb_true_r.
Qed.

Lemma occurs_in_infix sub s before after :
  occurs_in sub s -> occurs_in sub (before ++ s ++ after).
Proof.
  intros (b & a & ->). exists (before ++ b), (a ++ after).
  now rewrite <- !List.app_assoc.
Qed.

(** Every line of [splitlines] is a part of the text. *)
Lemma splitlines_from_infix after_cr line s l :
  (after_cr = true -> line = []) ->
  In l (splitlines_from after_cr line s) ->
  exists before after, rev line ++ s = before ++ l ++ after.
Proof.
  revert after_cr line. induction s as [|c s IH]; intros after_cr line Hcr.
  - simpl. destruct line as [|x line]; [intros []|].
    intros [<-|[]]. exists [], []. now rewrite !app_nil_r.
  - simpl splitlines_from.
    destruct (after_cr && (c =? 10)) eqn:Hskip.
    + apply andb_prop in Hskip as [-> _]. rewrite (Hcr eq_refl).
      intros Hl. destruct (IH false [] (fun H => eq_refl) Hl)
        as (before & after & Hs).
      simpl in *. exists (c :: before), after. now rewrite Hs.
    + destruct (is_linebreak c).
      * intros [<-|Hl].
        -- exists [], (c :: s). reflexivity.
        -- destruct (IH (c =? 13) [] (fun H => eq_refl) Hl)
             as (before & after & Hs).
           simpl in Hs. exists (rev line ++ c :: before), after.
           rewrite Hs. now rewrite <- List.app_assoc.
      * intros Hl.
        destruct (IH false (c :: line) (fun H => ltac:(discriminate)) Hl)
          as (before & after & Hs).
        exists before, after. rewrite <- Hs. simpl.
        now rewrite <- List.app_assoc.
Qed.

(** A text without a line boundary is one line. *)
Lemma splitlines_from_one_line after_cr line s :
  Forall (fun c => is_linebreak c = false) s ->
  rev line ++ s <> [] ->
  splitlines_from after_cr line s = [rev line ++ s].
Proof.
  intros Hs. revert after_cr line.
  induction Hs as [|c s Hc _ IH]; intros after_cr line Hne.
  - simpl. rewrite app_nil_r in *.
    destruct line as [|x line]; [now destruct Hne | reflexivity].
  - simpl splitlines_from.
    assert (H10 : (c =? 10) = false).
    { destruct (c =? 10) eqn:H; [|reflexivity].
      apply N.eqb_eq in H as ->. discriminate. }
    rewrite H10, andb_false_r, Hc.
    rewrite IH; simpl; rewrite <- List.app_assoc; [reflexivity|].
    now destruct (rev line).
Qed.

(** The part after the last line feed is the last line. *)
Lemma splitlines_from_last_line after_cr line before l :
  (after_cr = true -> line = []) ->
  Forall (fun c => is_linebreak c = false) l ->
  l <> [] ->
  exists lines,
    splitlines_from after_cr line (before ++ 10 :: l) = lines ++ [l].
Proof.
  intros Hcr Hl Hne. revert after_cr line Hcr.
  induction before as [|c before IH]; intros after_cr line Hcr.
  - simpl app. simpl splitlines_from.
    destruct after_cr; simpl andb; cbv iota.
    + rewrite (Hcr eq_refl). exists [].
      now rewrite splitlines_from_one_line.
    + change (is_linebreak 10) with true. cbv iota.
      exists [rev line]. now rewrite splitlines_from_one_line.
  - simpl app. simpl splitlines_from.
    destruct (after_cr && (c =? 10)).
    + apply IH. discriminate.
    + destruct (is_linebreak c).
      * destruct (IH (c =? 13) [] (fun H => eq_refl)) as [lines ->].
        now exists (rev line :: lines).
      * apply IH. discriminate.
Qed.

Lemma filter_none {A} (f : A -> bool) l :
  Forall (fun x => f x = false) l -> List.filter f l = [].
Proof.
  induction 1 as [|x l Hx _ IH]; simpl; [reflexivity|]. now rewrite Hx.
Qed.

Lemma mentions_score_nonempty line : mentions_score line = true -> line <> [].
Proof. now intros H ->. Qed.

(** X19.  Which line [extract_score] reads.  A text in which the word
    [score] does not occur, in any mix of upper and lower case, gets 0.0.
    When the part after the last line feed is a line that mentions the word,
    that line alone decides: the result is the one of that line taken as the
    whole text, whatever precedes it. *)
Theorem X19_extract_score_reads_the_last_score_line
  (todecimal : N -> option N) (text before line : str) :
  (~ occurs_in (py "score") (List.map lower text) ->
   extract_score todecimal text = Finite 0)
  /\ (Forall (fun c => is_linebreak c = false) line ->
      mentions_score line = true ->
      extract_score todecimal (before ++ 10 :: line)
      = extract_score todecimal line).
Proof.
  split.
  - intros Hno. unfold extract_score.
    rewrite filter_none; [reflexivity|].
    apply List.Forall_forall. intros l Hl.
    destruct (mentions_score l) eqn:Hm; [|reflexivity].
    exfalso. apply Hno.
    apply (splitlines_from_infix false [] text l) in Hl as (b & a & Hs);
      [|discriminate].
    simpl in Hs. rewrite Hs, !map_app.
    apply occurs_in_infix, contains_occurs, Hm.
  - intros Hline Hm. unfold extract_score, splitlines.
    pose proof (mentions_score_nonempty line Hm) as Hne.
    destruct (splitlines_from_last_line false [] before line
                ltac:(discriminate) Hline Hne) as [lines ->].
    rewrite (splitlines_from_one_line false [] line Hline) by exact Hne.
    simpl rev. change ([] ++ line) with line.
    rewrite List.filter_app. simpl List.filter. rewrite Hm.
    now rewrite last_snoc.
Qed.

(** X19, witness: two score lines, the last one decides; no score line. *)
Lemma X19_witness :
  extract_score ascii_only (py "no number here") = Finite 0
  /\ extract_score ascii_only (py "score 0.2" ++ 10 :: py "Final SCORE: 0.7")
     = extract_score ascii_only (py "Final SCORE: 0.7")
  /\ extract_score ascii_only (py "Final SCORE: 0.7") = Finite (7 # 10).
Proof.
  destruct (X19_extract_score_reads_the_last_score_line ascii_only
              (py "no number here") (py "score 0.2") (py "Final SCORE: 0.7"))
    as (H1 & H2).
  split; [|split].
  - apply H1. intros H%occurs_contains. vm_compute in H. discriminate.
  - apply H2; [|vm_compute; reflexivity].
    apply (bool_decide_unpack _). vm_compute. exact I.
  - vm_compute. reflexivity.
Defined.

(** ** What the other pipelines log *)

Section OtherLogs.
Variable E : env.

Lemma analyze_job_log target_text i other w :
  exists w',
    analyze_job E target_text i other w
    = (inr (related_job_outcome E target_text i other), w')
    /\ log w'
       = log w ++ option_list (related_job_failure E target_text i other).
Proof.
  rewrite analyze_job_run. unfold related_job_outcome, related_job_failure.
  destruct (invoke E i _) as [raw|]; [|eexists; split; reflexivity].
  destruct (analyze_job_parse raw) as [e|[score explanation]];
    [eexists; split; reflexivity|].
  destruct (fge score (Finite (2 # 5)));
    eexists; (split; [reflexivity | simpl; now rewrite app_nil_r]).
Qed.

Lemma filter_candidates_step_log filters i row best_scores w :
  exists w',
    filter_candidates_step E filters i row best_scores w
    = (inr (match candidate_outcome E filters i row with
            | Some c => keep_best c best_scores
            | None => best_scores
            end), w')
    /\ log w' = log w ++ option_list (candidate_failure E filters i row).
Proof.
  destruct row as [cv_id cv_text].
  rewrite filter_candidates_step_run.
  unfold candidate_outcome, candidate_failure. simpl snd. simpl fst.
  destruct (invoke E i _) as [raw|]; [|eexists; split; reflexivity].
  destruct (filter_candidates_parse raw) as [e|[v reason]];
    [eexists; split; reflexivity|].
  destruct (as_num v) as [n|]; [|eexists; split; reflexivity].
  destruct (fge (num_val n) (Finite (3 # 5)));
    eexists; (split; [reflexivity | simpl; now rewrite app_nil_r]).
Qed.

Lemma filter_candidates_loop_log filters rows i best_scores w :
  exists w',
    filter_candidates_loop E filters i rows best_scores w
    = (inr (best_of (candidate_outcomes E filters i rows) best_scores), w')
    /\ log w' = log w ++ candidate_failures E filters i rows.
Proof.
  revert i best_scores w.
  induction rows as [|row rows IH]; intros i best_scores w.
  - exists w. split; [reflexivity | simpl; now rewrite app_nil_r].
  - simpl filter_candidates_loop. unfold mbind at 1, M_bind.
    destruct (filter_candidates_step_log filters i row best_scores w)
      as (w1 & -> & L1).
    destruct (IH (S i)
                (match candidate_outcome E filters i row with
                 | Some c => keep_best c best_scores
                 | None => best_scores
                 end) w1) as (w2 & -> & L2).
    exists w2. split.
    + simpl candidate_outcomes.
      destruct (candidate_outcome E filters i row); reflexivity.
    + rewrite L2, L1. simpl candidate_failures.
      now rewrite <- List.app_assoc.
Qed.

End OtherLogs.

(** X20.  A comparison that fails never fails the related-jobs request.  On
    a cache miss for a job of the table the request returns normally, and
    the log grows by one record per comparison whose model call raised or
    whose reply could not be parsed, in completion order and at level
    WARNING, where the CV analysis logs its failed pairs at level ERROR; a
    comparison that is scored, above or below the threshold, leaves no
    record. *)
Theorem X20_related_jobs_logs_a_warning_per_failed_comparison
  (json_dumps : pyobj -> str) (E : env) (order : list nat) (job_id : Z)
  (job : Job.t) (w : world) :
  redis w !! related_key job_id = None ->
  db_fails E (GetRelativeJobs job_id) = false ->
  List.find (fun j => (Job.id j =? job_id)%Z) (job_table w) = Some job ->
  let failure := related_job_failure E (job_text job) in
  exists result w',
    related_jobs json_dumps E order job_id w = (inr result, w')
    /\ log w' = log w ++ emitted failure (other_active_jobs job_id w) order
    /\ Forall (fun record => level record = WARNING)
         (emitted failure (other_active_jobs job_id w) order)
    /\ (forall i other raw_content score explanation,
          invoke E i (JobVsJob (job_text job) (job_text other))
          = Some raw_content ->
          analyze_job_parse raw_content = inr (score, explanation) ->
          failure i other = None).
Proof.
  intros Hmiss Hdb Hjob failure.
  rewrite related_jobs_on_miss by exact Hmiss.
  destruct (as_completed_emits
              (fun i other => analyze_job E (job_text job) i other)
              (related_job_outcome E (job_text job))
              log failure (other_active_jobs job_id w)
              (analyze_job_log E (job_text job)) order [] w)
    as (w1 & Hrun & Hlog).
  assert (Hmissrun :
            related_jobs_miss json_dumps E order job_id w
            = (inr (sorted Related.score true
                      (collected (related_job_outcome E (job_text job))
                         (other_active_jobs job_id w) order)),
               set_redis
                 (fun m =>
                    <[related_key job_id :=
                        (json_dumps
                           (PyList
                              (List.map Related.to_dict
                                 (sorted Related.score true
                                    (collected
                                       (related_job_outcome E (job_text job))
                                       (other_active_jobs job_id w) order)))),
                         Some 10800%Z)]> m) w1)).
  { unfold related_jobs_miss, get_relative_jobs, redis_set.
    run_monad. rewrite Hdb, Hjob. fold (other_active_jobs job_id w).
    simpl. rewrite Hrun. reflexivity. }
  rewrite Hmissrun. eexists _, _. split; [reflexivity|].
  split; [exact Hlog|]. split.
  - apply collected_Forall. intros i other record.
    unfold failure, related_job_failure.
    destruct (invoke E i _) as [raw|]; [|now intros [= <-]].
    destruct (analyze_job_parse raw) as [e|?]; [now intros [= <-]|].
    discriminate.
  - intros i other raw score explanation Hraw Hparse.
    unfold failure, related_job_failure. now rewrite Hraw, Hparse.
Qed.

(** X20, witness: job 2 gets a reply that is not JSON, job 3 a model call
    that raises. *)
Lemma X20_witness :
  exists result w',
    related_jobs constant_dumps three_failures [1; 0]%nat 1 sample_world
    = (inr result, w')
    /\ List.map (fun r => (level r, subject r, cause r)) (log w')
       = [(WARNING, 3%Z, OracleError); (WARNING, 2%Z, JSONDecodeError)].
Proof.
  destruct (X20_related_jobs_logs_a_warning_per_failed_comparison
              constant_dumps three_failures [1; 0]%nat 1 (sample_job 1)
              sample_world eq_refl eq_refl eq_refl)
    as (result & w' & Hrun & Hlog & _).
  exists result, w'. split; [exact Hrun|]. rewrite Hlog.
  vm_compute. reflexivity.
Defined.

(** X21.  What the filter endpoint logs.  When the rows can be read, the
    log grows by one ERROR record per row whose evaluation failed, in row
    order, naming the CV and the exception, and the request still returns
    normally.  A reply whose [match_score] is not a number, such as a score
    written as a string, is such a failure (a [TypeError]): the filter does
    not convert the score as the two other pipelines do. *)
Theorem X21_filter_logs_one_error_per_failed_row (E : env) (filters : pyobj)
  (w : world) :
  db_fails E GetCvForFilter = false ->
  (exists result w',
      get_filter_cvs E filters w = (inr result, w')
      /\ log w' = log w ++ candidate_failures E filters 0 (filter_rows w))
  /\ (forall i row response_text match_score reason,
        invoke E i (CvVsFilter filters (snd row)) = Some response_text ->
        filter_candidates_parse response_text = inr (match_score, reason) ->
        as_num match_score = None ->
        candidate_outcome E filters i row = None
        /\ candidate_failure E filters i row
           = Some (error_record (py "Error while processing CV") (fst row)
                     TypeError)).
Proof.
  intros Hdb. split.
  - destruct (filter_candidates_loop_log E filters (filter_rows w) 0 [] w)
      as (w' & Hrun & Hlog).
    eexists _, w'. split; [|exact Hlog].
    unfold get_filter_cvs, filter_candidates, get_cv_for_filter.
    run_monad. rewrite Hdb. fold (filter_rows w). rewrite Hrun. reflexivity.
  - intros i row raw v reason Hraw Hparse Hnum.
    unfold candidate_outcome, candidate_failure.
    now rewrite Hraw, Hparse, Hnum.
Qed.

(** X21, witness: four rows; the first three evaluations fail. *)
Lemma X21_witness :
  exists result w',
    get_filter_cvs filter_failures filter_dict matched_world
    = (inr result, w')
    /\ List.map (fun r => (subject r, cause r)) (log w')
       = [(42%Z, TypeError); (7%Z, OracleError);
          (42%Z, ValueError (py "Empty response from Gemini"))].
Proof.
  destruct (X21_filter_logs_one_error_per_failed_row filter_failures
              filter_dict matched_world eq_refl)
    as ((result & w' & Hrun & Hlog) & _).
  exists result, w'. split; [exact Hrun|]. rewrite Hlog.
  vm_compute. reflexivity.
Defined.

Lemma collected_nil {C R} (outcome : nat -> C -> option R) order :
  collected outcome [] order = [].
Proof.
  induction order as [|i order IH]; [reflexivity|].
  rewrite collected_cons, lookup_nil. exact IH.
Qed.

(** X22.  With no active job the CV analysis has nothing to evaluate: on a
    cache miss it returns the empty list whatever the model would answer
    and whatever order is given, inserts no match and logs nothing, and
    still records a snapshot and caches the empty result under both keys
    for 1800 seconds, so jobs added within that time are not seen by the
    next analysis of that CV. *)
Theorem X22_analysis_without_active_jobs
  (json_dumps : pyobj -> str) (E : env) (order : list nat) (cv_text : str)
  (cv_id : Z) (w : world) :
  redis w !! analysis_key cv_id = None ->
  db_fails E GetAllJobs = false ->
  db_fails E (SaveNliAnalysis cv_id) = false ->
  active_jobs w = [] ->
  let payload := json_dumps (PyList []) in
  exists w',
    analyze_cv_with_jobs json_dumps E order cv_text cv_id w
    = (inr (PyList []), w')
    /\ cv_job_matches w' = cv_job_matches w
    /\ log w' = log w
    /\ nli_analysis w' = nli_analysis w ++ [(cv_id, payload)]
    /\ redis w' !! analysis_key cv_id = Some (payload, Some 1800%Z)
    /\ redis w' !! recommend_key cv_id = Some (payload, Some 1800%Z)
    /\ forall E' order' cv_text' table,
         fst (analyze_cv_with_jobs json_dumps E' order' cv_text' cv_id
                {| redis := redis w'; job_table := table; db_now := db_now w';
                   cv_job_matches := cv_job_matches w';
                   nli_analysis := nli_analysis w'; log := log w' |})
         = or_raise JSONDecodeError (json_loads payload).
Proof.
  intros Hmiss Hjobs Hsave Hnone payload.
  rewrite analyze_cv_with_jobs_on_miss by exact Hmiss.
  destruct (analyze_cv_with_jobs_miss_effects json_dumps E order cv_text cv_id
              w Hjobs) as (w1 & (_ & _ & _ & Hn) & Hrows & Hlog & ->).
  rewrite Hsave, Hnone in *.
  unfold emitted in Hlog. rewrite !collected_nil in *. simpl in Hrows, Hlog.
  rewrite app_nil_r in Hrows, Hlog.
  eexists. split; [reflexivity|]. simpl.
  split; [exact Hrows|]. split; [exact Hlog|]. split; [now rewrite Hn|].
  assert (Hk1 : forall m : gmap str (str * option Z),
             <[recommend_key cv_id := (payload, Some 1800%Z)]>
               (<[analysis_key cv_id := (payload, Some 1800%Z)]> m)
             !! analysis_key cv_id = Some (payload, Some 1800%Z)).
  { intros m.
    rewrite lookup_insert_ne by (apply not_eq_sym, cache_keys_differ).
    apply lookup_insert_eq. }
  split; [apply Hk1|]. split; [apply lookup_insert_eq|].
  intros E' order' cv_text' table.
  erewrite analyze_cv_with_jobs_hit; [reflexivity|]. simpl. apply Hk1.
Qed.

(** X22, witness: the only job has expired. *)
Lemma X22_witness :
  exists w',
    analyze_cv_with_jobs constant_dumps three_replies [0]%nat sample_cv 42
      expired_world
    = (inr (PyList []), w')
    /\ cv_job_matches w' = []
    /\ redis w' !! analysis_key 42 = Some (py "[]", Some 1800%Z).
Proof.
  destruct (X22_analysis_without_active_jobs constant_dumps three_replies
              [0]%nat sample_cv 42 expired_world
              eq_refl eq_refl eq_refl eq_refl)
    as (w' & Hrun & Hrows & _ & _ & Hkey & _).
  exists w'. split; [exact Hrun|]. split; [exact Hrows | exact Hkey].
Defined.
